(** * ai-summarizer: the document-to-artifact pipeline of [backend/controller.js]

    A shallow embedding of [extractJsonFromString], [promiseTextFromResponse],
    [processImage] and [processPdf], and the properties of the specification
    that are decided by them; then what else the handlers do, and the page
    of [frontend/app/page.tsx] that calls them. *)

From Stdlib Require Import String Ascii.
From Stdlib Require Import List ZArith NArith Lia Bool DecimalString.
Import ListNotations.
Open Scope string_scope.
Open Scope list_scope.

Set Implicit Arguments.
Set Warnings "-register-all".

(* ================================================================== *)
(** * Part I: definitions *)
(* ================================================================== *)

(** ** JavaScript strings

    A JavaScript string is a sequence of UTF-16 code units; [length], [slice],
    [trim] and the regular expressions of the controller (none has the [u]
    flag) all work on code units. *)

Definition code_unit := N.
Definition jsstring := list code_unit.

(** An ASCII literal of the source as a JavaScript string. *)
Definition js (s : string) : jsstring := map N_of_ascii (list_ascii_of_string s).

(** A literal in which every apostrophe stands for a double quote, to write
    JSON texts. *)
Definition jsq (s : string) : jsstring :=
  map (fun c => if N.eqb c 39 then 34%N else c) (js s).

(** [s.length] *)
Definition str_length (s : jsstring) : Z := Z.of_nat (length s).

(** [s.slice(b, e)] for integer arguments: a negative index counts from the
    end, both are clamped to the string, and an empty range gives the empty string. *)
Definition slice (s : jsstring) (b e : Z) : jsstring :=
  let len := str_length s in
  let from := if (b <? 0)%Z then Z.max (len + b) 0 else Z.min b len in
  let to := if (e <? 0)%Z then Z.max (len + e) 0 else Z.min e len in
  firstn (Z.to_nat (to - from)) (skipn (Z.to_nat from) s).

Definition str_eqb (a b : jsstring) : bool :=
  if list_eq_dec N.eq_dec a b then true else false.

(** [s.startsWith(p)] and [s.endsWith(p)] *)
Fixpoint startsWith (s p : jsstring) {struct p} : bool :=
  match p, s with
  | [], _ => true
  | _ :: _, [] => false
  | x :: p', y :: s' => N.eqb x y && startsWith s' p'
  end.

Definition endsWith (s p : jsstring) : bool := startsWith (rev s) (rev p).

(** [s.includes(p)] *)
Fixpoint includes (s p : jsstring) : bool :=
  startsWith s p || match s with [] => false | _ :: r => includes r p end.

(** White space as [String.prototype.trim] sees it: the WhiteSpace and
    LineTerminator code points of ECMAScript, all in the basic plane. *)
Definition is_js_space (c : code_unit) : bool :=
  ((9 <=? c) && (c <=? 13) || (c =? 32) || (c =? 160) || (c =? 5760)
   || (8192 <=? c) && (c <=? 8202) || (c =? 8232) || (c =? 8233)
   || (c =? 8239) || (c =? 8287) || (c =? 12288) || (c =? 65279))%N.

Fixpoint trimStart (s : jsstring) : jsstring :=
  match s with
  | c :: r => if is_js_space c then trimStart r else s
  | [] => []
  end.

Fixpoint trimEnd (s : jsstring) : jsstring :=
  match s with
  | c :: r =>
      match trimEnd r with
      | [] => if is_js_space c then [] else [c]
      | r' => c :: r'
      end
  | [] => []
  end.

(** [s.trim()] *)
Definition trim (s : jsstring) : jsstring := trimEnd (trimStart s).

(** [xs.join(sep)] on an array of strings *)
Fixpoint join (sep : jsstring) (xs : list jsstring) : jsstring :=
  match xs with
  | [] => []
  | [x] => x
  | x :: r => x ++ sep ++ join sep r
  end.

(** ** The chunking step of [processPdf] (controller.js 184-188)

    [for (let i = 0; i < text.length; i += CHUNK_SIZE)
       chunks.push(text.slice(i, i + CHUNK_SIZE));]
    The loop variable grows by [CHUNK_SIZE] each round, so [text.length] rounds
    of fuel are never used up ([chunk_loop_fuel]). *)

Definition CHUNK_SIZE : Z := 24000.

Fixpoint chunk_loop (fuel : nat) (text : jsstring) (i : Z) (chunks : list jsstring)
  : list jsstring :=
  match fuel with
  | O => chunks
  | S fuel' =>
      if (i <? str_length text)%Z
      then chunk_loop fuel' text (i + CHUNK_SIZE)
             (chunks ++ [slice text i (i + CHUNK_SIZE)])
      else chunks
  end.

Definition chunkText (text : jsstring) : list jsstring :=
  chunk_loop (length text) text 0 [].

(** The ChunkPlan of the specification: the number of slices of a text and
    the character range of the [k]-th one. *)
Definition chunk_count (text : jsstring) : nat :=
  Z.to_nat ((str_length text + CHUNK_SIZE - 1) / CHUNK_SIZE).

Definition chunk_at (text : jsstring) (k : nat) : jsstring :=
  slice text (Z.of_nat k * CHUNK_SIZE) (Z.of_nat k * CHUNK_SIZE + CHUNK_SIZE).

(** ** The length cap of [processPdf] (controller.js 241-242) *)

Definition capSummary (finalSummary : jsstring) : jsstring :=
  if (4000 <? str_length finalSummary)%Z
  then slice finalSummary 0 3997 ++ js "..."
  else finalSummary.

(** ** Completions of JavaScript evaluations

    An evaluation returns a value or throws; what is thrown is an [Error]
    object, of which the controller reads the message and, through
    [String(err)], the name. *)

Record JsError := { err_name : jsstring; err_message : jsstring }.

Inductive Completion (A : Type) : Type :=
| Normal (a : A)
| Throw (e : JsError).
Arguments Normal {A} a.
Arguments Throw {A} e.

(** [try { c } catch { h }] *)
Definition try_catch {A} (c : Completion A) (h : JsError -> Completion A)
  : Completion A :=
  match c with
  | Normal a => Normal a
  | Throw e => h e
  end.

(** What [JSON.parse] throws; the message is the engine's and the controller
    never reads it. *)
Definition SyntaxError : JsError :=
  {| err_name := js "SyntaxError"; err_message := js "Unexpected token in JSON" |}.

(** What calling [e.trim()] throws when [e.trim] is no function, with the
    message V8 gives it. *)
Definition TypeError_trim (e : string) : JsError :=
  {| err_name := js "TypeError";
     err_message := js e ++ js ".trim is not a function" |}.

(** ** JavaScript values *)

(** A number by its exact decimal value [(-1)^neg * mant * 10^exp10], which is
    what a JSON text denotes before it is rounded to a double, or [NaN]. *)
Inductive JsNumber :=
| Dec (neg : bool) (mant : N) (exp10 : Z)
| NaN.

(** A number is falsy when it is [NaN] or rounds to zero as a double: to the
    nearest, ties to even, every value up to [2^-1075] becomes [0]. *)
Definition number_truthy (n : JsNumber) : bool :=
  match n with
  | NaN => false
  | Dec _ m e =>
      if (0 <=? e)%Z then (0 <? m)%N
      else (10 ^ Z.to_N (- e) <? m * 2 ^ 1075)%N
  end.

(** The values [JSON.parse] returns. *)
Inductive Json :=
| JNull
| JBool (b : bool)
| JNum (n : JsNumber)
| JStr (s : jsstring)
| JArr (items : list Json)
| JObj (members : list (jsstring * Json)).

(** The values a model call or its [text()] may return: plain data, and
    functions of no argument, given by what a call of them does. *)
Inductive JsVal :=
| VUndefined
| VNull
| VBool (b : bool)
| VNum (n : JsNumber)
| VStr (s : jsstring)
| VArr (items : list JsVal)
| VObj (props : list (jsstring * JsVal))
| VFun (call : Completion JsVal).

Inductive JsType :=
| TyUndefined | TyObject | TyBoolean | TyNumber | TyString | TyFunction.

Definition JsType_eqb (a b : JsType) : bool :=
  match a, b with
  | TyUndefined, TyUndefined | TyObject, TyObject | TyBoolean, TyBoolean
  | TyNumber, TyNumber | TyString, TyString | TyFunction, TyFunction => true
  | _, _ => false
  end.

Definition is_empty (s : jsstring) : bool :=
  match s with [] => true | _ :: _ => false end.

(** The property of a name among the members of an object. An object holds
    a name once ([JSON.parse] builds it with [define_property] below); in a
    list that holds a name twice the later member counts. *)
Fixpoint lookup {A} (k : jsstring) (ps : list (jsstring * A)) : option A :=
  match ps with
  | [] => None
  | (k', v) :: r =>
      match lookup k r with
      | Some x => Some x
      | None => if str_eqb k' k then Some v else None
      end
  end.

(** [typeof j], [!!j] and [j.k] on parsed JSON; [None] is [undefined]. The
    controller reads a property only of a value whose [typeof] is "object"
    and which is truthy (an object or an array), and only the names [title],
    [description] and [summary], which no array and no prototype defines. *)
Definition json_typeof (j : Json) : JsType :=
  match j with
  | JNull | JArr _ | JObj _ => TyObject
  | JBool _ => TyBoolean
  | JNum _ => TyNumber
  | JStr _ => TyString
  end.

Definition json_truthy (j : Json) : bool :=
  match j with
  | JNull => false
  | JBool b => b
  | JNum n => number_truthy n
  | JStr s => negb (is_empty s)
  | JArr _ | JObj _ => true
  end.

Definition json_get (j : Json) (k : jsstring) : option Json :=
  match j with
  | JObj ms => lookup k ms
  | _ => None
  end.

(** [typeof v] and [!!v] on any value. *)
Definition typeof (v : JsVal) : JsType :=
  match v with
  | VUndefined => TyUndefined
  | VNull | VArr _ | VObj _ => TyObject
  | VBool _ => TyBoolean
  | VNum _ => TyNumber
  | VStr _ => TyString
  | VFun _ => TyFunction
  end.

Definition truthy (v : JsVal) : bool :=
  match v with
  | VUndefined | VNull => false
  | VBool b => b
  | VNum n => number_truthy n
  | VStr s => negb (is_empty s)
  | VArr _ | VObj _ | VFun _ => true
  end.

(** [v.k] for a [v] that is neither [null] nor [undefined], and [v?.k] for
    any [v]. The names read are [text], [candidates], [content], [parts] and
    [output_text]: own properties of an object, and [undefined] on a string,
    an array or any other value. *)
Definition get (v : JsVal) (k : jsstring) : JsVal :=
  match v with
  | VObj ps => match lookup k ps with Some x => x | None => VUndefined end
  | _ => VUndefined
  end.

Definition opt_get (v : JsVal) (k : jsstring) : JsVal :=
  match v with
  | VUndefined | VNull => VUndefined
  | _ => get v k
  end.

(** [v?.[0]]: the first element of an array, the first code unit of a string,
    the property ["0"] of an object. *)
Definition opt_first (v : JsVal) : JsVal :=
  match v with
  | VArr (x :: _) => x
  | VStr (c :: _) => VStr [c]
  | VObj ps => match lookup (js "0") ps with Some x => x | None => VUndefined end
  | _ => VUndefined
  end.

(** ** [JSON.parse]

    The JSON grammar of ECMA-404, which [JSON.parse] accepts and nothing
    else: first the text is cut into tokens, one code unit at a time, then
    the tokens are read with a stack of the arrays and objects still open. *)

Inductive token :=
| TLBrace | TRBrace | TLBracket | TRBracket | TColon | TComma
| TString (s : jsstring)
| TNumber (n : JsNumber)
| TTrue | TFalse | TNull.

(** Where the lexer stands inside a number. *)
Inductive num_state :=
| NSign      (* after "-": a digit must follow *)
| NZero      (* after a leading "0" *)
| NInt       (* in the digits of an integer part that starts with 1-9 *)
| NPoint     (* after ".": a digit must follow *)
| NFrac      (* in the digits of the fraction *)
| NExp       (* after "e" or "E": a sign or a digit must follow *)
| NExpSign   (* after the sign of the exponent: a digit must follow *)
| NExpDigits (* in the digits of the exponent *).

(** The digits read so far: sign, all digits of integer part and fraction as
    one number, how many of them are fraction digits, and the exponent. *)
Record num_acc := {
  n_neg : bool;
  n_mant : N;
  n_scale : Z;
  n_eneg : bool;
  n_exp : N
}.

Definition num_value (a : num_acc) : JsNumber :=
  Dec (n_neg a) (n_mant a)
      ((if n_eneg a then - Z.of_N (n_exp a) else Z.of_N (n_exp a)) - n_scale a).

Definition num_complete (st : num_state) : bool :=
  match st with
  | NZero | NInt | NFrac | NExpDigits => true
  | NSign | NPoint | NExp | NExpSign => false
  end.

Definition is_digit (c : code_unit) : bool := ((48 <=? c) && (c <=? 57))%N.

Definition add_digit (a : num_acc) (c : code_unit) (frac : bool) : num_acc :=
  {| n_neg := n_neg a;
     n_mant := n_mant a * 10 + (c - 48);
     n_scale := if frac then (n_scale a + 1)%Z else n_scale a;
     n_eneg := n_eneg a;
     n_exp := n_exp a |}.

Definition add_exp_digit (a : num_acc) (c : code_unit) : num_acc :=
  {| n_neg := n_neg a; n_mant := n_mant a; n_scale := n_scale a;
     n_eneg := n_eneg a; n_exp := n_exp a * 10 + (c - 48) |}.

Definition set_exp_sign (a : num_acc) (neg : bool) : num_acc :=
  {| n_neg := n_neg a; n_mant := n_mant a; n_scale := n_scale a;
     n_eneg := neg; n_exp := n_exp a |}.

Definition is_e (c : code_unit) : bool := ((c =? 101) || (c =? 69))%N.

(** The number goes on with [c], or [None]: the number ends before [c]
    (or is broken off, when it is not complete). *)
Definition num_step (st : num_state) (a : num_acc) (c : code_unit)
  : option (num_state * num_acc) :=
  match st with
  | NSign =>
      if (c =? 48)%N then Some (NZero, a)
      else if is_digit c then Some (NInt, add_digit a c false)
      else None
  | NZero =>
      if (c =? 46)%N then Some (NPoint, a)
      else if is_e c then Some (NExp, a)
      else None
  | NInt =>
      if is_digit c then Some (NInt, add_digit a c false)
      else if (c =? 46)%N then Some (NPoint, a)
      else if is_e c then Some (NExp, a)
      else None
  | NPoint =>
      if is_digit c then Some (NFrac, add_digit a c true) else None
  | NFrac =>
      if is_digit c then Some (NFrac, add_digit a c true)
      else if is_e c then Some (NExp, a)
      else None
  | NExp =>
      if (c =? 43)%N then Some (NExpSign, a)
      else if (c =? 45)%N then Some (NExpSign, set_exp_sign a true)
      else if is_digit c then Some (NExpDigits, add_exp_digit a c)
      else None
  | NExpSign =>
      if is_digit c then Some (NExpDigits, add_exp_digit a c) else None
  | NExpDigits =>
      if is_digit c then Some (NExpDigits, add_exp_digit a c) else None
  end.

Inductive lex_state :=
| LStart                                   (* between tokens *)
| LString (acc : jsstring)                 (* inside a string *)
| LEscape (acc : jsstring)                 (* after a backslash *)
| LUnicode (acc : jsstring) (todo : nat) (code : N)
                                           (* in the hex digits of \uXXXX *)
| LNumber (st : num_state) (a : num_acc)   (* inside a number *)
| LWord (rest : jsstring) (t : token).     (* in true, false or null *)

(** JSON white space: tab, line feed, carriage return, space. *)
Definition is_json_space (c : code_unit) : bool :=
  ((c =? 9) || (c =? 10) || (c =? 13) || (c =? 32))%N.

Definition num_zero (neg : bool) : num_acc :=
  {| n_neg := neg; n_mant := 0; n_scale := 0; n_eneg := false; n_exp := 0 |}.

(** A code unit read between tokens. *)
Definition lex_start (c : code_unit) : option (lex_state * list token) :=
  if is_json_space c then Some (LStart, [])
  else if (c =? 123)%N then Some (LStart, [TLBrace])
  else if (c =? 125)%N then Some (LStart, [TRBrace])
  else if (c =? 91)%N then Some (LStart, [TLBracket])
  else if (c =? 93)%N then Some (LStart, [TRBracket])
  else if (c =? 58)%N then Some (LStart, [TColon])
  else if (c =? 44)%N then Some (LStart, [TComma])
  else if (c =? 34)%N then Some (LString [], [])
  else if (c =? 45)%N then Some (LNumber NSign (num_zero true), [])
  else if (c =? 48)%N then Some (LNumber NZero (num_zero false), [])
  else if is_digit c then Some (LNumber NInt (add_digit (num_zero false) c false), [])
  else if (c =? 116)%N then Some (LWord (js "rue") TTrue, [])
  else if (c =? 102)%N then Some (LWord (js "alse") TFalse, [])
  else if (c =? 110)%N then Some (LWord (js "ull") TNull, [])
  else None.

(** The character an escape stands for. *)
Definition escape_char (c : code_unit) : option code_unit :=
  if (c =? 34)%N then Some 34%N          (* quote *)
  else if (c =? 92)%N then Some 92%N     (* backslash *)
  else if (c =? 47)%N then Some 47%N     (* slash *)
  else if (c =? 98)%N then Some 8%N      (* backspace *)
  else if (c =? 102)%N then Some 12%N    (* form feed *)
  else if (c =? 110)%N then Some 10%N    (* line feed *)
  else if (c =? 114)%N then Some 13%N    (* carriage return *)
  else if (c =? 116)%N then Some 9%N     (* tab *)
  else None.

Definition hex_value (c : code_unit) : option N :=
  if is_digit c then Some (c - 48)%N
  else if ((97 <=? c) && (c <=? 102))%N then Some (c - 87)%N
  else if ((65 <=? c) && (c <=? 70))%N then Some (c - 55)%N
  else None.

(** One code unit: the next state and the tokens that end with it. *)
Definition lex_step (st : lex_state) (c : code_unit)
  : option (lex_state * list token) :=
  match st with
  | LStart => lex_start c
  | LString acc =>
      if (c =? 34)%N then Some (LStart, [TString acc])
      else if (c =? 92)%N then Some (LEscape acc, [])
      else if (c <? 32)%N then None
      else Some (LString (acc ++ [c]), [])
  | LEscape acc =>
      if (c =? 117)%N then Some (LUnicode acc 4 0%N, [])
      else match escape_char c with
           | Some x => Some (LString (acc ++ [x]), [])
           | None => None
           end
  | LUnicode acc todo code =>
      match hex_value c with
      | Some h =>
          match todo with
          | S (S k) => Some (LUnicode acc (S k) (code * 16 + h), [])
          | _ => Some (LString (acc ++ [code * 16 + h]%N), [])
          end
      | None => None
      end
  | LNumber ns a =>
      match num_step ns a c with
      | Some (ns', a') => Some (LNumber ns' a', [])
      | None =>
          if num_complete ns then
            match lex_start c with
            | Some (st', toks) => Some (st', TNumber (num_value a) :: toks)
            | None => None
            end
          else None
      end
  | LWord rest t =>
      match rest with
      | x :: rest' =>
          if (c =? x)%N
          then Some (match rest' with [] => (LStart, [t]) | _ => (LWord rest' t, []) end)
          else None
      | [] => None
      end
  end.

(** The states the lexer gets into: what is left of a word ([true], [false],
    [null]) is lower-case letters. *)
Definition is_lower (c : code_unit) : bool := ((97 <=? c) && (c <=? 122))%N.

Definition lex_wf (st : lex_state) : Prop :=
  match st with
  | LWord rest _ => forallb is_lower rest = true
  | _ => True
  end.

(** The end of the text. *)
Definition lex_end (st : lex_state) : option (list token) :=
  match st with
  | LStart => Some []
  | LNumber ns a => if num_complete ns then Some [TNumber (num_value a)] else None
  | _ => None
  end.

Fixpoint lex_from (st : lex_state) (s : jsstring) : option (list token) :=
  match s with
  | [] => lex_end st
  | c :: r =>
      match lex_step st c with
      | Some (st', toks) =>
          match lex_from st' r with
          | Some more => Some (toks ++ more)
          | None => None
          end
      | None => None
      end
  end.

Definition lex (s : jsstring) : option (list token) := lex_from LStart s.

(** The members of an object are its properties in the order in which they
    are enumerated, which is the order [JSON.stringify] writes them in:
    first the names that are array indices (the decimal, without leading
    zeros, of an integer from 0 to 2^32 - 2) by their value, then the other
    names in the order of their creation. *)
Fixpoint digits_value (s : jsstring) (acc : N) : option N :=
  match s with
  | [] => Some acc
  | c :: r => if is_digit c then digits_value r (acc * 10 + (c - 48))%N else None
  end.

Definition array_index (k : jsstring) : option N :=
  match k with
  | [] => None
  | c :: r =>
      if (c =? 48)%N && negb (is_empty r) then None
      else match digits_value k 0%N with
           | Some n => if (n <? 4294967295)%N then Some n else None
           | None => None
           end
  end.

Fixpoint has_name {A} (k : jsstring) (members : list (jsstring * A)) : bool :=
  match members with
  | [] => false
  | (k', _) :: r => str_eqb k' k || has_name k r
  end.

(** The value of the property [k] is replaced where it stands. *)
Fixpoint set_value {A} (k : jsstring) (v : A) (members : list (jsstring * A))
  : list (jsstring * A) :=
  match members with
  | [] => []
  | (k', v') :: r =>
      if str_eqb k' k then (k', v) :: r else (k', v') :: set_value k v r
  end.

(** A new property whose name is the array index [n] goes before the first
    property that is no array index or a greater one. *)
Fixpoint insert_index {A} (n : N) (k : jsstring) (v : A)
  (members : list (jsstring * A)) : list (jsstring * A) :=
  match members with
  | [] => [(k, v)]
  | (k', v') :: r =>
      match array_index k' with
      | Some m => if (m <? n)%N then (k', v') :: insert_index n k v r
                  else (k, v) :: members
      | None => (k, v) :: members
      end
  end.

(** [CreateDataProperty(object, k, v)], by which [JSON.parse] sets each
    member of an object text in turn: a name that is there already keeps its
    place and gets the new value. *)
Definition define_property {A} (k : jsstring) (v : A)
  (members : list (jsstring * A)) : list (jsstring * A) :=
  if has_name k members then set_value k v members
  else match array_index k with
       | Some n => insert_index n k v members
       | None => members ++ [(k, v)]
       end.

(** An array or object that is still open while one of its values is read. *)
Inductive frame :=
| FArray (done : list Json)
| FObject (done : list (jsstring * Json)) (key : jsstring).

Inductive parse_state :=
| PValue (stack : list frame)                 (* a value must follow *)
| PArrayStart (stack : list frame)            (* after "[": a value or "]" *)
| PObjectStart (stack : list frame)           (* after "{": a key or "}" *)
| PKey (stack : list frame) (done : list (jsstring * Json))
                                              (* after "," in an object: a key *)
| PColon (stack : list frame) (done : list (jsstring * Json)) (key : jsstring)
                                              (* after a key: ":" *)
| PAfter (stack : list frame) (v : Json).     (* a value has been read *)

(** The token that starts a value. *)
Definition parse_value (stack : list frame) (t : token) : option parse_state :=
  match t with
  | TString s => Some (PAfter stack (JStr s))
  | TNumber n => Some (PAfter stack (JNum n))
  | TTrue => Some (PAfter stack (JBool true))
  | TFalse => Some (PAfter stack (JBool false))
  | TNull => Some (PAfter stack JNull)
  | TLBracket => Some (PArrayStart stack)
  | TLBrace => Some (PObjectStart stack)
  | _ => None
  end.

Definition parse_step (st : parse_state) (t : token) : option parse_state :=
  match st with
  | PValue stack => parse_value stack t
  | PArrayStart stack =>
      match t with
      | TRBracket => Some (PAfter stack (JArr []))
      | _ => parse_value (FArray [] :: stack) t
      end
  | PObjectStart stack =>
      match t with
      | TRBrace => Some (PAfter stack (JObj []))
      | TString k => Some (PColon stack [] k)
      | _ => None
      end
  | PKey stack done =>
      match t with
      | TString k => Some (PColon stack done k)
      | _ => None
      end
  | PColon stack done k =>
      match t with
      | TColon => Some (PValue (FObject done k :: stack))
      | _ => None
      end
  | PAfter (FArray done :: stack) v =>
      match t with
      | TComma => Some (PValue (FArray (done ++ [v]) :: stack))
      | TRBracket => Some (PAfter stack (JArr (done ++ [v])))
      | _ => None
      end
  | PAfter (FObject done k :: stack) v =>
      match t with
      | TComma => Some (PKey stack (define_property k v done))
      | TRBrace => Some (PAfter stack (JObj (define_property k v done)))
      | _ => None
      end
  | PAfter [] _ => None
  end.

Fixpoint parse_from (st : parse_state) (ts : list token) : option Json :=
  match ts with
  | [] => match st with PAfter [] v => Some v | _ => None end
  | t :: r =>
      match parse_step st t with
      | Some st' => parse_from st' r
      | None => None
      end
  end.

Definition parse_tokens (ts : list token) : option Json := parse_from (PValue []) ts.

(** [JSON.parse(s)]: the value, or a thrown SyntaxError. *)
Definition JSON_parse (s : jsstring) : Completion Json :=
  match lex s with
  | Some ts =>
      match parse_tokens ts with
      | Some v => Normal v
      | None => Throw SyntaxError
      end
  | None => Throw SyntaxError
  end.

(** A parse whose outermost value is an object: the bottom frame of the
    stack is an object's, or the stack is empty and the object is being
    opened, or has been read. *)
Fixpoint object_at_bottom (stack : list frame) : bool :=
  match stack with
  | [] => false
  | f :: [] => match f with FObject _ _ => true | FArray _ => false end
  | _ :: r => object_at_bottom r
  end.

Definition reads_object (st : parse_state) : Prop :=
  match st with
  | PValue stack | PArrayStart stack => object_at_bottom stack = true
  | PObjectStart stack | PKey stack _ | PColon stack _ _ =>
      stack = [] \/ object_at_bottom stack = true
  | PAfter stack v =>
      object_at_bottom stack = true \/ (stack = [] /\ exists members, v = JObj members)
  end.

(** ** [extractJsonFromString] (controller.js 40-59) *)

(** A global regular expression that is a choice of literal strings, as
    [s.replace(re, "")] applies it: from left to right every match is
    dropped, and at one place the first alternative that matches is the match.
    [skip] counts the code units of the current match that are still to drop. *)
Fixpoint first_match (pats : list jsstring) (s : jsstring) : option nat :=
  match pats with
  | [] => None
  | p :: pats' => if startsWith s p then Some (length p) else first_match pats' s
  end.

Fixpoint remove_all (pats : list jsstring) (skip : nat) (s : jsstring) : jsstring :=
  match s with
  | [] => []
  | c :: r =>
      match skip with
      | S k => remove_all pats k r
      | O =>
          match first_match pats s with
          | Some (S k) => remove_all pats k r
          | _ => c :: remove_all pats 0 r
          end
      end
  end.

Definition fence : jsstring := [96; 96; 96]%N.

(** [/```(?:json)?/g]: the optional group is greedy, so a fence followed by
    "json" is matched with it. *)
Definition tagged_fence_re : list jsstring := [fence ++ js "json"; fence].
(** [/```/g] *)
Definition fence_re : list jsstring := [fence].

(** The longest prefix of [s] that ends with [c]. *)
Fixpoint through_last (c : code_unit) (s : jsstring) : option jsstring :=
  match s with
  | [] => None
  | x :: r =>
      match through_last c r with
      | Some p => Some (x :: p)
      | None => if (x =? c)%N then Some [x] else None
      end
  end.

(** [s.match(/\{[\s\S]*\}/)]: [[\s\S]] is any code unit and the star is
    greedy, so the match goes from the first "{" to the last "}" after it;
    [None] is [null], no "}" after the first "{". *)
Fixpoint match_braces (s : jsstring) : option jsstring :=
  match s with
  | [] => None
  | x :: r =>
      if (x =? 123)%N
      then match through_last 125%N r with
           | Some p => Some (x :: p)
           | None => None
           end
      else match_braces r
  end.

Definition clean (s : jsstring) : jsstring :=
  trim (remove_all fence_re 0 (remove_all tagged_fence_re 0 s)).

Definition extractJsonFromString (s : JsVal) : Completion Json :=
  if negb (truthy s) || negb (JsType_eqb (typeof s) TyString) then Normal JNull
  else
    match s with
    | VStr str =>
        let cleaned := clean str in
        try_catch (JSON_parse cleaned) (fun _ =>
          match match_braces cleaned with
          | None => Normal JNull
          | Some m => try_catch (JSON_parse m) (fun _ => Normal JNull)
          end)
    | _ => Normal JNull
    end.

(** ** Requests, responses and the outside world

    A handler is modelled by the response it sends and the calls it makes
    to pdf-parse and to the model. What it writes with [console.error] and
    the construction of the client object before the [try], which calls
    nothing, are left out. *)

(** The uploaded file as multer hands it over ([req.file]). *)
Definition Buffer := list N.

Record File := {
  buffer : Buffer;
  mimetype : option jsstring;
  originalname : option jsstring;
  size : Z
}.

Record Request := { file : option File }.

(** What [res.status(n).json(body)] sends; [res.json(body)] sends it with
    status 200. A field of the body is a string of the controller, the raw
    text of the model, or the parsed JSON. *)
Inductive BodyVal :=
| BStr (s : jsstring)
| BRaw (v : JsVal)
| BJson (j : Json).

Record HttpResponse := { status : Z; body : list (string * BodyVal) }.

Definition respond (code : Z) (fields : list (string * BodyVal)) : HttpResponse :=
  {| status := code; body := fields |}.

(** The content parts of a model request: a prompt string, the image as
    inline data, and [{ text: ... }]. *)
Inductive Part :=
| PString (s : jsstring)
| PInlineData (data : jsstring) (mimeType : jsstring)
| PText (text : jsstring).

Record ModelInput := { model : jsstring; contents : list Part }.

(** What [pdf(buffer)] resolves to: an object whose [text] may be missing. *)
Record PdfData := { pdf_text : option jsstring }.

(** The calls that leave the process, in the order they are made. *)
Inductive Event :=
| EvPdf (b : Buffer)
| EvGenerate (input : ModelInput).

Definition Log := list Event.

(** A step of a request handler: it may call out, which is logged, and it
    returns or throws. *)
Definition M (A : Type) : Type := Log -> Completion A * Log.

Definition ret {A} (a : A) : M A := fun log => (Normal a, log).

Definition bind {A B} (m : M A) (f : A -> M B) : M B :=
  fun log =>
    match m log with
    | (Normal a, log') => f a log'
    | (Throw e, log') => (Throw e, log')
    end.

Definition lift {A} (c : Completion A) : M A := fun log => (c, log).

(** [try { m } catch (err) { h err }] *)
Definition catch {A} (m : M A) (h : JsError -> M A) : M A :=
  fun log =>
    match m log with
    | (Normal a, log') => (Normal a, log')
    | (Throw e, log') => h e log'
    end.

Notation "x <- m ;; k" := (bind m (fun x => k))
  (at level 61, m at next level, right associativity).

(** A step only ever adds to the log. *)
Definition appends {A} (m : M A) : Prop :=
  forall log, exists more, snd (m log) = log ++ more.

Definition MODEL : jsstring := js "gemini-2.5-flash".

Definition image_prompt : jsstring := jsq
"You are given an image. Respond ONLY with a single valid JSON object (no code fences, no explanation).
Schema:
{
  'title': '<a concise inage title, 3-7 words>',
  'description': '<a one-paragraph description, 2-4 sentences>'
}
Return only the JSON object.".

Definition pdf_chunk_prompt : jsstring := jsq
"You are given an excerpt of text from a PDF. Respond ONLY with a single valid JSON object (no code fences, no explanation).
Schema:
{
  'summary': '<a concise summary of the excerpt, 3-6 sentences>'
}
Return only the JSON object.".

Definition pdf_combine_prompt : jsstring := jsq
"You are given several short summaries. Combine them into ONE concise JSON object (no code fences, no explanation) that preserves the core ideas.
Schema:
{
  'summary': '<a single consolidated summary, 4-8 sentences>'
}
Return only the JSON object.".

(** [err?.message || String(err)] for an [Error] object: the message, and
    when that is empty the name. *)
Definition error_details (e : JsError) : jsstring :=
  if is_empty (err_message e) then err_name e else err_message e.

(** [v.trim()] for a truthy parsed JSON value [v]: a string is trimmed, and
    on anything else [trim] is no function (JSON holds none). *)
Definition call_trim (expr : string) (v : Json) : Completion jsstring :=
  match v with
  | JStr s => Normal (trim s)
  | _ => Throw (TypeError_trim expr)
  end.

(** The value of [parsed.summary] when the test
    [!parsed || typeof parsed !== "object" || !parsed.summary] lets it
    through, [None] when the test rejects [parsed]. *)
Definition checked_summary (parsed : Json) : option Json :=
  if negb (json_truthy parsed) || negb (JsType_eqb (json_typeof parsed) TyObject)
  then None
  else
    match json_get parsed (js "summary") with
    | Some v => if json_truthy v then Some v else None
    | None => None
    end.

(** [parsed.k && typeof parsed.k === "string" ? parsed.k.trim() : null] *)
Definition trimmed_field (parsed : Json) (k : string) : option jsstring :=
  match json_get parsed (js k) with
  | Some (JStr s) => if is_empty s then None else Some (trim s)
  | _ => None
  end.

(** [!x] for [x] a string or [null] *)
Definition is_blank (x : option jsstring) : bool :=
  match x with
  | Some s => is_empty s
  | None => true
  end.

Definition MAX_BYTES : Z := 10 * 1024 * 1024.

Definition chunkInput (chunk : jsstring) : ModelInput :=
  {| model := MODEL; contents := [PString pdf_chunk_prompt; PText chunk] |}.

Definition combineInput (finalSummary : jsstring) : ModelInput :=
  {| model := MODEL; contents := [PString pdf_combine_prompt; PText finalSummary] |}.

Definition chunk_failure (textOut : JsVal) : HttpResponse :=
  respond 500 [("error", BStr (js "Failed to parse Gemini summary for a PDF chunk."));
               ("geminiRawResponse", BRaw textOut)].

Definition combine_failure (combineText : JsVal) : HttpResponse :=
  respond 500 [("error", BStr (js "Failed to parse combined summary from Gemini."));
               ("geminiRawResponse", BRaw combineText)].

Definition no_text_failure : HttpResponse :=
  respond 422 [("error", BStr (js
    "No selectable text found in PDF. If the PDF is scanned, Kindly upload a text-based PDF."))].

Definition not_a_pdf_failure : HttpResponse :=
  respond 400 [("error", BStr (js "Uploaded file is not a PDF."))].

Definition pdf_too_large_failure : HttpResponse :=
  respond 413 [("error", BStr (js "PDF exceeds maximum size of 10MB."))].

Definition summary_response (finalSummary : jsstring) : HttpResponse :=
  respond 200 [("summary", BStr finalSummary)].

Definition image_parse_failure (textOut : JsVal) : HttpResponse :=
  respond 500 [("error", BStr (js "Failed to parse Gemini's JSON response."));
               ("geminiRawResponse", BRaw textOut)].

Definition invalid_keys_failure (parsed : Json) : HttpResponse :=
  respond 500 [("error", BStr (js
                 "Gemini returned JSON but required keys are missing or invalid."));
               ("geminiJson", BJson parsed)].

Definition image_response (title description : jsstring) : HttpResponse :=
  respond 200 [("title", BStr title); ("description", BStr description)].

(** [data?.text || ""] *)
Definition text_or_empty (data : option PdfData) : jsstring :=
  match data with
  | Some d => match pdf_text d with Some t => t | None => [] end
  | None => []
  end.

Definition option_str_eqb (a : option jsstring) (b : jsstring) : bool :=
  match a with
  | Some x => str_eqb x b
  | None => false
  end.

Section Runtime.

(** The collaborators the controller calls and does not define:
    [JSON.stringify], [String.prototype.toLowerCase],
    [buffer.toString("base64")], pdf-parse, and the model, whose answer may
    depend on every call made before. *)
Variable JSON_stringify : JsVal -> Completion JsVal.
Variable toLowerCase : jsstring -> jsstring.
Variable base64 : Buffer -> jsstring.
Variable pdf : Buffer -> Completion (option PdfData).
Variable generateContent : Log -> ModelInput -> Completion JsVal.

(** [await pdf(buffer)] and [await ai.models.generateContent(input)] *)
Definition await_pdf (b : Buffer) : M (option PdfData) :=
  fun log => (pdf b, log ++ [EvPdf b]).

Definition await_generateContent (input : ModelInput) : M JsVal :=
  fun log => (generateContent log input, log ++ [EvGenerate input]).

(** controller.js 8-15 *)
Definition bufferToGenerativePart (b : Buffer) (mimeType : jsstring) : Part :=
  PInlineData (base64 b) mimeType.

(** controller.js 61-71 *)
Definition promiseTextFromResponse (response : JsVal) : Completion JsVal :=
  if negb (truthy response) then Normal VNull
  else
    match get response (js "text") with
    | VFun call => call
    | _ =>
        let content := opt_get (opt_first (opt_get response (js "candidates"))) (js "content") in
        let partText := opt_get (opt_first (opt_get content (js "parts"))) (js "text") in
        if truthy partText then Normal partText
        else
          let contentText := opt_get content (js "text") in
          if truthy contentText then Normal contentText
          else
            let output := opt_get response (js "output_text") in
            if truthy output then Normal output
            else
              match response with
              | VStr _ => Normal response
              | _ => JSON_stringify response
              end
    end.

Definition imageInput (b : Buffer) (mime : jsstring) : ModelInput :=
  {| model := MODEL;
     contents := [PString image_prompt; bufferToGenerativePart b mime] |}.

(** controller.js 76-138, the body of the [try] *)
Definition processImage_try (req : Request) : M HttpResponse :=
  match file req with
  | None => ret (respond 400 [("error", BStr (js "No image file provided."))])
  | Some f =>
      match mimetype f with
      | None => ret (respond 400 [("error", BStr (js "Uploaded file is not an image."))])
      | Some mime =>
          if negb (startsWith mime (js "image/"))
          then ret (respond 400 [("error", BStr (js "Uploaded file is not an image."))])
          else if (size f >? MAX_BYTES)%Z
          then ret (respond 413 [("error", BStr (js "Image exceeds maximum size of 10MB."))])
          else
            response <- await_generateContent (imageInput (buffer f) mime) ;;
            textOut <- lift (promiseTextFromResponse response) ;;
            parsed <- lift (extractJsonFromString textOut) ;;
            if negb (json_truthy parsed)
               || negb (JsType_eqb (json_typeof parsed) TyObject)
            then ret (image_parse_failure textOut)
            else
              let title := trimmed_field parsed "title" in
              let description := trimmed_field parsed "description" in
              if is_blank title || is_blank description
              then ret (invalid_keys_failure parsed)
              else
                match title, description with
                | Some t, Some d => ret (image_response t d)
                | _, _ => ret (invalid_keys_failure parsed)
                end
      end
  end.

(** controller.js 73-149 *)
Definition processImage_catch (err : JsError) : M HttpResponse :=
  ret (respond 500 [("error", BStr (js "Failed to analyze image."));
                    ("details", BStr (error_details err))]).

Definition processImage (req : Request) : M HttpResponse :=
  catch (processImage_try req) processImage_catch.

(** The loop over the chunks (controller.js 193-213): [inl] is the response
    of a [return] inside the loop, [inr] the summaries when it runs through. *)
Fixpoint summarizeChunks (chunks : list jsstring) (chunkSummaries : list jsstring)
  : M (HttpResponse + list jsstring) :=
  match chunks with
  | [] => ret (inr chunkSummaries)
  | chunk :: rest =>
      response <- await_generateContent (chunkInput chunk) ;;
      textOut <- lift (promiseTextFromResponse response) ;;
      parsed <- lift (extractJsonFromString textOut) ;;
      match checked_summary parsed with
      | None => ret (inl (chunk_failure textOut))
      | Some summary =>
          trimmed <- lift (call_trim "parsed.summary" summary) ;;
          summarizeChunks rest (chunkSummaries ++ [trimmed])
      end
  end.

(** controller.js 215-244: the reduction and the cap *)
Definition combineSummaries (chunkSummaries : list jsstring) : M HttpResponse :=
  let finalSummary := join [10; 10]%N chunkSummaries in
  if (1 <? Z.of_nat (length chunkSummaries))%Z
  then
    combineResp <- await_generateContent (combineInput finalSummary) ;;
    combineText <- lift (promiseTextFromResponse combineResp) ;;
    combineParsed <- lift (extractJsonFromString combineText) ;;
    match checked_summary combineParsed with
    | None => ret (combine_failure combineText)
    | Some summary =>
        trimmed <- lift (call_trim "combineParsed.summary" summary) ;;
        ret (summary_response (capSummary trimmed))
    end
  else ret (summary_response (capSummary finalSummary)).

(** controller.js 183-244: chunk, summarize each chunk, reduce *)
Definition summarizeText (text : jsstring) : M HttpResponse :=
  looped <- summarizeChunks (chunkText text) [] ;;
  match looped with
  | inl response => ret response
  | inr chunkSummaries => combineSummaries chunkSummaries
  end.

(** controller.js 154-244, the body of the [try] *)
Definition processPdf_try (req : Request) : M HttpResponse :=
  match file req with
  | None => ret (respond 400 [("error", BStr (js "No PDF file provided."))])
  | Some f =>
      if negb (option_str_eqb (mimetype f) (js "application/pdf")
               || match originalname f with
                  | Some name => endsWith (toLowerCase name) (js ".pdf")
                  | None => false
                  end)
      then ret not_a_pdf_failure
      else if (size f >? 10 * 1024 * 1024)%Z
      then ret pdf_too_large_failure
      else
        data <- await_pdf (buffer f) ;;
        let text := trim (text_or_empty data) in
        if is_empty text then ret no_text_failure
        else summarizeText text
  end.

(** controller.js 245-251 *)
Definition processPdf_catch (err : JsError) : M HttpResponse :=
  ret (respond 500 [("error", BStr (js "Failed to process PDF."));
                    ("details", BStr (error_details err))]).

(** controller.js 151-252 *)
Definition processPdf (req : Request) : M HttpResponse :=
  catch (processPdf_try req) processPdf_catch.

(** From [log] on the model answers the calls for [chunks], one after the
    other, each with a text whose recovered JSON holds a non-empty string
    under [summary]; [summaries] are these strings, trimmed. *)
Inductive chunks_summarized : Log -> list jsstring -> list jsstring -> Prop :=
| summarized_nil (log : Log) : chunks_summarized log [] []
| summarized_cons (log : Log) (chunk : jsstring) (rest : list jsstring)
    (response textOut : JsVal) (parsed : Json) (s : jsstring)
    (summaries : list jsstring) :
    generateContent log (chunkInput chunk) = Normal response ->
    promiseTextFromResponse response = Normal textOut ->
    extractJsonFromString textOut = Normal parsed ->
    json_get parsed (js "summary") = Some (JStr s) ->
    s <> [] ->
    chunks_summarized (log ++ [EvGenerate (chunkInput chunk)]) rest summaries ->
    chunks_summarized log (chunk :: rest) (trim s :: summaries).

End Runtime.

(** ** Collaborators for worked examples

    Every example response holds its text on the candidate path, so
    [JSON.stringify] is never reached in them, and every file name in them
    is ASCII. *)

Definition is_ascii (c : code_unit) : bool := (c <? 128)%N.

Definition ascii_lower (c : code_unit) : code_unit :=
  if ((65 <=? c) && (c <=? 90))%N then (c + 32)%N else c.

Definition example_stringify (v : JsVal) : Completion JsVal := Normal VUndefined.

Definition example_toLowerCase (s : jsstring) : jsstring := map ascii_lower s.

Definition example_base64 (b : Buffer) : jsstring := [].

(** pdf-parse finding the text [t] in whatever buffer. *)
Definition example_pdf (t : jsstring) (b : Buffer) : Completion (option PdfData) :=
  Normal (Some {| pdf_text := Some t |}).

Definition is_generate (e : Event) : bool :=
  match e with
  | EvGenerate _ => true
  | EvPdf _ => false
  end.

(** A response that holds [text] where the SDK puts it:
    [{ candidates: [{ content: { parts: [{ text }] } }] }]. *)
Definition example_response (text : jsstring) : JsVal :=
  VObj [(js "candidates",
         VArr [VObj [(js "content",
                      VObj [(js "parts", VArr [VObj [(js "text", VStr text)]])])]])].

(** A model whose [n]-th answer holds the [n]-th of [replies]. *)
Definition example_model (replies : list jsstring) (log : Log) (input : ModelInput)
  : Completion JsVal :=
  match nth_error replies (length (filter is_generate log)) with
  | Some r => Normal (example_response r)
  | None => Normal VUndefined
  end.

Definition example_pdf_file : File :=
  {| buffer := [37; 80; 68; 70]%N;
     mimetype := Some (js "application/pdf");
     originalname := Some (js "report.pdf");
     size := 4 |}.

(** A text of 48001 characters: three chunks, the last of length 1. *)
Definition example_long_text : jsstring := repeat 97%N (Z.to_nat 48001).

Definition example_image_file : File :=
  {| buffer := [137; 80; 78; 71]%N;
     mimetype := Some (js "image/png");
     originalname := Some (js "photo.png");
     size := 4 |}.

Definition example_processImage (replies : list jsstring)
  : Completion HttpResponse * Log :=
  processImage example_stringify example_base64 (example_model replies)
    {| file := Some example_image_file |} [].

Definition example_processPdf (text : jsstring) (replies : list jsstring)
  : Completion HttpResponse * Log :=
  processPdf example_stringify example_toLowerCase (example_pdf text)
    (example_model replies) {| file := Some example_pdf_file |} [].

(** A model whose [n]-th call ends as the [n]-th of [script] says: it
    answers with a response or throws. *)
Definition example_scripted_model (script : list (Completion JsVal)) (log : Log)
  (input : ModelInput) : Completion JsVal :=
  match nth_error script (length (filter is_generate log)) with
  | Some c => c
  | None => Normal VUndefined
  end.

Definition example_error : JsError :=
  {| err_name := js "Error"; err_message := js "503 Service Unavailable" |}.

(** pdf-parse refusing whatever buffer. *)
Definition example_broken_pdf (b : Buffer) : Completion (option PdfData) :=
  Throw {| err_name := js "Error"; err_message := js "Invalid PDF structure" |}.

(** What pdf-parse resolves to for [example_long_text], and the request
    that uploads it. *)
Definition example_long_data : option PdfData :=
  Some {| pdf_text := Some example_long_text |}.

Definition example_pdf_request : Request := {| file := Some example_pdf_file |}.

(** ** The page ([frontend/app/page.tsx])

    The state of the component and its handlers as functions on it. What is
    asynchronous is cut where it waits: the preview of an image arrives in
    [previewLoaded], [processFile] goes on in [processFile_settled] with what
    [fetch] gave, and the feedback of [copyToClipboard] is set in [copied] and
    cleared in [copyFeedbackTimeout]. *)

(** The names of the properties of a response body. *)
Definition response_names (r : HttpResponse) : list jsstring :=
  map (fun field => js (fst field)) (body r).

(** [`${n}`] for an integer [n] *)
Definition decimal (n : Z) : jsstring := js (NilZero.string_of_int (Z.to_int n)).

(** [k in v]: [v] must be an object; the names asked for are own properties
    of an object and of no prototype, and no array has them. On anything
    else a TypeError is thrown, whose message ends, in V8, with the value as
    a string: [toString] is [String(v)]. *)
Definition has_property (toString : JsVal -> jsstring) (k : string) (v : JsVal)
  : Completion bool :=
  match v with
  | VObj ps => Normal (match lookup (js k) ps with Some _ => true | None => false end)
  | VArr _ | VFun _ => Normal false
  | _ => Throw {| err_name := js "TypeError";
                  err_message := js "Cannot use 'in' operator to search for '"
                                 ++ js k ++ js "' in "
                                 ++ match v with VStr s => s | _ => toString v end |}
  end.

(** [v.k], which throws on [null] and [undefined], with the message of V8. *)
Definition read_property (v : JsVal) (k : string) : Completion JsVal :=
  match v with
  | VUndefined =>
      Throw {| err_name := js "TypeError";
               err_message := js "Cannot read properties of undefined (reading '"
                              ++ js k ++ js "')" |}
  | VNull =>
      Throw {| err_name := js "TypeError";
               err_message := js "Cannot read properties of null (reading '"
                              ++ js k ++ js "')" |}
  | _ => Normal (get v (js k))
  end.

Module Page.

(** The file the browser hands over, as far as the page reads it. *)
Record File := { type : jsstring; size : Z }.

(** What [fetch] resolves to, as far as [processFile] reads it. *)
Record Response := {
  ok : bool;
  status : Z;
  statusText : jsstring;
  json : Completion JsVal
}.

Record State := {
  file : option File;
  preview : option jsstring;
  isProcessing : bool;
  result : option JsVal;
  error : jsstring;
  isDragOver : bool;
  copyFeedback : jsstring
}.

(** page.tsx 33-39 *)
Definition initial : State :=
  {| file := None; preview := None; isProcessing := false; result := None;
     error := []; isDragOver := false; copyFeedback := [] |}.

Definition setFile (v : option File) (st : State) : State :=
  {| file := v; preview := preview st; isProcessing := isProcessing st;
     result := result st; error := error st; isDragOver := isDragOver st;
     copyFeedback := copyFeedback st |}.

Definition setPreview (v : option jsstring) (st : State) : State :=
  {| file := file st; preview := v; isProcessing := isProcessing st;
     result := result st; error := error st; isDragOver := isDragOver st;
     copyFeedback := copyFeedback st |}.

Definition setIsProcessing (v : bool) (st : State) : State :=
  {| file := file st; preview := preview st; isProcessing := v;
     result := result st; error := error st; isDragOver := isDragOver st;
     copyFeedback := copyFeedback st |}.

Definition setResult (v : option JsVal) (st : State) : State :=
  {| file := file st; preview := preview st; isProcessing := isProcessing st;
     result := v; error := error st; isDragOver := isDragOver st;
     copyFeedback := copyFeedback st |}.

Definition setError (v : jsstring) (st : State) : State :=
  {| file := file st; preview := preview st; isProcessing := isProcessing st;
     result := result st; error := v; isDragOver := isDragOver st;
     copyFeedback := copyFeedback st |}.

Definition setIsDragOver (v : bool) (st : State) : State :=
  {| file := file st; preview := preview st; isProcessing := isProcessing st;
     result := result st; error := error st; isDragOver := v;
     copyFeedback := copyFeedback st |}.

Definition setCopyFeedback (v : jsstring) (st : State) : State :=
  {| file := file st; preview := preview st; isProcessing := isProcessing st;
     result := result st; error := error st; isDragOver := isDragOver st;
     copyFeedback := v |}.

Definition MAX_FILE_SIZE : Z := 10 * 1024 * 1024.

(** page.tsx 44-59; [None] is [null] *)
Definition validateFile (file : option File) : option jsstring :=
  match file with
  | None => Some (js "No file selected")
  | Some file =>
      let isImage := startsWith (type file) (js "image/") in
      let isPDF := str_eqb (type file) (js "application/pdf") in
      if negb isImage && negb isPDF
      then Some (js "Please select an image or PDF file")
      else if (size file >? MAX_FILE_SIZE)%Z
      then Some (js "File size must be less than 10MB")
      else None
  end.

(** page.tsx 61-83. For an image the reader is started and the preview
    stays as it is until the reader is done. *)
Definition handleFileSelect (selectedFile : File) (st : State) : State :=
  let selected :=
    let st := setResult None (setError [] (setFile (Some selectedFile) st)) in
    if startsWith (type selectedFile) (js "image/") then st
    else setPreview None st in
  match validateFile (Some selectedFile) with
  | Some validationError =>
      if negb (is_empty validationError) then setError validationError st
      else selected
  | None => selected
  end.

(** [reader.onload] (page.tsx 76) *)
Definition previewLoaded (url : jsstring) (st : State) : State :=
  setPreview (Some url) st.

(** page.tsx 85-116 *)
Definition handleDragOver (st : State) : State := setIsDragOver true st.

Definition handleDragLeave (st : State) : State := setIsDragOver false st.

Definition handleDrop (droppedFile : option File) (st : State) : State :=
  let st := setIsDragOver false st in
  match droppedFile with
  | Some f => handleFileSelect f st
  | None => st
  end.

Definition handleFileInputChange (selectedFile : option File) (st : State) : State :=
  match selectedFile with
  | Some f => handleFileSelect f st
  | None => st
  end.

(** page.tsx 126-133 *)
Definition server : jsstring := js "http://localhost:4000".

Definition endpoint (file : File) : jsstring :=
  if startsWith (type file) (js "image/")
  then server ++ js "/process-image"
  else server ++ js "/process-pdf".

(** page.tsx 118-123: [processFile] up to the [fetch] *)
Definition processFile (st : State) : State :=
  match file st with
  | None => st
  | Some _ => setResult None (setError [] (setIsProcessing true st))
  end.

Section Settled.
(** [String(v)], which [new Error(v)] applies to a message that is no
    string. *)
Variable toString : JsVal -> jsstring.

(** page.tsx 144-153: the message for a response that is not ok *)
Definition serverError (response : Response) : jsstring :=
  let errorMessage := js "Server error: " ++ decimal (status response) in
  let read :=
    match json response with
    | Normal errorData =>
        match read_property errorData "message" with
        | Normal message =>
            Normal (if truthy message
                    then match message with VStr s => s | v => toString v end
                    else errorMessage)
        | Throw e => Throw e
        end
    | Throw e => Throw e
    end in
  match read with
  | Normal message => message
  | Throw _ =>
      if negb (is_empty (statusText response)) then statusText response
      else errorMessage
  end.

(** page.tsx 135-167: [processFile] from the answer of [fetch] on. What is
    thrown in the [try] is an [Error] each time (by [fetch], by [json()], or
    the one made for a response that is not ok), so the [catch] shows its
    message. *)
Definition processFile_settled (fetched : Completion Response) (st : State)
  : State :=
  let tried : Completion JsVal :=
    match fetched with
    | Normal response =>
        if negb (ok response)
        then Throw {| err_name := js "Error"; err_message := serverError response |}
        else json response
    | Throw e => Throw e
    end in
  setIsProcessing false
    match tried with
    | Normal data => setResult (Some data) st
    | Throw err => setError (err_message err) st
    end.

End Settled.

(** page.tsx 170-179 *)
Definition copied (written : bool) (st : State) : State :=
  setCopyFeedback (if written then js "Copied!" else js "Failed to copy") st.

Definition copyFeedbackTimeout (st : State) : State := setCopyFeedback [] st.

(** page.tsx 181-190; the file input it empties is no part of the state *)
Definition resetForm (st : State) : State :=
  setCopyFeedback [] (setError [] (setResult None (setPreview None (setFile None st)))).

(** page.tsx 202-212 *)
Definition isImageResult (toString : JsVal -> jsstring) (result : JsVal)
  : Completion bool :=
  match has_property toString "title" result with
  | Normal true => has_property toString "description" result
  | c => c
  end.

Definition isPDFResult (toString : JsVal -> jsstring) (result : JsVal)
  : Completion bool :=
  has_property toString "summary" result.

(** What can happen to the page. Nothing is assumed on the order: a fetch
    may settle that was never started, which only adds states. *)
Inductive Event :=
| OnDragOver
| OnDragLeave
| OnDrop (droppedFile : option File)
| OnFileInputChange (selectedFile : option File)
| OnPreviewLoaded (url : jsstring)
| OnProcessFile
| OnSettled (fetched : Completion Response)
| OnCopied (written : bool)
| OnCopyFeedbackTimeout
| OnResetForm.

Definition step (toString : JsVal -> jsstring) (st : State) (ev : Event) : State :=
  match ev with
  | OnDragOver => handleDragOver st
  | OnDragLeave => handleDragLeave st
  | OnDrop f => handleDrop f st
  | OnFileInputChange f => handleFileInputChange f st
  | OnPreviewLoaded url => previewLoaded url st
  | OnProcessFile => processFile st
  | OnSettled fetched => processFile_settled toString fetched st
  | OnCopied written => copied written st
  | OnCopyFeedbackTimeout => copyFeedbackTimeout st
  | OnResetForm => resetForm st
  end.

Definition run (toString : JsVal -> jsstring) (events : list Event) (st : State)
  : State :=
  fold_left (step toString) events st.

End Page.

(** A PNG image of 2 MiB and a scanned PDF as the browser describes them,
    and a [String] for the examples, in which every message is a string. *)
Definition example_browser_image : Page.File :=
  {| Page.type := js "image/png"; Page.size := 2 * 1024 * 1024 |}.

Definition example_toString (v : JsVal) : jsstring := [].

(* ================================================================== *)
(** * Part II: properties *)
(* ================================================================== *)

Unset Implicit Arguments.

(** ** Strings *)

Lemma str_length_app (a b : jsstring) :
  str_length (a ++ b) = (str_length a + str_length b)%Z.
Proof. unfold str_length. rewrite length_app. lia. Qed.

Lemma str_length_nonneg (s : jsstring) : (0 <= str_length s)%Z.
Proof. unfold str_length. lia. Qed.

(** Within the string, [slice] is the plain sub-range. *)
Lemma slice_range (s : jsstring) (b e : Z) :
  (0 <= b)%Z -> (0 <= e)%Z ->
  slice s b e =
  firstn (Z.to_nat (Z.min e (str_length s) - Z.min b (str_length s)))
         (skipn (Z.to_nat (Z.min b (str_length s))) s).
Proof.
  intros Hb He. unfold slice.
  destruct (Z.ltb_spec b 0); [lia|].
  destruct (Z.ltb_spec e 0); [lia|]. reflexivity.
Qed.

Lemma slice_length (s : jsstring) (b e : Z) :
  (0 <= b <= e)%Z ->
  str_length (slice s b e) = (Z.min e (str_length s) - Z.min b (str_length s))%Z.
Proof.
  intros H. rewrite slice_range by lia. unfold str_length.
  rewrite length_firstn, length_skipn. lia.
Qed.

Lemma slice_prefix (s : jsstring) (e : Z) :
  (0 <= e)%Z -> slice s 0 e = firstn (Z.to_nat e) s.
Proof.
  intros H. rewrite slice_range by lia. unfold str_length.
  replace (Z.min 0 (Z.of_nat (length s))) with 0%Z by lia.
  rewrite Z.sub_0_r. simpl.
  destruct (Z.le_ge_cases e (Z.of_nat (length s))).
  - now rewrite Z.min_l.
  - rewrite Z.min_r by lia. rewrite Nat2Z.id.
    rewrite !firstn_all2; auto; lia.
Qed.

(** ** Chunking *)

Section Chunking.
Variable text : jsstring.

Lemma chunk_count_le (k : nat) :
  (str_length text <= Z.of_nat k * CHUNK_SIZE)%Z <-> (chunk_count text <= k)%nat.
Proof.
  unfold chunk_count, CHUNK_SIZE. pose proof (str_length_nonneg text).
  split; intros; Z.div_mod_to_equations; lia.
Qed.

(** The loop in closed form: from offset [k * CHUNK_SIZE] it pushes the slices
    [k], [k+1], ... up to the last one of the plan. *)
Lemma chunk_loop_closed (fuel k : nat) (acc : list jsstring) :
  (str_length text - Z.of_nat k * CHUNK_SIZE <= Z.of_nat fuel)%Z ->
  chunk_loop fuel text (Z.of_nat k * CHUNK_SIZE) acc =
  acc ++ map (chunk_at text) (seq k (chunk_count text - k)).
Proof.
  revert k acc. induction fuel as [|fuel IH]; intros k acc Hfuel; simpl.
  - assert (chunk_count text <= k)%nat by (apply chunk_count_le; lia).
    replace (chunk_count text - k)%nat with 0%nat by lia.
    simpl. now rewrite app_nil_r.
  - destruct (Z.ltb_spec (Z.of_nat k * CHUNK_SIZE) (str_length text)) as [Hlt|Hge].
    + replace (Z.of_nat k * CHUNK_SIZE + CHUNK_SIZE)%Z
        with (Z.of_nat (S k) * CHUNK_SIZE)%Z by lia.
      rewrite IH by (unfold CHUNK_SIZE in *; lia).
      assert (k < chunk_count text)%nat.
      { destruct (Nat.lt_ge_cases k (chunk_count text)) as [|Hle]; [assumption|].
        apply chunk_count_le in Hle. lia. }
      replace (chunk_count text - k)%nat with (S (chunk_count text - S k)) by lia.
      simpl. rewrite <- app_assoc. simpl. unfold chunk_at at 2.
      replace (Z.of_nat k * CHUNK_SIZE + CHUNK_SIZE)%Z
        with (Z.of_nat (S k) * CHUNK_SIZE)%Z by lia.
      reflexivity.
    + assert (chunk_count text <= k)%nat by (apply chunk_count_le; lia).
      replace (chunk_count text - k)%nat with 0%nat by lia.
      simpl. now rewrite app_nil_r.
Qed.

(** The loop stops by its own guard: more fuel than [text.length] changes
    nothing. *)
Lemma chunk_loop_fuel (fuel : nat) :
  (length text <= fuel)%nat -> chunk_loop fuel text 0 [] = chunkText text.
Proof.
  intros H. unfold chunkText.
  rewrite (chunk_loop_closed fuel 0), (chunk_loop_closed (length text) 0);
    unfold str_length; simpl; try lia. reflexivity.
Qed.

Lemma chunkText_closed :
  chunkText text = map (chunk_at text) (seq 0 (chunk_count text)).
Proof.
  unfold chunkText. rewrite (chunk_loop_closed (length text) 0).
  - simpl. now rewrite Nat.sub_0_r.
  - unfold str_length. simpl. lia.
Qed.

Lemma chunkText_length : length (chunkText text) = chunk_count text.
Proof. now rewrite chunkText_closed, length_map, length_seq. Qed.

Lemma chunkText_nth (k : nat) :
  (k < chunk_count text)%nat -> nth k (chunkText text) [] = chunk_at text k.
Proof.
  intros H. rewrite chunkText_closed.
  rewrite (nth_indep _ [] (chunk_at text 0)) by now rewrite length_map, length_seq.
  rewrite map_nth, seq_nth by assumption. reflexivity.
Qed.

Lemma chunk_at_length (k : nat) :
  str_length (chunk_at text k) =
  (Z.min (Z.of_nat (S k) * CHUNK_SIZE) (str_length text)
   - Z.min (Z.of_nat k * CHUNK_SIZE) (str_length text))%Z.
Proof.
  unfold chunk_at. rewrite slice_length by (unfold CHUNK_SIZE; lia).
  f_equal. f_equal. lia.
Qed.

(** What the loop has pushed, put end to end, is the text from offset [i]
    on: the slices neither overlap nor leave a gap. *)
Lemma chunk_loop_concat (fuel : nat) (i : Z) (acc : list jsstring) :
  (0 <= i)%Z -> (str_length text - i <= Z.of_nat fuel)%Z ->
  concat (chunk_loop fuel text i acc) = concat acc ++ skipn (Z.to_nat i) text.
Proof.
  revert i acc. induction fuel as [|fuel IH]; intros i acc Hi Hfuel; simpl.
  - rewrite skipn_all2 by (unfold str_length in Hfuel; lia).
    now rewrite app_nil_r.
  - destruct (Z.ltb_spec i (str_length text)) as [Hlt|Hge].
    + rewrite IH by (unfold CHUNK_SIZE; lia).
      rewrite concat_app. simpl. rewrite app_nil_r, <- app_assoc. f_equal.
      rewrite slice_range by (unfold CHUNK_SIZE; lia).
      rewrite (Z.min_l i) by lia.
      replace (Z.to_nat (i + CHUNK_SIZE))
        with (Z.to_nat (i + CHUNK_SIZE) - Z.to_nat i + Z.to_nat i)%nat
        by (unfold CHUNK_SIZE; lia).
      rewrite <- skipn_skipn.
      destruct (Z.le_ge_cases (i + CHUNK_SIZE) (str_length text)) as [Hin|Hout].
      * rewrite Z.min_l by lia.
        replace (Z.to_nat (i + CHUNK_SIZE - i))
          with (Z.to_nat (i + CHUNK_SIZE) - Z.to_nat i)%nat by lia.
        apply firstn_skipn.
      * rewrite Z.min_r by lia.
        rewrite firstn_all2
          by (rewrite length_skipn; unfold str_length in *; lia).
        rewrite (skipn_all2 (n := (Z.to_nat (i + CHUNK_SIZE) - Z.to_nat i)%nat))
          by (rewrite length_skipn; unfold str_length in *; lia).
        now rewrite app_nil_r.
    + rewrite skipn_all2 by (unfold str_length in Hge; lia).
      now rewrite app_nil_r.
Qed.

Lemma chunkText_concat : concat (chunkText text) = text.
Proof.
  unfold chunkText. rewrite chunk_loop_concat; simpl; try lia.
  - reflexivity.
  - unfold str_length. lia.
Qed.

End Chunking.

(** C1. For every non-empty text the chunking loop of [processPdf] yields the
    slices [k*24000 .. (k+1)*24000) in order: put end to end they are the text
    (no overlap, no gap), every slice but the last has 24000 characters, the
    last has between 1 and 24000; a text of 24000 characters gives one chunk
    and one of 24001 gives two, the second of length 1. *)
Theorem chunk_plan_covers_text (text : jsstring) :
  text <> [] ->
  let chunks := chunkText text in
  concat chunks = text
  /\ (forall k, (k < length chunks)%nat ->
        nth k chunks [] =
        slice text (Z.of_nat k * 24000) (Z.of_nat k * 24000 + 24000))
  /\ (forall k, (S k < length chunks)%nat ->
        str_length (nth k chunks []) = 24000%Z)
  /\ (0 < str_length (last chunks []) <= 24000)%Z
  /\ Z.of_nat (length chunks) = ((str_length text + 23999) / 24000)%Z
  /\ (str_length text = 24000%Z -> length chunks = 1%nat)
  /\ (str_length text = 24001%Z ->
      length chunks = 2%nat /\ str_length (nth 1 chunks []) = 1%Z).
Proof.
  intros Hne chunks. subst chunks.
  pose proof (str_length_nonneg text) as Hlen.
  assert (Hpos : (0 < str_length text)%Z)
    by (destruct text; [congruence | unfold str_length; simpl; lia]).
  assert (Hcount : Z.of_nat (chunk_count text) =
                   ((str_length text + 23999) / 24000)%Z).
  { unfold chunk_count, CHUNK_SIZE. rewrite Z2Nat.id.
    - f_equal. lia.
    - apply Z.div_pos; lia. }
  rewrite chunkText_length.
  repeat split.
  - apply chunkText_concat.
  - intros k Hk. now rewrite chunkText_nth.
  - intros k Hk. rewrite chunkText_nth by lia. rewrite chunk_at_length.
    assert (~ (chunk_count text <= S k)%nat) as Hn by lia.
    rewrite <- chunk_count_le in Hn. unfold CHUNK_SIZE in *. lia.
  - rewrite chunkText_closed.
    destruct (chunk_count text) as [|n] eqn:En.
    + exfalso. revert Hcount. Z.div_mod_to_equations. lia.
    + rewrite seq_S, map_app. simpl. rewrite last_last, chunk_at_length.
      assert (~ (chunk_count text <= n)%nat) as Hn by lia.
      rewrite <- chunk_count_le in Hn. unfold CHUNK_SIZE in *. lia.
  - rewrite chunkText_closed.
    destruct (chunk_count text) as [|n] eqn:En.
    + exfalso. revert Hcount. Z.div_mod_to_equations. lia.
    + rewrite seq_S, map_app. simpl. rewrite last_last, chunk_at_length.
      assert (chunk_count text <= S n)%nat as Hn by lia.
      rewrite <- chunk_count_le in Hn. unfold CHUNK_SIZE in *. lia.
  - assumption.
  - intros H. rewrite H in Hcount. change ((24000 + 23999) / 24000)%Z with 1%Z in Hcount. lia.
  - rewrite H in Hcount. change ((24001 + 23999) / 24000)%Z with 2%Z in Hcount. lia.
  - assert (chunk_count text = 2%nat) as E.
    { rewrite H in Hcount. change ((24001 + 23999) / 24000)%Z with 2%Z in Hcount. lia. }
    rewrite chunkText_nth by lia. rewrite chunk_at_length. unfold CHUNK_SIZE. lia.
Qed.

(** The plan of a short text: one chunk, the text itself. *)
Lemma chunk_plan_covers_text_witness :
  chunkText (js "summary") = [js "summary"]
  /\ concat (chunkText (js "summary")) = js "summary".
Proof.
  split; [reflexivity|].
  apply (chunk_plan_covers_text (js "summary")). discriminate.
Defined.

(** ** The length cap *)

(** C2. A final summary longer than 4000 characters becomes its first 3997
    characters followed by three dots, 4000 characters in all; one of at most
    4000 characters is left as it is. *)
Theorem capSummary_spec (finalSummary : jsstring) :
  ((4000 < str_length finalSummary)%Z ->
     capSummary finalSummary = firstn 3997 finalSummary ++ js "..."
     /\ str_length (capSummary finalSummary) = 4000%Z)
  /\ ((str_length finalSummary <= 4000)%Z -> capSummary finalSummary = finalSummary).
Proof.
  unfold capSummary. split; intros H.
  - destruct (Z.ltb_spec 4000 (str_length finalSummary)); [|lia].
    rewrite slice_prefix by lia. split.
    + reflexivity.
    + rewrite str_length_app. unfold str_length in *.
      rewrite length_firstn. change (length (js "...")) with 3%nat. lia.
  - destruct (Z.ltb_spec 4000 (str_length finalSummary)); [lia|]. reflexivity.
Qed.

(** The cap is a ceiling: no summary leaves it longer than 4000. *)
Lemma capSummary_ceiling (finalSummary : jsstring) :
  (str_length (capSummary finalSummary) <= 4000)%Z.
Proof.
  unfold capSummary.
  destruct (Z.ltb_spec 4000 (str_length finalSummary)); [|assumption].
  rewrite slice_prefix, str_length_app by lia. unfold str_length.
  rewrite length_firstn. change (length (js "...")) with 3%nat. lia.
Qed.

(** ** White space and [trim] *)

(** The white space code units, one by one. *)
Lemma is_js_space_cases (c : code_unit) :
  is_js_space c = true ->
  In c [9; 10; 11; 12; 13; 32; 160; 5760; 8192; 8193; 8194; 8195; 8196; 8197;
        8198; 8199; 8200; 8201; 8202; 8232; 8233; 8239; 8287; 12288; 65279]%N.
Proof.
  unfold is_js_space.
  rewrite !orb_true_iff, !andb_true_iff, !N.eqb_eq, !N.leb_le.
  simpl. lia.
Qed.

Ltac space_cases H :=
  apply is_js_space_cases in H; simpl in H;
  repeat (destruct H as [H | H]; [subst | ]); [ .. | contradiction ].

Lemma trimStart_spaces_app (a s : jsstring) :
  forallb is_js_space a = true -> trimStart (a ++ s) = trimStart s.
Proof.
  induction a as [|c a IH]; simpl; intros H; [reflexivity|].
  apply andb_true_iff in H as [Hc Ha]. rewrite Hc. auto.
Qed.

Lemma trimStart_spaces (a : jsstring) :
  forallb is_js_space a = true -> trimStart a = [].
Proof.
  intros H. rewrite <- (app_nil_r a). now rewrite trimStart_spaces_app.
Qed.

Lemma trimStart_nil (s : jsstring) :
  trimStart s = [] -> forallb is_js_space s = true.
Proof.
  induction s as [|c s IH]; simpl; [reflexivity|].
  destruct (is_js_space c); simpl; [assumption | discriminate].
Qed.

Lemma trimStart_app_keep (s b : jsstring) :
  trimStart s <> [] -> trimStart (s ++ b) = trimStart s ++ b.
Proof.
  induction s as [|c s IH]; simpl; intros H; [congruence|].
  destruct (is_js_space c); [auto | reflexivity].
Qed.

Lemma trimEnd_spaces (b : jsstring) :
  forallb is_js_space b = true -> trimEnd b = [].
Proof.
  induction b as [|c b IH]; simpl; intros H; [reflexivity|].
  apply andb_true_iff in H as [Hc Hb]. now rewrite IH, Hc.
Qed.

Lemma trimEnd_app_spaces (s b : jsstring) :
  forallb is_js_space b = true -> trimEnd (s ++ b) = trimEnd s.
Proof.
  intros H. induction s as [|c s IH]; simpl.
  - now apply trimEnd_spaces.
  - now rewrite IH.
Qed.

(** White space around a string does not change what [trim] leaves of it. *)
Lemma trim_pad (a s b : jsstring) :
  forallb is_js_space a = true -> forallb is_js_space b = true ->
  trim (a ++ s ++ b) = trim s.
Proof.
  intros Ha Hb. unfold trim. rewrite trimStart_spaces_app by assumption.
  destruct (trimStart s) as [|c r] eqn:E.
  - apply trimStart_nil in E.
    rewrite trimStart_spaces; [reflexivity|].
    rewrite forallb_app. now rewrite E, Hb.
  - rewrite trimStart_app_keep by congruence.
    rewrite E. now apply trimEnd_app_spaces.
Qed.

Lemma trimStart_In (c : code_unit) (s : jsstring) : In c (trimStart s) -> In c s.
Proof.
  induction s as [|x s IH]; simpl; [tauto|].
  destruct (is_js_space x); simpl; tauto.
Qed.

Lemma trimEnd_In (c : code_unit) (s : jsstring) : In c (trimEnd s) -> In c s.
Proof.
  induction s as [|x s IH]; simpl; [tauto|].
  destruct (trimEnd s) as [|y r].
  - destruct (is_js_space x); simpl; tauto.
  - simpl in *. tauto.
Qed.

Lemma trim_In (c : code_unit) (s : jsstring) : In c (trim s) -> In c s.
Proof. intros H. now apply trimStart_In, trimEnd_In. Qed.

(** ** The lexer of [JSON.parse] *)

Ltac break_if H :=
  repeat match type of H with
         | context [if ?b then _ else _] => destruct b eqn:?
         end.

Lemma lex_start_wf (c : code_unit) st toks :
  lex_start c = Some (st, toks) -> lex_wf st.
Proof.
  unfold lex_start. intros H. break_if H; inversion H; subst; exact I || reflexivity.
Qed.

Lemma lex_step_wf (st : lex_state) (c : code_unit) st' toks :
  lex_wf st -> lex_step st c = Some (st', toks) -> lex_wf st'.
Proof.
  intros Hwf H. destruct st as [|acc|acc|acc todo code|ns a|rest t]; simpl in H.
  - eapply lex_start_wf; eassumption.
  - break_if H; inversion H; subst; exact I.
  - destruct (N.eqb c 117); [inversion H; subst; exact I|].
    destruct (escape_char c); inversion H; subst; exact I.
  - destruct (hex_value c); [|discriminate].
    destruct todo as [|[|k]]; inversion H; subst; exact I.
  - destruct (num_step ns a c) as [[ns' a']|].
    + inversion H; subst; exact I.
    + destruct (num_complete ns); [|discriminate].
      destruct (lex_start c) as [[st1 toks1]|] eqn:E; [|discriminate].
      inversion H; subst. eapply lex_start_wf; eassumption.
  - destruct rest as [|x rest']; [discriminate|].
    destruct (N.eqb c x); [|discriminate].
    simpl in Hwf. apply andb_true_iff in Hwf as [_ Hrest].
    destruct rest'; inversion H; subst; [exact I | exact Hrest].
Qed.

(** Between tokens, white space is skipped when it is JSON white space and
    refused otherwise. *)
Lemma lex_start_space (c : code_unit) st toks :
  is_js_space c = true -> lex_start c = Some (st, toks) -> st = LStart /\ toks = [].
Proof.
  intros Hc H. space_cases Hc; vm_compute in H; inversion H; auto.
Qed.

Lemma num_step_space (ns : num_state) (a : num_acc) (c : code_unit) :
  is_js_space c = true -> num_step ns a c = None.
Proof.
  intros Hc. space_cases Hc; destruct ns; reflexivity.
Qed.

(** A white space code unit that the lexer accepts as the last one of a text
    could as well be left out. *)
Lemma lex_step_space_end (st : lex_state) (c : code_unit) st' toks more :
  lex_wf st -> is_js_space c = true ->
  lex_step st c = Some (st', toks) -> lex_end st' = Some more ->
  lex_end st = Some (toks ++ more).
Proof.
  intros Hwf Hc H Hend.
  destruct st as [|acc|acc|acc todo code|ns a|rest t]; simpl in H.
  - destruct (lex_start_space _ _ _ Hc H); subst. assumption.
  - exfalso. space_cases Hc; vm_compute in H; inversion H; subst; discriminate.
  - exfalso. space_cases Hc; vm_compute in H; discriminate.
  - exfalso. space_cases Hc; vm_compute in H; discriminate.
  - rewrite num_step_space in H by assumption.
    destruct (num_complete ns) eqn:Hns; [|discriminate].
    destruct (lex_start c) as [[st1 toks1]|] eqn:E; [|discriminate].
    destruct (lex_start_space _ _ _ Hc E); subst.
    inversion H; subst. simpl in Hend. inversion Hend; subst.
    simpl. now rewrite Hns.
  - exfalso. destruct rest as [|x rest']; [discriminate|].
    simpl in Hwf. apply andb_true_iff in Hwf as [Hx _].
    destruct (N.eqb_spec c x); [subst x|discriminate].
    space_cases Hc; discriminate.
Qed.

Lemma lex_trimEnd (s : jsstring) : forall st toks,
  lex_wf st -> lex_from st s = Some toks -> lex_from st (trimEnd s) = Some toks.
Proof.
  induction s as [|c r IH]; intros st toks Hwf H; [assumption|].
  simpl in H.
  destruct (lex_step st c) as [[st' t1]|] eqn:Hstep; [|discriminate].
  destruct (lex_from st' r) as [more|] eqn:Hr; [|discriminate].
  inversion H; subst; clear H.
  pose proof (IH _ _ (lex_step_wf _ _ _ _ Hwf Hstep) Hr) as IHr.
  simpl. destruct (trimEnd r) as [|d r'].
  - simpl in IHr. destruct (is_js_space c) eqn:Hc.
    + simpl. eapply lex_step_space_end; eassumption.
    + simpl. now rewrite Hstep, IHr.
  - simpl. rewrite Hstep. simpl in IHr. now rewrite IHr.
Qed.

Lemma lex_trimStart (s : jsstring) toks :
  lex s = Some toks -> lex (trimStart s) = Some toks.
Proof.
  unfold lex. induction s as [|c r IH]; intros H; [assumption|].
  simpl. destruct (is_js_space c) eqn:Hc; [|assumption].
  simpl in H.
  destruct (lex_start c) as [[st' t1]|] eqn:Hstep; [|discriminate].
  destruct (lex_start_space _ _ _ Hc Hstep); subst.
  destruct (lex_from LStart r); [|discriminate].
  simpl in H. inversion H; subst. now apply IH.
Qed.

Lemma lex_trim (s : jsstring) toks : lex s = Some toks -> lex (trim s) = Some toks.
Proof.
  intros H. unfold trim, lex. apply lex_trimEnd; [exact I|].
  now apply lex_trimStart.
Qed.

(** No state goes on with a backtick and then ends a text. *)
Lemma lex_step_backtick_end (st : lex_state) st' toks :
  lex_wf st -> lex_step st 96%N = Some (st', toks) -> lex_end st' = None.
Proof.
  intros Hwf H.
  destruct st as [|acc|acc|acc todo code|ns a|rest t].
  - vm_compute in H. discriminate.
  - vm_compute in H. inversion H; subst. reflexivity.
  - vm_compute in H. discriminate.
  - vm_compute in H. discriminate.
  - destruct ns; vm_compute in H; discriminate.
  - destruct rest as [|x rest']; [discriminate|].
    simpl in Hwf. apply andb_true_iff in Hwf as [Hx _].
    destruct (N.eq_dec x 96%N) as [->|Hne]; [vm_compute in Hx; discriminate|].
    exfalso. assert ((96 =? x)%N = false) as E by (apply N.eqb_neq; congruence).
    cbn -[N.eqb] in H. rewrite E in H. discriminate.
Qed.

Lemma lex_last_not_backtick (s : jsstring) : forall st toks,
  lex_wf st -> lex_from st s = Some toks -> last s 0%N <> 96%N.
Proof.
  induction s as [|c r IH]; intros st toks Hwf H.
  - simpl. discriminate.
  - simpl in H.
    destruct (lex_step st c) as [[st' t1]|] eqn:Hstep; [|discriminate].
    destruct (lex_from st' r) as [more|] eqn:Hr; [|discriminate].
    destruct r as [|d r'].
    + simpl. intros ->. simpl in Hr.
      rewrite (lex_step_backtick_end _ _ _ Hwf Hstep) in Hr. discriminate.
    + change (last (c :: d :: r') 0%N) with (last (d :: r') 0%N).
      eapply IH; [|eassumption]. eapply lex_step_wf; eassumption.
Qed.

(** ** [JSON.parse] and the text around the value *)

Lemma JSON_parse_lex (s : jsstring) (v : Json) :
  JSON_parse s = Normal v -> exists toks, lex s = Some toks.
Proof.
  unfold JSON_parse. destruct (lex s) as [toks|]; [eauto | discriminate].
Qed.

Lemma JSON_parse_trim (s : jsstring) (v : Json) :
  JSON_parse s = Normal v -> JSON_parse (trim s) = Normal v.
Proof.
  unfold JSON_parse. destruct (lex s) as [toks|] eqn:E; [|discriminate].
  now rewrite (lex_trim _ _ E).
Qed.

Lemma JSON_parse_nonempty (s : jsstring) (v : Json) :
  JSON_parse s = Normal v -> s <> [].
Proof. intros H ->. discriminate. Qed.

Lemma JSON_parse_head (c : code_unit) (r : jsstring) (v : Json) :
  JSON_parse (c :: r) = Normal v -> c <> 106%N /\ c <> 96%N.
Proof.
  intros H. apply JSON_parse_lex in H as [toks H]. unfold lex in H. simpl in H.
  split; intros ->; vm_compute in H; discriminate.
Qed.

Lemma JSON_parse_last (s : jsstring) (v : Json) :
  JSON_parse s = Normal v -> last s 0%N <> 96%N.
Proof.
  intros H. apply JSON_parse_lex in H as [toks H].
  eapply lex_last_not_backtick; [|exact H]. exact I.
Qed.

(** ** Code fences *)

Lemma startsWith_app (p r : jsstring) : startsWith (p ++ r) p = true.
Proof.
  induction p as [|x p IH]; simpl; [reflexivity|]. now rewrite N.eqb_refl.
Qed.

Lemma startsWith_fence_head (c : code_unit) (r : jsstring) :
  c <> 96%N -> startsWith (c :: r) fence = false.
Proof.
  intros Hc. unfold fence. cbn -[N.eqb].
  destruct (N.eqb_spec 96 c); [congruence | reflexivity].
Qed.

(** A string with no fence in it that does not end in a backtick starts no
    fence, whatever follows it. *)
Lemma no_fence_across (s t : jsstring) :
  includes s fence = false -> last s 0%N <> 96%N -> s <> [] ->
  startsWith (s ++ t) fence = false.
Proof.
  intros Hin Hlast Hne.
  destruct s as [|c [|d [|e r]]]; [congruence| | |].
  - simpl in Hlast. now apply startsWith_fence_head.
  - simpl in Hlast. unfold fence. cbn -[N.eqb].
    destruct (N.eqb_spec 96 d); [congruence|].
    now rewrite andb_false_r.
  - simpl in Hin. apply orb_false_iff in Hin as [Hin _].
    unfold fence in *. cbn -[N.eqb] in *.
    now rewrite !andb_true_r in *.
Qed.

Section FenceRemoval.
Variable pats : list jsstring.
(** Every alternative of the expression starts with a fence. *)
Hypothesis pats_fence :
  forall s, startsWith s fence = false -> first_match pats s = None.

Lemma remove_all_keep (s t : jsstring) :
  includes s fence = false -> last s 0%N <> 96%N ->
  remove_all pats 0 (s ++ t) = s ++ remove_all pats 0 t.
Proof.
  induction s as [|c r IH]; intros Hin Hlast; [reflexivity|].
  assert (first_match pats ((c :: r) ++ t) = None) as E
    by (apply pats_fence, no_fence_across; [assumption | assumption | discriminate]).
  change (remove_all pats 0 ((c :: r) ++ t))
    with (match first_match pats ((c :: r) ++ t) with
          | Some (S k) => remove_all pats k (r ++ t)
          | _ => c :: remove_all pats 0 (r ++ t)
          end).
  rewrite E. simpl. f_equal. apply IH.
  - simpl in Hin. apply orb_false_iff in Hin as [_ Hin]. exact Hin.
  - destruct r as [|d r']; [simpl; discriminate | exact Hlast].
Qed.

Lemma remove_all_id (s : jsstring) :
  includes s fence = false -> last s 0%N <> 96%N -> remove_all pats 0 s = s.
Proof.
  intros Hin Hlast. rewrite <- (app_nil_r s) at 1.
  rewrite remove_all_keep by assumption. simpl. apply app_nil_r.
Qed.

End FenceRemoval.

Lemma startsWith_prefix (s p q : jsstring) :
  startsWith s (p ++ q) = true -> startsWith s p = true.
Proof.
  revert s. induction p as [|x p IH]; intros s H; [reflexivity|].
  destruct s as [|y s]; [discriminate|]. simpl in *.
  apply andb_true_iff in H as [Hxy H]. rewrite Hxy. simpl. now apply IH.
Qed.

Lemma tagged_fence_re_fence (s : jsstring) :
  startsWith s fence = false -> first_match tagged_fence_re s = None.
Proof.
  intros H. unfold tagged_fence_re. cbn [first_match]. rewrite H.
  destruct (startsWith s (fence ++ js "json")) eqn:E; [|reflexivity].
  apply startsWith_prefix in E. congruence.
Qed.

Lemma fence_re_fence (s : jsstring) :
  startsWith s fence = false -> first_match fence_re s = None.
Proof. intros H. unfold fence_re. cbn [first_match]. now rewrite H. Qed.

Lemma spaces_no_fence (a : jsstring) :
  forallb is_js_space a = true -> includes a fence = false /\ last a 0%N <> 96%N.
Proof.
  induction a as [|c a IH]; intros H.
  - split; [reflexivity | simpl; discriminate].
  - simpl in H. apply andb_true_iff in H as [Hc Ha].
    destruct (IH Ha) as [Hin Hlast].
    assert (c <> 96%N) as Hne by (intros ->; discriminate).
    split.
    + change (includes (c :: a) fence)
        with (startsWith (c :: a) fence || includes a fence).
      rewrite Hin. now rewrite (startsWith_fence_head c a Hne).
    + destruct a as [|d a']; [exact Hne | exact Hlast].
Qed.

(** The two replacements leave a fence-free text between white space as it
    is. *)
Lemma remove_all_padded (pats : list jsstring) (a s b t : jsstring) :
  (forall x, startsWith x fence = false -> first_match pats x = None) ->
  forallb is_js_space a = true -> forallb is_js_space b = true ->
  includes s fence = false -> last s 0%N <> 96%N ->
  remove_all pats 0 (a ++ s ++ b ++ t) = a ++ s ++ b ++ remove_all pats 0 t.
Proof.
  intros Hp Ha Hb Hin Hlast.
  destruct (spaces_no_fence a Ha), (spaces_no_fence b Hb).
  now rewrite !(remove_all_keep pats Hp).
Qed.

Lemma startsWith_json_head (c : code_unit) (r : jsstring) :
  c <> 106%N -> startsWith (c :: r) (js "json") = false.
Proof.
  intros Hc. cbn -[N.eqb]. destruct (N.eqb_spec 106 c); [congruence | reflexivity].
Qed.

Lemma remove_all_0 (pats : list jsstring) (c : code_unit) (r : jsstring) :
  remove_all pats 0 (c :: r) =
  match first_match pats (c :: r) with
  | Some (S k) => remove_all pats k r
  | _ => c :: remove_all pats 0 r
  end.
Proof. reflexivity. Qed.

(** The opening fence goes, with its tag when it has one, and nothing of
    what follows, which does not start with "json". *)
Lemma remove_opening_fence (tag rest : jsstring) :
  tag = [] \/ tag = js "json" ->
  (tag = [] -> startsWith rest (js "json") = false) ->
  remove_all tagged_fence_re 0 (fence ++ tag ++ rest) =
  remove_all tagged_fence_re 0 rest.
Proof.
  intros [-> | ->] Hrest.
  - specialize (Hrest eq_refl). simpl app.
    assert (E : first_match tagged_fence_re (fence ++ rest) = Some 3%nat).
    { unfold tagged_fence_re. cbn [first_match].
      replace (startsWith (fence ++ rest) (fence ++ js "json"))
        with (startsWith rest (js "json")) by reflexivity.
      rewrite Hrest. now rewrite startsWith_app. }
    unfold fence in *. simpl app in *. rewrite remove_all_0, E. reflexivity.
  - reflexivity.
Qed.

(** ** [extractJsonFromString] *)

(** What is left of a fenced JSON text after the two replacements and the
    trim: the text itself, trimmed. *)
Lemma clean_fenced (content tag sep1 sep2 : jsstring) (v : Json) :
  JSON_parse content = Normal v ->
  includes content fence = false ->
  tag = [] \/ tag = js "json" ->
  forallb is_js_space sep1 = true -> forallb is_js_space sep2 = true ->
  clean (fence ++ tag ++ sep1 ++ content ++ sep2 ++ fence) = trim content.
Proof.
  intros Hparse Hin Htag H1 H2. unfold clean.
  pose proof (JSON_parse_last _ _ Hparse) as Hlast.
  rewrite remove_opening_fence; [|assumption|].
  - rewrite (remove_all_padded tagged_fence_re sep1 content sep2 fence
               tagged_fence_re_fence H1 H2 Hin Hlast).
    change (remove_all tagged_fence_re 0 fence) with (@nil code_unit).
    rewrite (remove_all_padded fence_re sep1 content sep2 []
               fence_re_fence H1 H2 Hin Hlast).
    simpl remove_all. rewrite app_nil_r. now apply trim_pad.
  - intros _. destruct sep1 as [|c sep1'].
    + destruct content as [|c r]; [now apply JSON_parse_nonempty in Hparse|].
      apply JSON_parse_head in Hparse as [Hj _].
      now apply startsWith_json_head.
    + simpl in H1. apply andb_true_iff in H1 as [Hc _].
      apply startsWith_json_head. intros ->. discriminate.
Qed.

(** C7, as the code has it. A JSON text with no three backticks in a row,
    put between an opening fence, with or without the tag "json", and a
    closing fence, with any white space between fences and text, is
    recovered as the value its own strict parse gives. *)
Theorem fenced_json_is_recovered
  (content tag sep1 sep2 : jsstring) (v : Json) :
  JSON_parse content = Normal v ->
  includes content fence = false ->
  tag = [] \/ tag = js "json" ->
  forallb is_js_space sep1 = true -> forallb is_js_space sep2 = true ->
  extractJsonFromString (VStr (fence ++ tag ++ sep1 ++ content ++ sep2 ++ fence))
  = Normal v.
Proof.
  intros Hparse Hin Htag H1 H2.
  unfold extractJsonFromString.
  change (truthy (VStr (fence ++ tag ++ sep1 ++ content ++ sep2 ++ fence)))
    with true.
  cbn [negb orb typeof JsType_eqb].
  cbv zeta.
  rewrite (clean_fenced content tag sep1 sep2 v Hparse Hin Htag H1 H2).
  now rewrite (JSON_parse_trim _ _ Hparse).
Qed.

(** A fenced answer as models write it, tag and line breaks included. *)
Lemma fenced_json_is_recovered_witness :
  extractJsonFromString
    (VStr (fence ++ js "json" ++ [10%N] ++ jsq "{'summary': 'ok'}" ++ [10%N] ++ fence))
  = Normal (JObj [(js "summary", JStr (js "ok"))]).
Proof.
  apply (fenced_json_is_recovered (jsq "{'summary': 'ok'}") (js "json") [10%N] [10%N]).
  - reflexivity.
  - reflexivity.
  - right. reflexivity.
  - reflexivity.
  - reflexivity.
Defined.

(** C7 as the specification states it fails on a JSON text that holds three
    backticks: they are taken for a fence and removed from the value. *)
Lemma fenced_json_with_backticks_differs :
  let content := jsq "{'a': '```'}" in
  let fenced := fence ++ js "json" ++ [10%N] ++ content ++ [10%N] ++ fence in
  JSON_parse content = Normal (JObj [(js "a", JStr fence)])
  /\ extractJsonFromString (VStr fenced) = Normal (JObj [(js "a", JStr [])])
  /\ extractJsonFromString (VStr fenced) <> JSON_parse content.
Proof.
  cbv zeta. repeat split; try reflexivity.
  vm_compute. discriminate.
Qed.

Lemma remove_all_In (pats : list jsstring) (c : code_unit) (s : jsstring) :
  forall k, In c (remove_all pats k s) -> In c s.
Proof.
  induction s as [|x r IH]; intros k H; [assumption|].
  destruct k as [|k].
  - rewrite remove_all_0 in H.
    destruct (first_match pats (x :: r)) as [[|j]|].
    + destruct H as [H|H]; [now left | right; eauto].
    + right. eauto.
    + destruct H as [H|H]; [now left | right; eauto].
  - right. simpl in H. eauto.
Qed.

Lemma clean_In (c : code_unit) (s : jsstring) : In c (clean s) -> In c s.
Proof.
  unfold clean. intros H.
  apply trim_In in H. apply remove_all_In in H. now apply remove_all_In in H.
Qed.

Lemma through_last_In (c : code_unit) (s p : jsstring) :
  through_last c s = Some p -> In c s.
Proof.
  revert p. induction s as [|x r IH]; intros p H; [discriminate|].
  simpl in H. destruct (through_last c r) as [q|].
  - right. eauto.
  - destruct (N.eqb_spec x c); [now left | discriminate].
Qed.

(** The salvage expression matches only a text with both braces in it. *)
Lemma match_braces_In (s m : jsstring) :
  match_braces s = Some m -> In 123%N s /\ In 125%N s.
Proof.
  revert m. induction s as [|x r IH]; intros m H; [discriminate|].
  simpl in H. destruct (N.eqb_spec x 123%N).
  - destruct (through_last 125%N r) as [p|] eqn:E; [|discriminate].
    apply through_last_In in E. subst x. split; [now left | now right].
  - destruct (IH _ H). split; now right.
Qed.

Lemma extractJsonFromString_not_string (s : JsVal) :
  (forall str, s = VStr str -> str = []) -> extractJsonFromString s = Normal JNull.
Proof.
  intros H. unfold extractJsonFromString.
  destruct s as [| |b|n|str|items|props|call]; simpl;
    try reflexivity; try now rewrite orb_true_r.
  rewrite (H str eq_refl). reflexivity.
Qed.

(** C8, as the code has it. [extractJsonFromString] throws on no input
    whatever; it returns [null] when the input is not a non-empty string and
    when neither the strict parse of the cleaned text nor the parse of its
    part from the first "{" to the last "}" succeeds. A text without "{" or
    without "}" gives [null] when the strict parse of its cleaned text fails
    (when it succeeds, as on "[1]", the parsed value is returned). *)
Theorem extractJsonFromString_never_throws (s : JsVal) :
  (exists j, extractJsonFromString s = Normal j)
  /\ ((forall str, s = VStr str -> str = []) ->
      extractJsonFromString s = Normal JNull)
  /\ (forall str, s = VStr str ->
        (forall v, JSON_parse (clean str) <> Normal v) ->
        (forall m v, match_braces (clean str) = Some m -> JSON_parse m <> Normal v) ->
        extractJsonFromString s = Normal JNull)
  /\ (forall str, s = VStr str ->
        ~ In 123%N str \/ ~ In 125%N str ->
        (forall v, JSON_parse (clean str) <> Normal v) ->
        extractJsonFromString s = Normal JNull).
Proof.
  assert (Hstr : forall c r,
    extractJsonFromString (VStr (c :: r)) =
    try_catch (JSON_parse (clean (c :: r))) (fun _ =>
      match match_braces (clean (c :: r)) with
      | None => Normal JNull
      | Some m => try_catch (JSON_parse m) (fun _ => Normal JNull)
      end)) by reflexivity.
  assert (Hsalvage : forall str,
    (forall v, JSON_parse (clean str) <> Normal v) ->
    (forall m v, match_braces (clean str) = Some m -> JSON_parse m <> Normal v) ->
    extractJsonFromString (VStr str) = Normal JNull).
  { intros [|c r] Hstrict Hbraces; [reflexivity|]. rewrite Hstr.
    destruct (JSON_parse (clean (c :: r))) as [v|e] eqn:E1;
      [now destruct (Hstrict v)|]. simpl.
    destruct (match_braces (clean (c :: r))) as [m|] eqn:E2; [|reflexivity].
    destruct (JSON_parse m) as [v|e'] eqn:E3; [|reflexivity].
    now destruct (Hbraces m v). }
  split; [|split; [|split]].
  - destruct s as [| |b|n|str|items|props|call];
      try (exists JNull; apply extractJsonFromString_not_string;
           intros ? ?; discriminate).
    destruct str as [|c r]; [now exists JNull|]. rewrite Hstr.
    destruct (JSON_parse (clean (c :: r))) as [v|e]; [now exists v|]. simpl.
    destruct (match_braces (clean (c :: r))) as [m|]; [|now exists JNull].
    destruct (JSON_parse m) as [v|e']; [now exists v | now exists JNull].
  - apply extractJsonFromString_not_string.
  - intros str -> Hstrict Hbraces. now apply Hsalvage.
  - intros str -> Hno Hstrict. apply Hsalvage; [assumption|].
    intros m v Hm _. apply match_braces_In in Hm as [Ho Hc].
    destruct Hno as [Hno|Hno]; apply Hno; now apply clean_In.
Qed.

(** The salvage: a JSON object between prose is recovered from the first
    brace to the last. *)
Lemma prose_around_json_is_salvaged :
  extractJsonFromString
    (VStr (jsq "Here is the summary: {'summary': 'Ok.'} I hope it helps!"))
  = Normal (JObj [(js "summary", JStr (js "Ok."))]).
Proof. reflexivity. Qed.

(** C8 as the specification states it fails on a text without braces that
    is JSON by itself: an array, a number, a string, [true] or [false]. *)
Lemma braceless_text_is_parsed :
  let text := js "[1]" in
  ~ In 123%N text /\ ~ In 125%N text
  /\ extractJsonFromString (VStr text) = Normal (JArr [JNum (Dec false 1 0)])
  /\ extractJsonFromString (VStr text) <> Normal JNull.
Proof.
  cbv zeta. repeat split.
  - vm_compute. intuition discriminate.
  - vm_compute. intuition discriminate.
  - vm_compute. discriminate.
Qed.

(** ** The PDF pipeline *)

Lemma str_eqb_refl (a : jsstring) : str_eqb a a = true.
Proof. unfold str_eqb. destruct (list_eq_dec N.eq_dec a a); congruence. Qed.

Lemma endsWith_app (x p : jsstring) : endsWith (x ++ p) p = true.
Proof. unfold endsWith. rewrite rev_app_distr. apply startsWith_app. Qed.

Lemma checked_summary_string (parsed : Json) (s : jsstring) :
  json_get parsed (js "summary") = Some (JStr s) -> s <> [] ->
  checked_summary parsed = Some (JStr s).
Proof.
  intros H Hs. unfold checked_summary.
  destruct parsed; try discriminate. simpl negb. simpl orb. cbv iota.
  rewrite H. destruct s; [congruence | reflexivity].
Qed.

Lemma checked_summary_none (parsed : Json) :
  (forall v, json_get parsed (js "summary") = Some v -> json_truthy v = false) ->
  checked_summary parsed = None.
Proof.
  intros H. unfold checked_summary.
  destruct (negb (json_truthy parsed)
            || negb (JsType_eqb (json_typeof parsed) TyObject)); [reflexivity|].
  destruct (json_get parsed (js "summary")) as [v|]; [|reflexivity].
  now rewrite (H v eq_refl).
Qed.

(** A text that fits one slice is its own single chunk. *)
Lemma chunkText_single (text : jsstring) :
  text <> [] -> (str_length text <= 24000)%Z -> chunkText text = [text].
Proof.
  intros Hne Hlen.
  assert (0 < str_length text)%Z
    by (destruct text; [congruence | unfold str_length; simpl; lia]).
  assert (chunk_count text = 1%nat) as Hcount.
  { unfold chunk_count, CHUNK_SIZE. apply Nat2Z.inj. rewrite Z2Nat.id.
    - change (Z.of_nat 1) with 1%Z. Z.div_mod_to_equations. lia.
    - apply Z.div_pos; lia. }
  rewrite chunkText_closed, Hcount. simpl. f_equal.
  unfold chunk_at. simpl Z.mul. simpl Z.add.
  rewrite slice_prefix by (unfold CHUNK_SIZE; lia).
  apply firstn_all2. unfold str_length, CHUNK_SIZE in *. lia.
Qed.

Section PdfPipeline.
Variable JSON_stringify : JsVal -> Completion JsVal.
Variable toLowerCase : jsstring -> jsstring.
Variable pdf : Buffer -> Completion (option PdfData).
Variable generateContent : Log -> ModelInput -> Completion JsVal.

Local Abbreviation text_of := (promiseTextFromResponse JSON_stringify).
Local Abbreviation loop := (summarizeChunks JSON_stringify generateContent).
Local Abbreviation combine := (combineSummaries JSON_stringify generateContent).
Local Abbreviation summarize := (summarizeText JSON_stringify generateContent).
Local Abbreviation run := (processPdf JSON_stringify toLowerCase pdf generateContent).
Local Abbreviation summarized := (chunks_summarized JSON_stringify generateContent).
Local Abbreviation calls := (map (fun chunk => EvGenerate (chunkInput chunk))).

(** One round of the loop on a chunk whose answer is rejected. *)
Lemma loop_rejects (bad : jsstring) (rest acc : list jsstring) (log : Log)
  (response textOut : JsVal) (parsed : Json) :
  generateContent log (chunkInput bad) = Normal response ->
  text_of response = Normal textOut ->
  extractJsonFromString textOut = Normal parsed ->
  checked_summary parsed = None ->
  loop (bad :: rest) acc log =
  (Normal (inl (chunk_failure textOut)), log ++ [EvGenerate (chunkInput bad)]).
Proof.
  intros Hgen Htext Hparsed Hcheck. simpl.
  unfold bind, await_generateContent, lift, ret.
  now rewrite Hgen, Htext, Hparsed, Hcheck.
Qed.

(** The rounds of the loop on chunks that are answered with a summary. *)
Lemma loop_summarized (log : Log) (done sums : list jsstring) :
  summarized log done sums ->
  forall more acc,
    loop (done ++ more) acc log = loop more (acc ++ sums) (log ++ calls done).
Proof.
  induction 1 as [log|log chunk rest response textOut parsed s sums
                    Hgen Htext Hparsed Hget Hs Hrest IH]; intros more acc.
  - simpl. now rewrite !app_nil_r.
  - simpl. unfold bind at 1. unfold await_generateContent. rewrite Hgen.
    unfold bind at 1. unfold lift at 1. rewrite Htext.
    unfold bind at 1. unfold lift at 1. rewrite Hparsed.
    rewrite (checked_summary_string _ _ Hget Hs).
    unfold bind at 1. unfold lift at 1. simpl call_trim. cbv iota beta.
    rewrite IH. now rewrite <- !app_assoc.
Qed.

Section AcceptedUpload.
Variable req : Request.
Variable f : File.
Variable data : option PdfData.
Variable log : Log.
Hypothesis Hfile : file req = Some f.
Hypothesis Hpdf :
  mimetype f = Some (js "application/pdf")
  \/ exists name, originalname f = Some name
                  /\ endsWith (toLowerCase name) (js ".pdf") = true.
Hypothesis Hsize : (size f <= 10 * 1024 * 1024)%Z.
Hypothesis Hdata : pdf (buffer f) = Normal data.

(** Past the checks of the upload and the extraction of the text. *)
Lemma processPdf_extracted :
  run req log =
  if is_empty (trim (text_or_empty data))
  then (Normal no_text_failure, log ++ [EvPdf (buffer f)])
  else catch (summarize (trim (text_or_empty data))) processPdf_catch
         (log ++ [EvPdf (buffer f)]).
Proof.
  unfold processPdf, processPdf_try. rewrite Hfile.
  assert (option_str_eqb (mimetype f) (js "application/pdf")
          || match originalname f with
             | Some name => endsWith (toLowerCase name) (js ".pdf")
             | None => false
             end = true) as ->.
  { destruct Hpdf as [-> | [name [-> ->]]].
    - unfold option_str_eqb. now rewrite str_eqb_refl.
    - apply orb_true_r. }
  simpl negb. cbv iota.
  destruct (Z.gtb_spec (size f) (10 * 1024 * 1024)) as [|_]; [lia|].
  unfold catch, bind, await_pdf. rewrite Hdata.
  destruct (is_empty (trim (text_or_empty data))); reflexivity.
Qed.

(** C9. When the text extracted from the PDF is empty or white space
    only, [processPdf] answers 422 "No selectable text found" right after
    the extraction: no model call is made for the request. *)
Theorem empty_text_short_circuits :
  trim (text_or_empty data) = [] ->
  run req log = (Normal no_text_failure, log ++ [EvPdf (buffer f)])
  /\ forall input, In (EvGenerate input) (snd (run req log)) ->
                   In (EvGenerate input) log.
Proof.
  intros Hempty. rewrite processPdf_extracted, Hempty. simpl is_empty. cbv iota.
  split; [reflexivity|].
  intros input Hin. simpl in Hin. apply in_app_or in Hin as [Hin|Hin]; [assumption|].
  destruct Hin as [Hin|[]]. discriminate.
Qed.

(** C3. When the extracted text makes exactly one chunk and the model's
    answer to it holds a non-empty string under [summary], [processPdf]
    makes that one model call and no combine call, and answers 200 with a
    body that holds, under [summary] and with nothing beside it, the chunk's
    own summary, trimmed as it is stored, under the length cap. *)
Theorem single_chunk_skips_combine
  (response textOut : JsVal) (parsed : Json) (s : jsstring) :
  let text := trim (text_or_empty data) in
  length (chunkText text) = 1%nat ->
  generateContent (log ++ [EvPdf (buffer f)]) (chunkInput text) = Normal response ->
  text_of response = Normal textOut ->
  extractJsonFromString textOut = Normal parsed ->
  json_get parsed (js "summary") = Some (JStr s) ->
  s <> [] ->
  run req log =
  (Normal {| status := 200; body := [("summary", BStr (capSummary (trim s)))] |},
   log ++ [EvPdf (buffer f); EvGenerate (chunkInput text)]).
Proof.
  intros text Hone Hgen Htext Hparsed Hget Hs.
  assert (Hchunks : chunkText text = [text]).
  { pose proof (chunkText_concat text) as Hcat.
    destruct (chunkText text) as [|chunk [|? ?]]; try discriminate.
    simpl in Hcat. rewrite app_nil_r in Hcat. now subst chunk. }
  rewrite processPdf_extracted. fold text.
  destruct text as [|c r] eqn:Etext; [discriminate|]. rewrite <- Etext in *.
  replace (is_empty text) with false by (rewrite Etext; reflexivity).
  unfold catch, summarizeText. rewrite Hchunks.
  unfold bind at 1.
  assert (summarized (log ++ [EvPdf (buffer f)]) [text] [trim s]) as Hsum.
  { econstructor; try eassumption. constructor. }
  pose proof (loop_summarized _ _ _ Hsum [] []) as Hloop.
  rewrite app_nil_r in Hloop. rewrite Hloop.
  cbn -[capSummary trim chunkInput]. unfold ret.
  rewrite <- app_assoc. reflexivity.
Qed.

(** C4, as the code has it. When the chunks before chunk [bad] are each
    answered with a summary and the answer to [bad] is rejected (the
    recovered value is [null], is no object, or has no truthy [summary]),
    [processPdf] stops at once with the 500 response "Failed to parse Gemini
    summary for a PDF chunk." that carries the raw text of that answer: the
    calls made are those for the chunks up to [bad], none for a later chunk
    and no combine call. The response holds no chunk number. *)
Theorem failing_chunk_aborts
  (done rest sums : list jsstring) (bad : jsstring)
  (response textOut : JsVal) (parsed : Json) :
  let text := trim (text_or_empty data) in
  text <> [] ->
  chunkText text = done ++ bad :: rest ->
  summarized (log ++ [EvPdf (buffer f)]) done sums ->
  generateContent (log ++ [EvPdf (buffer f)] ++ calls done) (chunkInput bad)
    = Normal response ->
  text_of response = Normal textOut ->
  extractJsonFromString textOut = Normal parsed ->
  (forall v, json_get parsed (js "summary") = Some v -> json_truthy v = false) ->
  run req log =
  (Normal (chunk_failure textOut),
   log ++ [EvPdf (buffer f)] ++ calls (done ++ [bad])).
Proof.
  intros text Hne Hchunks Hdone Hgen Htext Hparsed Hbad.
  rewrite processPdf_extracted. fold text.
  destruct text as [|c r] eqn:Etext; [congruence|]. rewrite <- Etext in *.
  replace (is_empty text) with false by (rewrite Etext; reflexivity).
  unfold catch, summarizeText. rewrite Hchunks.
  unfold bind at 1.
  rewrite (loop_summarized _ _ _ Hdone (bad :: rest) []).
  rewrite <- app_assoc.
  rewrite (loop_rejects bad rest _ _ response textOut parsed Hgen Htext Hparsed
             (checked_summary_none _ Hbad)).
  unfold ret. rewrite map_app. simpl. now rewrite <- !app_assoc.
Qed.

Lemma summarized_length (log0 : Log) (chunks sums : list jsstring) :
  summarized log0 chunks sums -> length sums = length chunks.
Proof. induction 1; simpl; congruence. Qed.

(** X6. The reduction of several chunks: after the chunk calls comes one call
    with the combine prompt and the summaries, in the order of their
    chunks, joined by a blank line; the answer is 200 with a body that holds,
    under [summary] and with nothing beside it, the summary of that call,
    trimmed and capped. *)
Lemma several_chunks_are_combined
  (sums : list jsstring) (response textOut : JsVal) (parsed : Json) (s : jsstring) :
  let text := trim (text_or_empty data) in
  let joined := join [10; 10]%N sums in
  text <> [] ->
  summarized (log ++ [EvPdf (buffer f)]) (chunkText text) sums ->
  (1 < length sums)%nat ->
  generateContent (log ++ [EvPdf (buffer f)] ++ calls (chunkText text))
    (combineInput joined) = Normal response ->
  text_of response = Normal textOut ->
  extractJsonFromString textOut = Normal parsed ->
  json_get parsed (js "summary") = Some (JStr s) ->
  s <> [] ->
  run req log =
  (Normal {| status := 200; body := [("summary", BStr (capSummary (trim s)))] |},
   log ++ [EvPdf (buffer f)] ++ calls (chunkText text)
       ++ [EvGenerate (combineInput joined)]).
Proof.
  intros text joined Hne Hsum Hmany Hgen Htext Hparsed Hget Hs.
  rewrite processPdf_extracted. fold text.
  destruct text as [|c r] eqn:Etext; [congruence|]. rewrite <- Etext in *.
  replace (is_empty text) with false by (rewrite Etext; reflexivity).
  unfold catch, summarizeText. unfold bind at 1.
  pose proof (loop_summarized _ _ _ Hsum [] []) as Hloop.
  rewrite app_nil_r in Hloop. rewrite Hloop.
  cbn [summarizeChunks app]. unfold ret at 1. unfold combineSummaries.
  replace (1 <? Z.of_nat (length sums))%Z with true
    by (symmetry; apply Z.ltb_lt; lia).
  fold joined. unfold bind, await_generateContent, lift, ret.
  rewrite <- app_assoc, Hgen, Htext, Hparsed.
  rewrite (checked_summary_string _ _ Hget Hs). simpl call_trim. cbv iota beta.
  now rewrite <- !app_assoc.
Qed.

End AcceptedUpload.
End PdfPipeline.

(** A PDF whose text is three spaces: 422, and the extraction is the only
    call. *)
Lemma empty_text_short_circuits_witness :
  example_processPdf (js "   ") [] =
  (Normal no_text_failure, [EvPdf (buffer example_pdf_file)]).
Proof.
  refine (proj1 (empty_text_short_circuits
            example_stringify example_toLowerCase (example_pdf (js "   "))
            (example_model []) {| file := Some example_pdf_file |}
            example_pdf_file (Some {| pdf_text := Some (js "   ") |}) []
            _ _ _ _ _)).
  - reflexivity.
  - left. reflexivity.
  - vm_compute. discriminate.
  - reflexivity.
  - reflexivity.
Defined.

(** A short PDF: one chunk call, and its summary is the answer. *)
Lemma single_chunk_skips_combine_witness :
  example_processPdf (js " Some text. ") [jsq "{'summary': ' A summary. '}"] =
  (Normal {| status := 200; body := [("summary", BStr (js "A summary."))] |},
   [EvPdf (buffer example_pdf_file); EvGenerate (chunkInput (js "Some text."))]).
Proof.
  refine (single_chunk_skips_combine
            example_stringify example_toLowerCase (example_pdf (js " Some text. "))
            (example_model [jsq "{'summary': ' A summary. '}"])
            {| file := Some example_pdf_file |}
            example_pdf_file (Some {| pdf_text := Some (js " Some text. ") |}) []
            _ _ _ _
            (example_response (jsq "{'summary': ' A summary. '}"))
            (VStr (jsq "{'summary': ' A summary. '}"))
            (JObj [(js "summary", JStr (js " A summary. "))])
            (js " A summary. ") _ _ _ _ _ _).
  - reflexivity.
  - left. reflexivity.
  - vm_compute. discriminate.
  - reflexivity.
  - reflexivity.
  - reflexivity.
  - reflexivity.
  - reflexivity.
  - reflexivity.
  - discriminate.
Defined.

Lemma nonempty_by_test (s : jsstring) : is_empty s = false -> s <> [].
Proof. intros H ->. discriminate. Qed.

(** Three chunks, the second answered with an empty summary: the run stops
    after the second chunk call. *)
Lemma failing_chunk_aborts_witness :
  let ok := jsq "{'summary': 'Fine.'}" in
  let bad := jsq "{'summary': ''}" in
  let chunk1 := slice example_long_text 0 24000 in
  let chunk2 := slice example_long_text 24000 48000 in
  example_processPdf example_long_text [ok; bad] =
  (Normal (chunk_failure (VStr bad)),
   [EvPdf (buffer example_pdf_file);
    EvGenerate (chunkInput chunk1); EvGenerate (chunkInput chunk2)]).
Proof.
  cbv zeta.
  refine (failing_chunk_aborts
            example_stringify example_toLowerCase (example_pdf example_long_text)
            (example_model [jsq "{'summary': 'Fine.'}"; jsq "{'summary': ''}"])
            {| file := Some example_pdf_file |}
            example_pdf_file (Some {| pdf_text := Some example_long_text |}) []
            _ _ _ _
            [slice example_long_text 0 24000]
            [slice example_long_text 48000 72000]
            [trim (js "Fine.")]
            (slice example_long_text 24000 48000)
            (example_response (jsq "{'summary': ''}"))
            (VStr (jsq "{'summary': ''}"))
            (JObj [(js "summary", JStr [])])
            _ _ _ _ _ _ _).
  - reflexivity.
  - left. reflexivity.
  - vm_compute. discriminate.
  - reflexivity.
  - apply nonempty_by_test. vm_cast_no_check (eq_refl false).
  - vm_cast_no_check (eq_refl (chunkText example_long_text)).
  - apply summarized_cons
      with (response := example_response (jsq "{'summary': 'Fine.'}"))
           (textOut := VStr (jsq "{'summary': 'Fine.'}"))
           (parsed := JObj [(js "summary", JStr (js "Fine."))])
           (s := js "Fine.").
    + reflexivity.
    + reflexivity.
    + reflexivity.
    + reflexivity.
    + discriminate.
    + constructor.
  - reflexivity.
  - reflexivity.
  - reflexivity.
  - intros v Hv. vm_compute in Hv. inversion Hv. reflexivity.
Defined.

(** C4 as the specification states it fails on what the failure tells: the
    response to a rejected chunk is the same whether the second or the third
    of three chunks was rejected, so it does not say which one failed. *)
Lemma chunk_failure_names_no_chunk :
  let ok := jsq "{'summary': 'Fine.'}" in
  let bad := js "I cannot summarize this." in
  let second_fails := example_processPdf example_long_text [ok; bad] in
  let third_fails := example_processPdf example_long_text [ok; ok; bad] in
  length (chunkText example_long_text) = 3%nat
  /\ length (filter is_generate (snd second_fails)) = 2%nat
  /\ length (filter is_generate (snd third_fails)) = 3%nat
  /\ fst second_fails = Normal (chunk_failure (VStr bad))
  /\ fst third_fails = fst second_fails.
Proof.
  cbv zeta. vm_compute. auto.
Qed.

(** C5: what the code does where the claim fails. A chunk summary that is
    white space only passes the test [!parsed.summary] and is stored and
    returned as the empty string, with status 200; a summary that is a
    number passes it too and ends in the TypeError of [.trim()], caught as
    "Failed to process PDF.". *)
Lemma blank_summary_is_accepted :
  example_processPdf (js "Some text.") [jsq "{'summary': '   '}"] =
  (Normal (summary_response []),
   [EvPdf (buffer example_pdf_file); EvGenerate (chunkInput (js "Some text."))])
  /\ fst (example_processPdf (js "Some text.") [jsq "{'summary': 5}"]) =
     Normal (respond 500
               [("error", BStr (js "Failed to process PDF."));
                ("details", BStr (js "parsed.summary.trim is not a function"))]).
Proof.
  split; vm_compute; reflexivity.
Qed.

(** The sibling path: [processImage] trims before it tests, and rejects a
    field that is white space only. *)
Lemma image_blank_title_is_rejected :
  fst (example_processImage [jsq "{'title': '   ', 'description': 'A cat.'}"]) =
  Normal (invalid_keys_failure
            (JObj [(js "title", JStr (js "   "));
                   (js "description", JStr (js "A cat."))])).
Proof. vm_compute. reflexivity. Qed.

(** ** The log only grows *)

Lemma appends_ret {A} (a : A) : appends (ret a).
Proof. intros log. exists []. simpl. now rewrite app_nil_r. Qed.

Lemma appends_lift {A} (c : Completion A) : appends (lift c).
Proof. intros log. exists []. simpl. now rewrite app_nil_r. Qed.

Lemma appends_bind {A B} (m : M A) (k : A -> M B) :
  appends m -> (forall a, appends (k a)) -> appends (bind m k).
Proof.
  intros Hm Hk log. unfold bind. destruct (Hm log) as [more Hmore].
  destruct (m log) as [[a|e] log']; simpl in Hmore; subst log'.
  - destruct (Hk a (log ++ more)) as [more' Hmore'].
    exists (more ++ more'). now rewrite Hmore', app_assoc.
  - now exists more.
Qed.

Lemma appends_catch {A} (m : M A) (h : JsError -> M A) :
  appends m -> (forall e, appends (h e)) -> appends (catch m h).
Proof.
  intros Hm Hh log. unfold catch. destruct (Hm log) as [more Hmore].
  destruct (m log) as [[a|e] log']; simpl in Hmore; subst log'.
  - now exists more.
  - destruct (Hh e (log ++ more)) as [more' Hmore'].
    exists (more ++ more'). now rewrite Hmore', app_assoc.
Qed.

Section PdfUploadGate.
Variable JSON_stringify : JsVal -> Completion JsVal.
Variable toLowerCase : jsstring -> jsstring.
Variable pdf : Buffer -> Completion (option PdfData).
Variable generateContent : Log -> ModelInput -> Completion JsVal.

Local Abbreviation run := (processPdf JSON_stringify toLowerCase pdf generateContent).

Lemma appends_await_generateContent (input : ModelInput) :
  appends (await_generateContent generateContent input).
Proof. intros log. now exists [EvGenerate input]. Qed.

Lemma appends_summarizeChunks (chunks : list jsstring) :
  forall acc, appends (summarizeChunks JSON_stringify generateContent chunks acc).
Proof.
  induction chunks as [|chunk rest IH]; intros acc; simpl.
  - apply appends_ret.
  - apply appends_bind; [apply appends_await_generateContent|]. intros response.
    apply appends_bind; [apply appends_lift|]. intros textOut.
    apply appends_bind; [apply appends_lift|]. intros parsed.
    destruct (checked_summary parsed); [|apply appends_ret].
    apply appends_bind; [apply appends_lift|]. intros trimmed. apply IH.
Qed.

Lemma appends_combineSummaries (chunkSummaries : list jsstring) :
  appends (combineSummaries JSON_stringify generateContent chunkSummaries).
Proof.
  unfold combineSummaries.
  destruct (1 <? Z.of_nat (length chunkSummaries))%Z; [|apply appends_ret].
  apply appends_bind; [apply appends_await_generateContent|]. intros response.
  apply appends_bind; [apply appends_lift|]. intros textOut.
  apply appends_bind; [apply appends_lift|]. intros parsed.
  destruct (checked_summary parsed); [|apply appends_ret].
  apply appends_bind; [apply appends_lift|]. intros trimmed. apply appends_ret.
Qed.

Lemma appends_summarizeText (text : jsstring) :
  appends (summarizeText JSON_stringify generateContent text).
Proof.
  unfold summarizeText. apply appends_bind; [apply appends_summarizeChunks|].
  intros [response|chunkSummaries]; [apply appends_ret|].
  apply appends_combineSummaries.
Qed.

(** A handler that starts with the extraction has it first in its log. *)
Lemma extraction_logged {A} (b : Buffer) (k : option PdfData -> M A)
  (h : JsError -> M A) (log : Log) :
  (forall data, appends (k data)) -> (forall e, appends (h e)) ->
  exists rest, snd (catch (bind (await_pdf pdf b) k) h log) = log ++ EvPdf b :: rest.
Proof.
  intros Hk Hh. unfold catch, bind, await_pdf.
  destruct (pdf b) as [data|e].
  - destruct (Hk data (log ++ [EvPdf b])) as [more Hmore].
    destruct (k data (log ++ [EvPdf b])) as [[a|e] log'];
      simpl in Hmore; subst log'.
    + exists more. simpl. now rewrite <- app_assoc.
    + destruct (Hh e ((log ++ [EvPdf b]) ++ more)) as [more' ->].
      exists (more ++ more'). now rewrite <- !app_assoc.
  - destruct (Hh e (log ++ [EvPdf b])) as [more ->].
    exists more. now rewrite <- app_assoc.
Qed.

(** What [toLowerCase] does to ASCII at the end of a string: each letter is
    lowered in place, whatever becomes of the code units before. *)
Hypothesis toLowerCase_ascii_suffix :
  forall x y, forallb is_ascii y = true ->
  exists x', toLowerCase (x ++ y) = x' ++ map ascii_lower y.

Lemma ascii_lower_ascii (ext low : jsstring) :
  map ascii_lower ext = low -> forallb is_ascii low = true ->
  forallb is_ascii ext = true.
Proof.
  revert low. induction ext as [|c ext IH]; intros low Hmap Hlow; [reflexivity|].
  destruct low as [|k low]; [discriminate|]. simpl in Hmap.
  injection Hmap as Hc Hext. simpl in Hlow.
  apply andb_true_iff in Hlow as [Hk Hlow].
  simpl. rewrite (IH low Hext Hlow), andb_true_r.
  unfold ascii_lower, is_ascii in *.
  destruct ((65 <=? c) && (c <=? 90))%N eqn:E.
  - apply andb_true_iff in E as [_ E]. apply N.leb_le in E. apply N.ltb_lt. lia.
  - now subst k.
Qed.

(** C10. A file whose name ends in ".pdf", in any mix of upper and lower
    case, is not turned away as a non-PDF whatever its declared mime type:
    the run is not the "Uploaded file is not a PDF." rejection; a file over
    10 MiB gets the 413 response of the size check, and any other goes on to
    the text extraction, which is the first call the run makes. *)
Theorem pdf_extension_bypasses_mime_check
  (req : Request) (f : File) (stem ext : jsstring) (log : Log) :
  file req = Some f ->
  originalname f = Some (stem ++ ext) ->
  map ascii_lower ext = js ".pdf" ->
  run req log <> (Normal not_a_pdf_failure, log)
  /\ ((size f > 10 * 1024 * 1024)%Z ->
      run req log = (Normal pdf_too_large_failure, log))
  /\ ((size f <= 10 * 1024 * 1024)%Z ->
      exists rest, snd (run req log) = log ++ EvPdf (buffer f) :: rest).
Proof.
  intros Hfile Hname Hext.
  assert (Hgate : endsWith (toLowerCase (stem ++ ext)) (js ".pdf") = true).
  { destruct (toLowerCase_ascii_suffix stem ext) as [x' ->].
    - now apply (ascii_lower_ascii ext (js ".pdf")).
    - rewrite Hext. apply endsWith_app. }
  assert (Hlarge : (size f > 10 * 1024 * 1024)%Z ->
                   run req log = (Normal pdf_too_large_failure, log)).
  { intros Hsize. unfold processPdf, catch, processPdf_try.
    rewrite Hfile, Hname, Hgate, orb_true_r. simpl negb. cbv iota.
    destruct (Z.gtb_spec (size f) (10 * 1024 * 1024)); [reflexivity | lia]. }
  assert (Hsmall : (size f <= 10 * 1024 * 1024)%Z ->
                   exists rest, snd (run req log) = log ++ EvPdf (buffer f) :: rest).
  { intros Hsize. unfold processPdf, processPdf_try.
    rewrite Hfile, Hname, Hgate, orb_true_r. simpl negb. cbv iota.
    destruct (Z.gtb_spec (size f) (10 * 1024 * 1024)); [lia|].
    apply extraction_logged.
    - intros data. destruct (is_empty (trim (text_or_empty data)));
        [apply appends_ret | apply appends_summarizeText].
    - intros e. apply appends_ret. }
  split; [|split]; [|assumption|assumption].
  destruct (Z.le_gt_cases (size f) (10 * 1024 * 1024)) as [Hle|Hgt].
  - destruct (Hsmall Hle) as [rest Hrest]. intros Heq. rewrite Heq in Hrest.
    simpl in Hrest. apply (f_equal (@length Event)) in Hrest.
    rewrite length_app in Hrest. simpl in Hrest. lia.
  - rewrite (Hlarge ltac:(lia)). discriminate.
Qed.

End PdfUploadGate.

Lemma example_toLowerCase_ascii_suffix (x y : jsstring) :
  forallb is_ascii y = true ->
  exists x', example_toLowerCase (x ++ y) = x' ++ map ascii_lower y.
Proof.
  intros _. exists (example_toLowerCase x). apply map_app.
Qed.

(** "Report.PDF" declared as application/octet-stream is extracted. *)
Lemma pdf_extension_bypasses_mime_check_witness :
  let f := {| buffer := [37; 80; 68; 70]%N;
              mimetype := Some (js "application/octet-stream");
              originalname := Some (js "Report.PDF");
              size := 4 |} in
  mimetype f <> Some (js "application/pdf")
  /\ exists rest,
       snd (processPdf example_stringify example_toLowerCase
              (example_pdf (js "Some text.")) (example_model [])
              {| file := Some f |} []) = [] ++ EvPdf (buffer f) :: rest.
Proof.
  cbv zeta. split; [discriminate|].
  refine (proj2 (proj2 (pdf_extension_bypasses_mime_check
            example_stringify example_toLowerCase
            (example_pdf (js "Some text.")) (example_model [])
            example_toLowerCase_ascii_suffix
            {| file := Some _ |} _ (js "Report") (js ".PDF") [] _ _ _)) _).
  - reflexivity.
  - reflexivity.
  - reflexivity.
  - vm_compute. discriminate.
Defined.

(** ** The image pipeline *)

Lemma trimmed_field_string (parsed : Json) (k : string) (s : jsstring) :
  json_get parsed (js k) = Some (JStr s) -> trim s <> [] ->
  trimmed_field parsed k = Some (trim s) /\ is_blank (Some (trim s)) = false.
Proof.
  intros Hget Hs. unfold trimmed_field. rewrite Hget.
  destruct s as [|c r]; [now destruct Hs|]. split; [reflexivity|].
  simpl is_blank. destruct (trim (c :: r)); [now destruct Hs | reflexivity].
Qed.

Lemma trimmed_field_blank (parsed : Json) (k : string) :
  (forall s, json_get parsed (js k) = Some (JStr s) -> trim s = []) ->
  is_blank (trimmed_field parsed k) = true.
Proof.
  intros H. unfold trimmed_field.
  destruct (json_get parsed (js k)) as [[| | |s| |]|]; try reflexivity.
  destruct s as [|c r]; [reflexivity|]. simpl. now rewrite (H (c :: r) eq_refl).
Qed.

Section ImagePipeline.
Variable JSON_stringify : JsVal -> Completion JsVal.
Variable base64 : Buffer -> jsstring.
Variable generateContent : Log -> ModelInput -> Completion JsVal.

Local Abbreviation run := (processImage JSON_stringify base64 generateContent).

(** C6. Once the model's answer to an image is recovered as an object (or
    an array), [processImage] answers 200 with a body of the two fields
    [title] and [description], both trimmed, when they are both strings that
    trim to non-empty, and 500 "required keys are missing or invalid", with
    the recovered value under [geminiJson], when either of them is missing,
    is no string or trims to nothing: one good field alone is a failure. So
    [{"title": "x"}] is rejected and
    [{"title": " x ", "description": " y "}] comes back as "x" and "y". *)
Theorem image_artifact_validation
  (req : Request) (f : File) (mime : jsstring) (log : Log)
  (response textOut : JsVal) (parsed : Json) :
  file req = Some f ->
  mimetype f = Some mime ->
  startsWith mime (js "image/") = true ->
  (size f <= 10 * 1024 * 1024)%Z ->
  generateContent log (imageInput base64 (buffer f) mime) = Normal response ->
  promiseTextFromResponse JSON_stringify response = Normal textOut ->
  extractJsonFromString textOut = Normal parsed ->
  json_truthy parsed = true ->
  json_typeof parsed = TyObject ->
  let result := fst (run req log) in
  (forall t d,
      json_get parsed (js "title") = Some (JStr t) ->
      json_get parsed (js "description") = Some (JStr d) ->
      trim t <> [] -> trim d <> [] ->
      result = Normal {| status := 200;
                         body := [("title", BStr (trim t));
                                  ("description", BStr (trim d))] |})
  /\ ((forall t, json_get parsed (js "title") = Some (JStr t) -> trim t = [])
      \/ (forall d, json_get parsed (js "description") = Some (JStr d) -> trim d = []) ->
      result = Normal {| status := 500;
                         body := [("error", BStr (js
                           "Gemini returned JSON but required keys are missing or invalid."));
                                  ("geminiJson", BJson parsed)] |})
  /\ (textOut = VStr (jsq "{'title': 'x'}") ->
      result = Normal {| status := 500;
                         body := [("error", BStr (js
                           "Gemini returned JSON but required keys are missing or invalid."));
                                  ("geminiJson",
                                   BJson (JObj [(js "title", JStr (js "x"))]))] |})
  /\ (textOut = VStr (jsq "{'title': ' x ', 'description': ' y '}") ->
      result = Normal {| status := 200;
                         body := [("title", BStr (js "x"));
                                  ("description", BStr (js "y"))] |}).
Proof.
  intros Hfile Hmime Himage Hsize Hgen Htext Hparsed Htruthy Htype result.
  assert (Hrun : result =
    Normal (if is_blank (trimmed_field parsed "title")
               || is_blank (trimmed_field parsed "description")
            then invalid_keys_failure parsed
            else match trimmed_field parsed "title",
                       trimmed_field parsed "description" with
                 | Some t, Some d => image_response t d
                 | _, _ => invalid_keys_failure parsed
                 end)).
  { subst result. unfold processImage, catch, processImage_try.
    rewrite Hfile, Hmime, Himage. cbn [negb].
    destruct (Z.gtb_spec (size f) MAX_BYTES) as [Hgt|_];
      [unfold MAX_BYTES in Hgt; lia|].
    unfold bind, await_generateContent, lift.
    rewrite Hgen, Htext, Hparsed, Htruthy, Htype. cbn [negb orb JsType_eqb].
    destruct (is_blank (trimmed_field parsed "title")
              || is_blank (trimmed_field parsed "description")); [reflexivity|].
    destruct (trimmed_field parsed "title"), (trimmed_field parsed "description");
      reflexivity. }
  assert (Haccept : forall t d,
      json_get parsed (js "title") = Some (JStr t) ->
      json_get parsed (js "description") = Some (JStr d) ->
      trim t <> [] -> trim d <> [] ->
      result = Normal (image_response (trim t) (trim d))).
  { intros t d Ht Hd Htne Hdne. rewrite Hrun.
    destruct (trimmed_field_string parsed "title" t Ht Htne) as [-> ->].
    destruct (trimmed_field_string parsed "description" d Hd Hdne) as [-> ->].
    reflexivity. }
  assert (Hreject :
      (forall t, json_get parsed (js "title") = Some (JStr t) -> trim t = [])
      \/ (forall d, json_get parsed (js "description") = Some (JStr d) -> trim d = []) ->
      result = Normal (invalid_keys_failure parsed)).
  { intros [H|H]; rewrite Hrun, (trimmed_field_blank _ _ H);
      [reflexivity | now rewrite orb_true_r]. }
  split; [exact Haccept|]. split; [exact Hreject|]. split.
  - intros ->. vm_compute in Hparsed. injection Hparsed as <-.
    apply Hreject. right. intros d Hd. vm_compute in Hd. discriminate.
  - intros ->. vm_compute in Hparsed. injection Hparsed as <-.
    apply (Haccept (js " x ") (js " y ")); vm_compute; congruence.
Qed.

End ImagePipeline.

(** An answer with both fields padded by spaces comes back trimmed. *)
Lemma image_artifact_validation_witness :
  fst (example_processImage [jsq "{'title': ' A cat ', 'description': ' It sleeps. '}"])
  = Normal {| status := 200;
              body := [("title", BStr (trim (js " A cat ")));
                       ("description", BStr (trim (js " It sleeps. ")))] |}.
Proof.
  refine (proj1 (image_artifact_validation
            example_stringify example_base64
            (example_model [jsq "{'title': ' A cat ', 'description': ' It sleeps. '}"])
            {| file := Some example_image_file |} example_image_file
            (js "image/png") []
            (example_response (jsq "{'title': ' A cat ', 'description': ' It sleeps. '}"))
            (VStr (jsq "{'title': ' A cat ', 'description': ' It sleeps. '}"))
            (JObj [(js "title", JStr (js " A cat "));
                   (js "description", JStr (js " It sleeps. "))])
            _ _ _ _ _ _ _ _ _) (js " A cat ") (js " It sleeps. ") _ _ _ _).
  - reflexivity.
  - reflexivity.
  - reflexivity.
  - vm_compute. discriminate.
  - reflexivity.
  - reflexivity.
  - reflexivity.
  - reflexivity.
  - reflexivity.
  - reflexivity.
  - reflexivity.
  - vm_compute. discriminate.
  - vm_compute. discriminate.
Defined.

(* ================================================================== *)
(** * Part III: the rest of the handlers, and the page *)
(* ================================================================== *)

(** ** [processPdf]: what is refused, what is called, what is answered *)

Section PdfRuns.
Variable JSON_stringify : JsVal -> Completion JsVal.
Variable toLowerCase : jsstring -> jsstring.
Variable pdf : Buffer -> Completion (option PdfData).
Variable generateContent : Log -> ModelInput -> Completion JsVal.

Local Abbreviation text_of := (promiseTextFromResponse JSON_stringify).
Local Abbreviation loop := (summarizeChunks JSON_stringify generateContent).
Local Abbreviation combine := (combineSummaries JSON_stringify generateContent).
Local Abbreviation summarize := (summarizeText JSON_stringify generateContent).
Local Abbreviation run := (processPdf JSON_stringify toLowerCase pdf generateContent).
Local Abbreviation summarized := (chunks_summarized JSON_stringify generateContent).
Local Abbreviation calls := (map (fun chunk => EvGenerate (chunkInput chunk))).
Local Abbreviation failed := (fun e : JsError =>
  respond 500 [("error", BStr (js "Failed to process PDF."));
               ("details", BStr (error_details e))]).

(** X1. An upload is turned away before anything is called: with no file,
    with a type that is not "application/pdf" and a name that does not end
    in ".pdf" (or no name), and, once the type is accepted, with more than
    10 MiB, which is refused before the text is extracted. *)
Theorem processPdf_refuses_before_any_call (req : Request) (log : Log) :
  (file req = None ->
   run req log =
   (Normal (respond 400 [("error", BStr (js "No PDF file provided."))]), log))
  /\ (forall f, file req = Some f ->
        mimetype f <> Some (js "application/pdf") ->
        (forall name, originalname f = Some name ->
                      endsWith (toLowerCase name) (js ".pdf") = false) ->
        run req log = (Normal not_a_pdf_failure, log))
  /\ (forall f, file req = Some f ->
        mimetype f = Some (js "application/pdf") ->
        (size f > 10 * 1024 * 1024)%Z ->
        run req log = (Normal pdf_too_large_failure, log)).
Proof.
  unfold processPdf, catch, processPdf_try. repeat split.
  - intros ->. reflexivity.
  - intros f -> Hmime Hname.
    assert (option_str_eqb (mimetype f) (js "application/pdf") = false) as ->.
    { unfold option_str_eqb, str_eqb. destruct (mimetype f) as [m|]; [|reflexivity].
      destruct (list_eq_dec N.eq_dec m (js "application/pdf")); [|reflexivity].
      subst m. now destruct Hmime. }
    destruct (originalname f) as [name|]; [rewrite (Hname name eq_refl)|];
      reflexivity.
  - intros f -> Hmime Hsize. rewrite Hmime.
    unfold option_str_eqb. rewrite str_eqb_refl. simpl negb. cbv iota.
    destruct (Z.gtb_spec (size f) (10 * 1024 * 1024)); [reflexivity | lia].
Qed.

(** The loop calls the model for a prefix of the chunks, in their order;
    it runs through only with one summary per chunk, and what it returns
    early is a chunk failure. *)
Lemma loop_shape (chunks : list jsstring) : forall acc log0,
  exists k,
    snd (loop chunks acc log0) = log0 ++ calls (firstn k chunks)
    /\ match fst (loop chunks acc log0) with
       | Normal (inr sums) =>
           k = length chunks /\ length sums = (length acc + length chunks)%nat
       | Normal (inl r) => exists t, r = chunk_failure t
       | Throw _ => True
       end.
Proof.
  induction chunks as [|chunk rest IH]; intros acc log0.
  - exists 0%nat. simpl. rewrite app_nil_r. split; [reflexivity|]. split; lia.
  - simpl summarizeChunks. unfold bind, await_generateContent, lift.
    destruct (generateContent log0 (chunkInput chunk)) as [response|e];
      [|exists 1%nat; simpl; auto].
    destruct (text_of response) as [textOut|e]; [|exists 1%nat; simpl; auto].
    destruct (extractJsonFromString textOut) as [parsed|e];
      [|exists 1%nat; simpl; auto].
    destruct (checked_summary parsed) as [summary|];
      [|exists 1%nat; simpl; eauto].
    destruct (call_trim "parsed.summary" summary) as [trimmed|e];
      [|exists 1%nat; simpl; auto].
    destruct (IH (acc ++ [trimmed]) (log0 ++ [EvGenerate (chunkInput chunk)]))
      as [k [Hlog Hres]].
    exists (S k). rewrite Hlog. split.
    + simpl. now rewrite <- app_assoc.
    + destruct (fst (loop rest (acc ++ [trimmed])
                       (log0 ++ [EvGenerate (chunkInput chunk)])))
        as [[r|sums]|e]; [assumption | | exact I].
      destruct Hres as [-> Hlen]. rewrite length_app in Hlen. simpl in *.
      split; [reflexivity | lia].
Qed.

(** The reduction makes one call, and only for more than one summary; what
    it answers is the capped summary or the combine failure. *)
Lemma combine_shape (sums : list jsstring) (log0 : Log) :
  (snd (combine sums log0) = log0
   \/ ((1 < length sums)%nat
       /\ snd (combine sums log0) =
          log0 ++ [EvGenerate (combineInput (join [10; 10]%N sums))]))
  /\ match fst (combine sums log0) with
     | Normal r =>
         (exists t, r = combine_failure t)
         \/ (exists x, r = summary_response (capSummary x))
     | Throw _ => True
     end.
Proof.
  unfold combineSummaries.
  destruct (Z.ltb_spec 1 (Z.of_nat (length sums))) as [Hmany|_].
  - unfold bind, await_generateContent, lift, ret.
    assert (1 < length sums)%nat by lia.
    destruct (generateContent log0 (combineInput (join [10%N; 10%N] sums)))
      as [response|e]; [|simpl; split; [right; split|]; easy].
    destruct (text_of response) as [textOut|e];
      [|simpl; split; [right; split|]; easy].
    destruct (extractJsonFromString textOut) as [parsed|e];
      [|simpl; split; [right; split|]; easy].
    destruct (checked_summary parsed) as [summary|];
      [|simpl; split; [right; split; easy | left; eauto]].
    destruct (call_trim "combineParsed.summary" summary) as [trimmed|e];
      simpl; (split; [right; split; easy|]); [right; eauto | exact I].
  - simpl. split; [now left | right; eauto].
Qed.

(** X2. Whatever the collaborators do, [processPdf] ends in a response, of
    status 200, 400, 413, 422 or 500; a 200 response is [{ summary }] and
    nothing else, with a summary of at most 4000 code units. *)
Theorem processPdf_responses (req : Request) (log : Log) :
  exists r,
    fst (run req log) = Normal r
    /\ In (status r) [200; 400; 413; 422; 500]%Z
    /\ (status r = 200%Z ->
        exists s, body r = [("summary", BStr s)] /\ (str_length s <= 4000)%Z).
Proof.
  assert (Hfail : forall r, In (status r) [400; 413; 422; 500]%Z ->
    In (status r) [200; 400; 413; 422; 500]%Z
    /\ (status r = 200%Z ->
        exists s, body r = [("summary", BStr s)] /\ (str_length s <= 4000)%Z)).
  { intros r Hin. split; [now right|]. intros H200. rewrite H200 in Hin.
    simpl in Hin. intuition discriminate. }
  unfold processPdf, catch, processPdf_try.
  destruct (file req) as [f|]; [|eexists; split; [reflexivity|apply Hfail; simpl; auto]].
  destruct (negb _); [eexists; split; [reflexivity|apply Hfail; simpl; auto]|].
  destruct (size f >? 10 * 1024 * 1024)%Z;
    [eexists; split; [reflexivity|apply Hfail; simpl; auto]|].
  unfold bind at 1. unfold await_pdf.
  destruct (pdf (buffer f)) as [data|e];
    [|eexists; split; [reflexivity|apply Hfail; simpl; auto 6]].
  destruct (is_empty (trim (text_or_empty data)));
    [eexists; split; [reflexivity|apply Hfail; simpl; auto]|].
  unfold summarizeText, bind.
  destruct (loop_shape (chunkText (trim (text_or_empty data))) []
              (log ++ [EvPdf (buffer f)])) as [k [_ Hres]].
  destruct (loop (chunkText (trim (text_or_empty data))) []
              (log ++ [EvPdf (buffer f)])) as [[[r|sums]|e] log1]; simpl in Hres.
  - destruct Hres as [t ->]. eexists; split; [reflexivity|apply Hfail; simpl; auto 6].
  - destruct (combine_shape sums log1) as [_ Hcomb].
    destruct (combine sums log1) as [[r|e] log2]; simpl in Hcomb.
    + destruct Hcomb as [[t ->]|[x ->]].
      * eexists; split; [reflexivity|apply Hfail; simpl; auto 6].
      * eexists; split; [reflexivity|]. split; [now left|]. intros _.
        exists (capSummary x). split; [reflexivity | apply capSummary_ceiling].
    + eexists; split; [reflexivity|apply Hfail; simpl; auto 6].
  - eexists; split; [reflexivity|apply Hfail; simpl; auto 6].
Qed.

Section AcceptedPdf.
Variable req : Request.
Variable f : File.
Variable log : Log.
Hypothesis Hfile : file req = Some f.
Hypothesis Hpdf :
  mimetype f = Some (js "application/pdf")
  \/ exists name, originalname f = Some name
                  /\ endsWith (toLowerCase name) (js ".pdf") = true.
Hypothesis Hsize : (size f <= 10 * 1024 * 1024)%Z.

Lemma processPdf_accepted :
  run req log =
  catch (bind (await_pdf pdf (buffer f)) (fun data =>
           if is_empty (trim (text_or_empty data)) then ret no_text_failure
           else summarize (trim (text_or_empty data))))
        processPdf_catch log.
Proof.
  unfold processPdf, processPdf_try. rewrite Hfile.
  assert (option_str_eqb (mimetype f) (js "application/pdf")
          || match originalname f with
             | Some name => endsWith (toLowerCase name) (js ".pdf")
             | None => false
             end = true) as ->.
  { destruct Hpdf as [-> | [name [-> ->]]].
    - unfold option_str_eqb. now rewrite str_eqb_refl.
    - apply orb_true_r. }
  simpl negb. cbv iota.
  destruct (Z.gtb_spec (size f) (10 * 1024 * 1024)) as [|_]; [lia|]. reflexivity.
Qed.

(** X4. When pdf-parse throws on an accepted upload, [processPdf] answers
    500 "Failed to process PDF." with the error's message as details (its
    name when the message is empty), and calls the model not at all. *)
Theorem extraction_failure_is_reported (e : JsError) :
  pdf (buffer f) = Throw e ->
  run req log = (Normal (failed e), log ++ [EvPdf (buffer f)]).
Proof.
  intros He. rewrite processPdf_accepted.
  unfold catch, bind, await_pdf. now rewrite He.
Qed.

Variable data : option PdfData.
Hypothesis Hdata : pdf (buffer f) = Normal data.

(** X3. On an accepted upload the calls of a run are, in this order: the
    extraction, the chunk calls for a prefix of the chunks in the order of
    the text, and then at most one combine call, which is made only after
    every chunk has been summarized and only for more than one chunk, with
    one summary per chunk joined by blank lines. *)
Theorem processPdf_call_order :
  let chunks := chunkText (trim (text_or_empty data)) in
  exists k tail,
    snd (run req log) =
    log ++ [EvPdf (buffer f)] ++ calls (firstn k chunks) ++ tail
    /\ (tail = []
        \/ (k = length chunks /\ (1 < length chunks)%nat
            /\ exists sums,
                 length sums = length chunks
                 /\ tail = [EvGenerate (combineInput (join [10; 10]%N sums))])).
Proof.
  intros chunks.
  rewrite (processPdf_extracted JSON_stringify toLowerCase pdf generateContent
             req f data log Hfile Hpdf Hsize Hdata).
  destruct (is_empty (trim (text_or_empty data))).
  - exists 0%nat, []. simpl. split; [reflexivity | now left].
  - unfold catch, summarizeText, bind. fold chunks.
    destruct (loop_shape chunks [] (log ++ [EvPdf (buffer f)])) as [k [Hlog Hres]].
    destruct (loop chunks [] (log ++ [EvPdf (buffer f)])) as [[[r|sums]|e] log1];
      simpl in Hlog, Hres; subst log1.
    + exists k, []. simpl. rewrite app_nil_r, <- app_assoc. split; [reflexivity | now left].
    + destruct Hres as [-> Hlen]. simpl in Hlen.
      destruct (combine_shape sums
                  ((log ++ [EvPdf (buffer f)])
                   ++ calls (firstn (length chunks) chunks))) as [Hcomb _].
      destruct (combine sums ((log ++ [EvPdf (buffer f)])
                              ++ calls (firstn (length chunks) chunks)))
        as [[r|e] log2]; simpl in Hcomb;
        (destruct Hcomb as [->|[Hmany ->]];
         [exists (length chunks), []; simpl;
          rewrite app_nil_r, <- app_assoc; split; [reflexivity | now left]
         |exists (length chunks),
            [EvGenerate (combineInput (join [10%N; 10%N] sums))]; simpl;
          rewrite <- !app_assoc; split;
          [reflexivity | right; repeat split; try lia; now exists sums]]).
    + exists k, []. simpl. rewrite app_nil_r, <- app_assoc. split; [reflexivity | now left].
Qed.

Section AfterSomeChunks.
Variables done rest sums : list jsstring.
Variable bad : jsstring.
Hypothesis Htext : trim (text_or_empty data) <> [].
Hypothesis Hchunks : chunkText (trim (text_or_empty data)) = done ++ bad :: rest.
Hypothesis Hdone : summarized (log ++ [EvPdf (buffer f)]) done sums.

Lemma processPdf_at_chunk :
  run req log =
  catch (fun log0 =>
           match loop (bad :: rest) sums log0 with
           | (Normal (inl response), log1) => (Normal response, log1)
           | (Normal (inr chunkSummaries), log1) => combine chunkSummaries log1
           | (Throw e, log1) => (Throw e, log1)
           end)
        processPdf_catch (log ++ [EvPdf (buffer f)] ++ calls done).
Proof.
  rewrite (processPdf_extracted JSON_stringify toLowerCase pdf generateContent
             req f data log Hfile Hpdf Hsize Hdata).
  destruct (trim (text_or_empty data)) as [|c r] eqn:E; [now destruct Htext|].
  rewrite <- E in *. replace (is_empty (trim (text_or_empty data))) with false
    by (rewrite E; reflexivity).
  unfold catch, summarizeText, bind. rewrite Hchunks.
  rewrite (loop_summarized JSON_stringify generateContent _ _ _ Hdone (bad :: rest) []).
  simpl app. rewrite <- app_assoc.
  destruct (loop (bad :: rest) sums _) as [[[r0|s0]|e0] log1]; reflexivity.
Qed.

(** X5. When the model call for a chunk throws, or the [text()] of its
    response does, after the chunks before it were summarized, [processPdf]
    answers 500 "Failed to process PDF." with the error's message as
    details, and calls the model no more: neither for the chunks left nor
    to combine. *)
Theorem throwing_chunk_call_aborts (e : JsError) :
  generateContent (log ++ [EvPdf (buffer f)] ++ calls done) (chunkInput bad)
    = Throw e
  \/ (exists response,
        generateContent (log ++ [EvPdf (buffer f)] ++ calls done) (chunkInput bad)
          = Normal response
        /\ text_of response = Throw e) ->
  run req log =
  (Normal (failed e), log ++ [EvPdf (buffer f)] ++ calls (done ++ [bad])).
Proof.
  intros Hthrow. rewrite processPdf_at_chunk.
  unfold catch. simpl summarizeChunks. unfold bind, await_generateContent, lift.
  simpl app in Hthrow.
  destruct Hthrow as [-> | [response [-> ->]]];
    unfold processPdf_catch, ret; rewrite map_app; simpl map;
    now rewrite <- !app_assoc.
Qed.

End AfterSomeChunks.

(** X7. When every chunk of a text of several chunks is summarized and the
    answer to the combine call is rejected (the recovered value is [null],
    is no object or has no truthy [summary]), [processPdf] answers 500
    "Failed to parse combined summary from Gemini." with the raw text of
    that answer; the summaries of the chunks are not returned. *)
Theorem rejected_combine_fails
  (sums : list jsstring) (response textOut : JsVal) (parsed : Json) :
  let text := trim (text_or_empty data) in
  let joined := join [10; 10]%N sums in
  text <> [] ->
  summarized (log ++ [EvPdf (buffer f)]) (chunkText text) sums ->
  (1 < length sums)%nat ->
  generateContent (log ++ [EvPdf (buffer f)] ++ calls (chunkText text))
    (combineInput joined) = Normal response ->
  text_of response = Normal textOut ->
  extractJsonFromString textOut = Normal parsed ->
  (forall v, json_get parsed (js "summary") = Some v -> json_truthy v = false) ->
  run req log =
  (Normal (combine_failure textOut),
   log ++ [EvPdf (buffer f)] ++ calls (chunkText text)
       ++ [EvGenerate (combineInput joined)]).
Proof.
  intros text joined Hne Hsum Hmany Hgen Htext Hparsed Hbad.
  rewrite (processPdf_extracted JSON_stringify toLowerCase pdf generateContent
             req f data log Hfile Hpdf Hsize Hdata). fold text.
  destruct text as [|c r] eqn:Etext; [congruence|]. rewrite <- Etext in *.
  replace (is_empty text) with false by (rewrite Etext; reflexivity).
  unfold catch, summarizeText. unfold bind at 1.
  pose proof (loop_summarized JSON_stringify generateContent _ _ _ Hsum [] [])
    as Hloop.
  rewrite app_nil_r in Hloop. rewrite Hloop.
  cbn [summarizeChunks app]. unfold ret at 1. unfold combineSummaries.
  replace (1 <? Z.of_nat (length sums))%Z with true
    by (symmetry; apply Z.ltb_lt; lia).
  fold joined. unfold bind, await_generateContent, lift, ret.
  rewrite <- app_assoc, Hgen, Htext, Hparsed.
  rewrite (checked_summary_none _ Hbad).
  now rewrite <- !app_assoc.
Qed.

End AcceptedPdf.
End PdfRuns.

(** ** Worked runs of [processPdf] *)

Lemma example_long_text_chunks :
  chunkText (trim (text_or_empty example_long_data)) =
  [slice example_long_text 0 24000; slice example_long_text 24000 48000;
   slice example_long_text 48000 72000].
Proof.
  vm_cast_no_check
    (eq_refl (chunkText (trim (text_or_empty example_long_data)))).
Qed.

Lemma example_long_text_nonempty : trim (text_or_empty example_long_data) <> [].
Proof. apply nonempty_by_test. vm_cast_no_check (eq_refl false). Qed.

(** The model of the examples answering a chunk call with a summary. *)
Ltac summarized_by reply summary :=
  apply summarized_cons
    with (response := example_response reply) (textOut := VStr reply)
         (parsed := JObj [(js "summary", JStr summary)]) (s := summary);
  [reflexivity | reflexivity | reflexivity | reflexivity | discriminate | ].

(** Every chunk of the long text answered with "Part.": three summaries. *)
Lemma example_long_text_summarized (more : list jsstring) :
  chunks_summarized example_stringify
    (example_model (jsq "{'summary': 'Part.'}" :: jsq "{'summary': 'Part.'}"
                    :: jsq "{'summary': 'Part.'}" :: more))
    ([] ++ [EvPdf (buffer example_pdf_file)])
    (chunkText (trim (text_or_empty example_long_data)))
    [trim (js "Part."); trim (js "Part."); trim (js "Part.")].
Proof.
  rewrite example_long_text_chunks.
  summarized_by (jsq "{'summary': 'Part.'}") (js "Part.").
  summarized_by (jsq "{'summary': 'Part.'}") (js "Part.").
  summarized_by (jsq "{'summary': 'Part.'}") (js "Part.").
  constructor.
Qed.

(** A broken PDF: the error of pdf-parse is what the response tells. *)
Lemma extraction_failure_is_reported_witness :
  processPdf example_stringify example_toLowerCase example_broken_pdf
    (example_model []) example_pdf_request [] =
  (Normal (respond 500 [("error", BStr (js "Failed to process PDF."));
                        ("details", BStr (js "Invalid PDF structure"))]),
   [EvPdf (buffer example_pdf_file)]).
Proof.
  refine (extraction_failure_is_reported
            example_stringify example_toLowerCase example_broken_pdf
            (example_model []) example_pdf_request example_pdf_file []
            _ _ _
            {| err_name := js "Error"; err_message := js "Invalid PDF structure" |}
            _).
  - reflexivity.
  - left. reflexivity.
  - vm_compute. discriminate.
  - reflexivity.
Defined.

(** Three chunks and a combine call, in this order. *)
Lemma processPdf_call_order_witness :
  let chunks := chunkText (trim (text_or_empty example_long_data)) in
  exists k tail,
    snd (processPdf example_stringify example_toLowerCase
           (example_pdf example_long_text)
           (example_model [jsq "{'summary': 'Part.'}"; jsq "{'summary': 'Part.'}";
                           jsq "{'summary': 'Part.'}"; jsq "{'summary': 'All.'}"])
           example_pdf_request []) =
    [] ++ [EvPdf (buffer example_pdf_file)]
       ++ map (fun chunk => EvGenerate (chunkInput chunk)) (firstn k chunks) ++ tail
    /\ (tail = []
        \/ (k = length chunks /\ (1 < length chunks)%nat
            /\ exists sums,
                 length sums = length chunks
                 /\ tail = [EvGenerate (combineInput (join [10; 10]%N sums))])).
Proof.
  refine (processPdf_call_order
            example_stringify example_toLowerCase (example_pdf example_long_text)
            (example_model _) example_pdf_request example_pdf_file []
            _ _ _ example_long_data _).
  - reflexivity.
  - left. reflexivity.
  - vm_compute. discriminate.
  - reflexivity.
Defined.

(** The model breaks down on the second of three chunks. *)
Lemma throwing_chunk_call_aborts_witness :
  processPdf example_stringify example_toLowerCase (example_pdf example_long_text)
    (example_scripted_model
       [Normal (example_response (jsq "{'summary': 'Part.'}")); Throw example_error])
    example_pdf_request [] =
  (Normal (respond 500 [("error", BStr (js "Failed to process PDF."));
                        ("details", BStr (error_details example_error))]),
   [] ++ [EvPdf (buffer example_pdf_file)]
      ++ map (fun chunk => EvGenerate (chunkInput chunk))
           ([slice example_long_text 0 24000]
            ++ [slice example_long_text 24000 48000])).
Proof.
  refine (throwing_chunk_call_aborts
            example_stringify example_toLowerCase (example_pdf example_long_text)
            (example_scripted_model _) example_pdf_request example_pdf_file []
            _ _ _ example_long_data _
            [slice example_long_text 0 24000]
            [slice example_long_text 48000 72000]
            [trim (js "Part.")]
            (slice example_long_text 24000 48000)
            _ _ _ example_error _).
  - reflexivity.
  - left. reflexivity.
  - vm_compute. discriminate.
  - reflexivity.
  - exact example_long_text_nonempty.
  - exact example_long_text_chunks.
  - apply summarized_cons
      with (response := example_response (jsq "{'summary': 'Part.'}"))
           (textOut := VStr (jsq "{'summary': 'Part.'}"))
           (parsed := JObj [(js "summary", JStr (js "Part."))]) (s := js "Part.");
      [reflexivity | reflexivity | reflexivity | reflexivity | discriminate
      | constructor].
  - left. reflexivity.
Defined.

(** Three chunk summaries combined into one. *)
Lemma several_chunks_are_combined_witness :
  let text := trim (text_or_empty example_long_data) in
  let joined := join [10; 10]%N [trim (js "Part."); trim (js "Part."); trim (js "Part.")] in
  processPdf example_stringify example_toLowerCase (example_pdf example_long_text)
    (example_model [jsq "{'summary': 'Part.'}"; jsq "{'summary': 'Part.'}";
                    jsq "{'summary': 'Part.'}"; jsq "{'summary': ' All of it. '}"])
    example_pdf_request [] =
  (Normal {| status := 200;
             body := [("summary", BStr (capSummary (trim (js " All of it. "))))] |},
   [] ++ [EvPdf (buffer example_pdf_file)]
      ++ map (fun chunk => EvGenerate (chunkInput chunk)) (chunkText text)
      ++ [EvGenerate (combineInput joined)]).
Proof.
  refine (several_chunks_are_combined
            example_stringify example_toLowerCase (example_pdf example_long_text)
            (example_model _) example_pdf_request example_pdf_file
            example_long_data [] _ _ _ _
            [trim (js "Part."); trim (js "Part."); trim (js "Part.")]
            (example_response (jsq "{'summary': ' All of it. '}"))
            (VStr (jsq "{'summary': ' All of it. '}"))
            (JObj [(js "summary", JStr (js " All of it. "))])
            (js " All of it. ") _ _ _ _ _ _ _ _).
  - reflexivity.
  - left. reflexivity.
  - vm_compute. discriminate.
  - reflexivity.
  - exact example_long_text_nonempty.
  - apply example_long_text_summarized.
  - simpl. lia.
  - rewrite example_long_text_chunks. reflexivity.
  - reflexivity.
  - reflexivity.
  - reflexivity.
  - discriminate.
Defined.

(** Three chunk summaries and a combine answer that is no JSON. *)
Lemma rejected_combine_fails_witness :
  let text := trim (text_or_empty example_long_data) in
  let joined := join [10; 10]%N [trim (js "Part."); trim (js "Part."); trim (js "Part.")] in
  processPdf example_stringify example_toLowerCase (example_pdf example_long_text)
    (example_model [jsq "{'summary': 'Part.'}"; jsq "{'summary': 'Part.'}";
                    jsq "{'summary': 'Part.'}"; js "I am sorry."])
    example_pdf_request [] =
  (Normal (combine_failure (VStr (js "I am sorry."))),
   [] ++ [EvPdf (buffer example_pdf_file)]
      ++ map (fun chunk => EvGenerate (chunkInput chunk)) (chunkText text)
      ++ [EvGenerate (combineInput joined)]).
Proof.
  refine (rejected_combine_fails
            example_stringify example_toLowerCase (example_pdf example_long_text)
            (example_model _) example_pdf_request example_pdf_file []
            _ _ _ example_long_data _
            [trim (js "Part."); trim (js "Part."); trim (js "Part.")]
            (example_response (js "I am sorry."))
            (VStr (js "I am sorry.")) JNull _ _ _ _ _ _ _).
  - reflexivity.
  - left. reflexivity.
  - vm_compute. discriminate.
  - reflexivity.
  - exact example_long_text_nonempty.
  - apply example_long_text_summarized.
  - simpl. lia.
  - rewrite example_long_text_chunks. reflexivity.
  - reflexivity.
  - reflexivity.
  - intros v Hv. discriminate.
Defined.

(** ** [processImage]: what is refused, what is called, what is answered *)

Lemma trimEnd_idempotent (s : jsstring) : trimEnd (trimEnd s) = trimEnd s.
Proof.
  induction s as [|c r IH]; [reflexivity|]. simpl.
  destruct (trimEnd r) as [|d r'] eqn:E.
  - destruct (is_js_space c) eqn:Hc; [reflexivity|]. simpl. now rewrite Hc.
  - change (trimEnd (c :: d :: r'))
      with (match trimEnd (d :: r') with
            | [] => if is_js_space c then [] else [c]
            | x :: y => c :: x :: y
            end).
    now rewrite IH.
Qed.

Lemma trimStart_head (s : jsstring) (c : code_unit) (r : jsstring) :
  trimStart s = c :: r -> is_js_space c = false.
Proof.
  induction s as [|x s IH]; simpl; [discriminate|].
  destruct (is_js_space x) eqn:Hx; [assumption|].
  intros H. injection H as -> _. assumption.
Qed.

Lemma trimStart_trimEnd_head (c : code_unit) (r : jsstring) :
  is_js_space c = false -> trimStart (trimEnd (c :: r)) = trimEnd (c :: r).
Proof.
  intros Hc. simpl. destruct (trimEnd r); rewrite ?Hc; simpl; now rewrite Hc.
Qed.

(** [trim] leaves nothing to trim. *)
Lemma trim_idempotent (s : jsstring) : trim (trim s) = trim s.
Proof.
  unfold trim. destruct (trimStart s) as [|c r] eqn:E; [reflexivity|].
  rewrite trimStart_trimEnd_head by (eapply trimStart_head; eassumption).
  apply trimEnd_idempotent.
Qed.

Lemma trimmed_field_trimmed (parsed : Json) (k : string) (t : jsstring) :
  trimmed_field parsed k = Some t -> trim t = t.
Proof.
  unfold trimmed_field.
  destruct (json_get parsed (js k)) as [[| | |s| |]|]; try discriminate.
  destruct (is_empty s); [discriminate|].
  intros H. injection H as <-. apply trim_idempotent.
Qed.

Section ImageRuns.
Variable JSON_stringify : JsVal -> Completion JsVal.
Variable base64 : Buffer -> jsstring.
Variable generateContent : Log -> ModelInput -> Completion JsVal.

Local Abbreviation text_of := (promiseTextFromResponse JSON_stringify).
Local Abbreviation run := (processImage JSON_stringify base64 generateContent).
Local Abbreviation failed := (fun e : JsError =>
  respond 500 [("error", BStr (js "Failed to analyze image."));
               ("details", BStr (error_details e))]).

(** X8. [processImage] turns an upload away before anything is called:
    with no file, with a mime type that does not start with "image/" (or
    none), and with more than 10 MiB. An upload it lets through costs one
    model call, never more and never less, whatever the model answers. *)
Theorem processImage_refuses_or_calls_once (req : Request) (log : Log) :
  (file req = None ->
   run req log =
   (Normal (respond 400 [("error", BStr (js "No image file provided."))]), log))
  /\ (forall f, file req = Some f ->
        (forall mime, mimetype f = Some mime ->
                      startsWith mime (js "image/") = false) ->
        run req log =
        (Normal (respond 400 [("error", BStr (js "Uploaded file is not an image."))]),
         log))
  /\ (forall f mime, file req = Some f -> mimetype f = Some mime ->
        startsWith mime (js "image/") = true ->
        (size f > 10 * 1024 * 1024)%Z ->
        run req log =
        (Normal (respond 413
                   [("error", BStr (js "Image exceeds maximum size of 10MB."))]),
         log))
  /\ (forall f mime, file req = Some f -> mimetype f = Some mime ->
        startsWith mime (js "image/") = true ->
        (size f <= 10 * 1024 * 1024)%Z ->
        snd (run req log) =
        log ++ [EvGenerate (imageInput base64 (buffer f) mime)]).
Proof.
  unfold processImage, catch, processImage_try. repeat split.
  - intros ->. reflexivity.
  - intros f -> Hmime. destruct (mimetype f) as [mime|]; [|reflexivity].
    now rewrite (Hmime mime eq_refl).
  - intros f mime -> -> -> Hsize. cbn [negb].
    destruct (Z.gtb_spec (size f) MAX_BYTES) as [|Hle];
      [reflexivity | unfold MAX_BYTES in Hle; lia].
  - intros f mime -> -> -> Hsize. cbn [negb].
    destruct (Z.gtb_spec (size f) MAX_BYTES) as [Hgt|_];
      [unfold MAX_BYTES in Hgt; lia|].
    unfold bind, await_generateContent, lift.
    destruct (generateContent log (imageInput base64 (buffer f) mime))
      as [response|e]; [|reflexivity].
    destruct (text_of response) as [textOut|e]; [|reflexivity].
    destruct (extractJsonFromString textOut) as [parsed|e]; [|reflexivity].
    destruct (negb (json_truthy parsed)
              || negb (JsType_eqb (json_typeof parsed) TyObject)); [reflexivity|].
    destruct (is_blank (trimmed_field parsed "title")
              || is_blank (trimmed_field parsed "description")); [reflexivity|].
    destruct (trimmed_field parsed "title"),
             (trimmed_field parsed "description"); reflexivity.
Qed.

(** X10. Whatever the model does, [processImage] ends in a response, of
    status 200, 400, 413 or 500; a 200 response is [{ title, description }]
    and nothing else, and both are non-empty strings with no white space at
    either end. *)
Theorem processImage_responses (req : Request) (log : Log) :
  exists r,
    fst (run req log) = Normal r
    /\ In (status r) [200; 400; 413; 500]%Z
    /\ (status r = 200%Z ->
        exists t d,
          body r = [("title", BStr t); ("description", BStr d)]
          /\ t <> [] /\ d <> [] /\ trim t = t /\ trim d = d).
Proof.
  assert (Hfail : forall r, In (status r) [400; 413; 500]%Z ->
    In (status r) [200; 400; 413; 500]%Z
    /\ (status r = 200%Z ->
        exists t d,
          body r = [("title", BStr t); ("description", BStr d)]
          /\ t <> [] /\ d <> [] /\ trim t = t /\ trim d = d)).
  { intros r Hin. split; [now right|]. intros H200. rewrite H200 in Hin.
    simpl in Hin. intuition discriminate. }
  unfold processImage, catch, processImage_try.
  destruct (file req) as [f|];
    [|eexists; split; [reflexivity|apply Hfail; simpl; auto]].
  destruct (mimetype f) as [mime|];
    [|eexists; split; [reflexivity|apply Hfail; simpl; auto]].
  destruct (negb _); [eexists; split; [reflexivity|apply Hfail; simpl; auto]|].
  destruct (size f >? MAX_BYTES)%Z;
    [eexists; split; [reflexivity|apply Hfail; simpl; auto]|].
  unfold bind, await_generateContent, lift.
  destruct (generateContent log (imageInput base64 (buffer f) mime))
    as [response|e]; [|eexists; split; [reflexivity|apply Hfail; simpl; auto]].
  destruct (text_of response) as [textOut|e];
    [|eexists; split; [reflexivity|apply Hfail; simpl; auto]].
  destruct (extractJsonFromString textOut) as [parsed|e];
    [|eexists; split; [reflexivity|apply Hfail; simpl; auto]].
  destruct (negb (json_truthy parsed)
            || negb (JsType_eqb (json_typeof parsed) TyObject));
    [eexists; split; [reflexivity|apply Hfail; simpl; auto]|].
  destruct (is_blank (trimmed_field parsed "title")) eqn:Ht;
    [eexists; split; [reflexivity|apply Hfail; simpl; auto]|].
  destruct (is_blank (trimmed_field parsed "description")) eqn:Hd;
    [eexists; split; [reflexivity|apply Hfail; simpl; auto]|].
  destruct (trimmed_field parsed "title") as [t|] eqn:Et; [|discriminate].
  destruct (trimmed_field parsed "description") as [d|] eqn:Ed; [|discriminate].
  eexists; split; [reflexivity|]. split; [now left|]. intros _.
  exists t, d. simpl in Ht, Hd. repeat split.
  - intros ->. discriminate.
  - intros ->. discriminate.
  - eapply trimmed_field_trimmed; eassumption.
  - eapply trimmed_field_trimmed; eassumption.
Qed.

Section AcceptedImage.
Variable req : Request.
Variable f : File.
Variable mime : jsstring.
Variable log : Log.
Hypothesis Hfile : file req = Some f.
Hypothesis Hmime : mimetype f = Some mime.
Hypothesis Himage : startsWith mime (js "image/") = true.
Hypothesis Hsize : (size f <= 10 * 1024 * 1024)%Z.

Lemma processImage_accepted :
  run req log =
  catch (bind (await_generateContent generateContent
                 (imageInput base64 (buffer f) mime)) (fun response =>
         bind (lift (text_of response)) (fun textOut =>
         bind (lift (extractJsonFromString textOut)) (fun parsed =>
           if negb (json_truthy parsed)
              || negb (JsType_eqb (json_typeof parsed) TyObject)
           then ret (image_parse_failure textOut)
           else if is_blank (trimmed_field parsed "title")
                   || is_blank (trimmed_field parsed "description")
           then ret (invalid_keys_failure parsed)
           else match trimmed_field parsed "title",
                      trimmed_field parsed "description" with
                | Some t, Some d => ret (image_response t d)
                | _, _ => ret (invalid_keys_failure parsed)
                end))))
        processImage_catch log.
Proof.
  unfold processImage, processImage_try. rewrite Hfile, Hmime, Himage. cbn [negb].
  destruct (Z.gtb_spec (size f) MAX_BYTES) as [Hgt|_];
    [unfold MAX_BYTES in Hgt; lia | reflexivity].
Qed.

(** X9. When the model call for an image throws, or the [text()] of its
    response does, [processImage] answers 500 "Failed to analyze image."
    with the error's message as details (its name when the message is
    empty). *)
Theorem image_error_is_reported (e : JsError) :
  generateContent log (imageInput base64 (buffer f) mime) = Throw e
  \/ (exists response,
        generateContent log (imageInput base64 (buffer f) mime) = Normal response
        /\ text_of response = Throw e) ->
  run req log =
  (Normal (failed e), log ++ [EvGenerate (imageInput base64 (buffer f) mime)]).
Proof.
  intros Hthrow. rewrite processImage_accepted.
  unfold catch, bind, await_generateContent, lift.
  destruct Hthrow as [-> | [response [-> ->]]]; reflexivity.
Qed.

(** X11. When what is recovered from the model's answer to an image is no
    object ([null] for a text that is no JSON, but also a JSON string,
    number or boolean), [processImage] answers 500 "Failed to parse Gemini's
    JSON response." with the raw text of the answer; a response that is
    falsy itself gives this failure with [null] for the raw text. *)
Theorem image_answer_must_be_an_object
  (response textOut : JsVal) (parsed : Json) :
  generateContent log (imageInput base64 (buffer f) mime) = Normal response ->
  text_of response = Normal textOut ->
  extractJsonFromString textOut = Normal parsed ->
  (forall items, parsed <> JArr items) ->
  (forall members, parsed <> JObj members) ->
  fst (run req log) = Normal (image_parse_failure textOut)
  /\ (truthy response = false -> textOut = VNull).
Proof.
  intros Hgen Htext Hparsed Harr Hobj. rewrite processImage_accepted.
  unfold catch, bind, await_generateContent, lift.
  rewrite Hgen, Htext, Hparsed. split.
  - destruct parsed as [|b|n|s|items|members]; simpl;
      try reflexivity; try (now rewrite orb_true_r).
    + now destruct (Harr items).
    + now destruct (Hobj members).
  - intros Hfalsy. unfold promiseTextFromResponse in Htext.
    rewrite Hfalsy in Htext. simpl in Htext. congruence.
Qed.

End AcceptedImage.
End ImageRuns.

(** The model breaks down on an image. *)
Lemma image_error_is_reported_witness :
  processImage example_stringify example_base64
    (example_scripted_model [Throw example_error])
    {| file := Some example_image_file |} [] =
  (Normal (respond 500 [("error", BStr (js "Failed to analyze image."));
                        ("details", BStr (error_details example_error))]),
   [] ++ [EvGenerate (imageInput example_base64 (buffer example_image_file)
                        (js "image/png"))]).
Proof.
  refine (image_error_is_reported
            example_stringify example_base64 (example_scripted_model _)
            {| file := Some example_image_file |} example_image_file
            (js "image/png") [] _ _ _ _ example_error _).
  - reflexivity.
  - reflexivity.
  - reflexivity.
  - vm_compute. discriminate.
  - left. reflexivity.
Defined.

(** The model answers an image with a JSON string, not an object. *)
Lemma image_answer_must_be_an_object_witness :
  fst (example_processImage [jsq "'A cat on a sofa.'"]) =
  Normal (image_parse_failure (VStr (jsq "'A cat on a sofa.'"))).
Proof.
  refine (proj1 (image_answer_must_be_an_object
            example_stringify example_base64 (example_model _)
            {| file := Some example_image_file |} example_image_file
            (js "image/png") [] _ _ _ _
            (example_response (jsq "'A cat on a sofa.'"))
            (VStr (jsq "'A cat on a sofa.'"))
            (JStr (js "A cat on a sofa.")) _ _ _ _ _)).
  - reflexivity.
  - reflexivity.
  - reflexivity.
  - vm_compute. discriminate.
  - reflexivity.
  - reflexivity.
  - reflexivity.
  - discriminate.
  - discriminate.
Defined.

(** ** [extractJsonFromString]: the two replacements, the strict parse and
    the salvage *)

Lemma includes_cons (c : code_unit) (r p : jsstring) :
  includes (c :: r) p = startsWith (c :: r) p || includes r p.
Proof. reflexivity. Qed.

Lemma remove_all_skip (pats : list jsstring) (k : nat) (s : jsstring) :
  remove_all pats k s = remove_all pats 0 (skipn k s).
Proof.
  revert s. induction k as [|k IH]; intros s; [reflexivity|].
  destruct s as [|c r]; [reflexivity|]. simpl skipn. rewrite <- IH. reflexivity.
Qed.

Lemma tagged_fence_re_match (s : jsstring) :
  first_match tagged_fence_re s =
  if startsWith s fence
  then Some (if startsWith s (fence ++ js "json") then 7 else 3)%nat
  else None.
Proof.
  unfold tagged_fence_re. cbn [first_match].
  destruct (startsWith s (fence ++ js "json")) eqn:E.
  - apply startsWith_prefix in E. now rewrite E.
  - reflexivity.
Qed.

(** Where no fence starts, the first replacement keeps what it finds: up to
    two backticks and the code unit after them. *)
Lemma remove_all_head (s : jsstring) :
  startsWith s fence = false ->
  startsWith (remove_all tagged_fence_re 0 s) fence = false.
Proof.
  assert (Hkeep : forall c r, startsWith (c :: r) fence = false ->
            remove_all tagged_fence_re 0 (c :: r)
            = c :: remove_all tagged_fence_re 0 r).
  { intros c r H. rewrite remove_all_0, tagged_fence_re_match. now rewrite H. }
  assert (Hnot : forall c r, c <> 96%N ->
            remove_all tagged_fence_re 0 (c :: r)
            = c :: remove_all tagged_fence_re 0 r).
  { intros c r H. apply Hkeep. now apply startsWith_fence_head. }
  intros H. destruct s as [|a r]; [reflexivity|]. rewrite (Hkeep _ _ H).
  destruct (N.eq_dec a 96) as [->|Ha]; [|now apply startsWith_fence_head].
  destruct r as [|b r]; [reflexivity|].
  destruct (N.eq_dec b 96) as [->|Hb].
  - destruct r as [|c r]; [reflexivity|].
    destruct (N.eq_dec c 96) as [->|Hc]; [discriminate H|].
    rewrite Hkeep by (unfold fence; cbn -[N.eqb];
                      destruct (N.eqb_spec 96 c); [congruence | reflexivity]).
    rewrite (Hnot _ _ Hc). unfold fence. cbn -[N.eqb].
    destruct (N.eqb_spec 96 c); [congruence | reflexivity].
  - rewrite (Hnot _ _ Hb). unfold fence. cbn -[N.eqb].
    destruct (N.eqb_spec 96 b); [congruence | reflexivity].
Qed.

Lemma first_replace_leaves_no_fence (s : jsstring) :
  includes (remove_all tagged_fence_re 0 s) fence = false.
Proof.
  remember (length s) as n eqn:Hn.
  assert (Hle : (length s <= n)%nat) by lia. clear Hn. revert s Hle.
  induction n as [|n IH]; intros s Hle.
  - destruct s; [reflexivity | simpl in Hle; lia].
  - destruct s as [|c r]; [reflexivity|]. simpl in Hle.
    destruct (startsWith (c :: r) fence) eqn:E.
    + rewrite remove_all_0, tagged_fence_re_match, E.
      assert (Hskip : forall k, includes (remove_all tagged_fence_re k r) fence = false).
      { intros k. rewrite remove_all_skip. apply IH.
        pose proof (firstn_skipn k r) as Hsplit.
        apply (f_equal (@length code_unit)) in Hsplit.
        rewrite length_app in Hsplit. lia. }
      destruct (startsWith (c :: r) (fence ++ js "json")); apply Hskip.
    + pose proof (remove_all_head _ E) as Hhead.
      rewrite remove_all_0, tagged_fence_re_match, E in *.
      rewrite includes_cons, Hhead. apply IH. lia.
Qed.

(** A replacement of fences changes nothing in a text without one. *)
Lemma remove_all_no_fence (pats : list jsstring) (s : jsstring) :
  (forall x, startsWith x fence = false -> first_match pats x = None) ->
  includes s fence = false -> remove_all pats 0 s = s.
Proof.
  intros Hp. induction s as [|c r IH]; intros Hin; [reflexivity|].
  rewrite includes_cons in Hin. apply orb_false_iff in Hin as [Hhead Hin].
  rewrite remove_all_0, (Hp _ Hhead). now rewrite IH.
Qed.

Lemma startsWith_app_l (a b p : jsstring) :
  startsWith a p = true -> startsWith (a ++ b) p = true.
Proof.
  revert a. induction p as [|x p IH]; intros a H; [reflexivity|].
  destruct a as [|y a]; [discriminate|]. simpl in *.
  apply andb_true_iff in H as [Hxy H]. rewrite Hxy. simpl. now apply IH.
Qed.

Lemma includes_app_l (a b p : jsstring) :
  includes (a ++ b) p = false -> includes a p = false.
Proof.
  induction a as [|c a IH]; intros H.
  - simpl. destruct p as [|x p]; [|reflexivity].
    destruct b; discriminate H.
  - simpl app in H. rewrite includes_cons in *.
    apply orb_false_iff in H as [Hhead H]. rewrite (IH H), orb_false_r.
    destruct (startsWith (c :: a) p) eqn:E; [|reflexivity].
    apply (startsWith_app_l _ b) in E. simpl app in E. congruence.
Qed.

Lemma trimEnd_prefix (s : jsstring) : exists b, s = trimEnd s ++ b.
Proof.
  induction s as [|c r [b IH]]; [now exists []|]. simpl.
  destruct (trimEnd r) as [|d r'].
  - destruct (is_js_space c); [now exists (c :: r)|].
    exists b. simpl in IH. now rewrite <- IH.
  - exists b. simpl. now rewrite IH at 1.
Qed.

Lemma includes_trimStart (s p : jsstring) :
  includes s p = false -> includes (trimStart s) p = false.
Proof.
  induction s as [|c r IH]; intros H; [assumption|]. simpl trimStart.
  destruct (is_js_space c); [|assumption].
  rewrite includes_cons in H. apply orb_false_iff in H as [_ H]. now apply IH.
Qed.

Lemma includes_trim (s p : jsstring) :
  includes s p = false -> includes (trim s) p = false.
Proof.
  intros H. apply includes_trimStart in H. unfold trim.
  destruct (trimEnd_prefix (trimStart s)) as [b Hb].
  rewrite Hb in H. now apply includes_app_l in H.
Qed.

(** X13. After the first replacement (controller.js 45), which drops every
    fence together with a tag "json" that follows it, no three backticks in a
    row are left in any text: the second replacement (controller.js 46) never
    changes anything, and the cleaned text holds no fence. *)
Theorem second_replace_changes_nothing (s : jsstring) :
  remove_all fence_re 0 (remove_all tagged_fence_re 0 s)
  = remove_all tagged_fence_re 0 s
  /\ clean s = trim (remove_all tagged_fence_re 0 s)
  /\ includes (clean s) fence = false.
Proof.
  pose proof (first_replace_leaves_no_fence s) as Hno.
  pose proof (remove_all_no_fence fence_re _ fence_re_fence Hno) as Hsame.
  unfold clean. rewrite Hsame. repeat split. now apply includes_trim.
Qed.

Lemma clean_no_fence (s : jsstring) : includes s fence = false -> clean s = trim s.
Proof.
  intros H. unfold clean.
  rewrite (remove_all_no_fence tagged_fence_re _ tagged_fence_re_fence H).
  now rewrite (remove_all_no_fence fence_re _ fence_re_fence H).
Qed.

(** X15. A JSON text with no three backticks in a row, with or without white
    space around it, is returned as its own strict parse. *)
Theorem unfenced_json_is_parsed (s : jsstring) (v : Json) :
  includes s fence = false ->
  JSON_parse s = Normal v ->
  extractJsonFromString (VStr s) = Normal v.
Proof.
  intros Hin Hparse. destruct s as [|c r]; [discriminate Hparse|].
  unfold extractJsonFromString.
  change (truthy (VStr (c :: r))) with true.
  cbn [negb orb typeof JsType_eqb]. cbv zeta.
  rewrite (clean_no_fence _ Hin). now rewrite (JSON_parse_trim _ _ Hparse).
Qed.

Lemma unfenced_json_is_parsed_witness :
  extractJsonFromString (VStr (jsq " {'summary': 'Ok.'} "))
  = Normal (JObj [(js "summary", JStr (js "Ok."))]).
Proof.
  apply (unfenced_json_is_parsed (jsq " {'summary': 'Ok.'} ")).
  - reflexivity.
  - reflexivity.
Defined.

(** *** The salvage *)

Lemma through_last_none (c : code_unit) (s : jsstring) :
  ~ In c s -> through_last c s = None.
Proof.
  induction s as [|x r IH]; intros H; [reflexivity|]. simpl.
  rewrite IH by (intros Hr; apply H; now right).
  destruct (N.eqb_spec x c); [|reflexivity]. destruct H. now left.
Qed.

Lemma through_last_app (c : code_unit) (mid post : jsstring) :
  ~ In c post -> through_last c (mid ++ c :: post) = Some (mid ++ [c]).
Proof.
  intros H. induction mid as [|x mid IH]; simpl.
  - rewrite (through_last_none _ _ H). now rewrite N.eqb_refl.
  - now rewrite IH.
Qed.

Lemma match_braces_app (pre mid post : jsstring) :
  ~ In 123%N pre -> ~ In 125%N post ->
  match_braces (pre ++ 123%N :: mid ++ 125%N :: post)
  = Some (123%N :: mid ++ [125%N]).
Proof.
  intros Hpre Hpost. induction pre as [|x pre IH]; simpl.
  - now rewrite through_last_app.
  - destruct (N.eqb_spec x 123) as [->|_]; [destruct Hpre; now left|].
    apply IH. intros H. apply Hpre. now right.
Qed.

Lemma trimStart_before (pre rest : jsstring) (c : N) :
  is_js_space c = false ->
  exists pre', trimStart (pre ++ c :: rest) = pre' ++ c :: rest
               /\ forall x, In x pre' -> In x pre.
Proof.
  intros Hc. induction pre as [|x pre [pre' [IH Hsub]]].
  - exists []. simpl. now rewrite Hc.
  - simpl. destruct (is_js_space x).
    + exists pre'. split; [assumption|]. intros y Hy. right. now apply Hsub.
    + exists (x :: pre). split; [reflexivity | trivial].
Qed.

Lemma trimEnd_after (s post : jsstring) (c : N) :
  is_js_space c = false ->
  trimEnd (s ++ c :: post) = s ++ c :: trimEnd post.
Proof.
  intros Hc. induction s as [|x s IH].
  - simpl. rewrite Hc. now destruct (trimEnd post).
  - simpl app. simpl trimEnd. rewrite IH. now destruct s.
Qed.

(** What the salvage expression finds in a text trimmed at both ends. *)
Lemma match_braces_trim (pre mid post : jsstring) :
  ~ In 123%N pre -> ~ In 125%N post ->
  match_braces (trim (pre ++ 123%N :: mid ++ 125%N :: post))
  = Some (123%N :: mid ++ [125%N]).
Proof.
  intros Hpre Hpost. unfold trim.
  destruct (trimStart_before pre (mid ++ 125%N :: post) 123%N eq_refl)
    as [pre' [-> Hsub]].
  change (pre' ++ 123%N :: mid ++ 125%N :: post)
    with (pre' ++ (123%N :: mid) ++ 125%N :: post).
  rewrite app_assoc, (trimEnd_after _ post 125%N eq_refl), <- app_assoc.
  apply match_braces_app.
  - intros H. apply Hpre. now apply Hsub.
  - intros H. apply Hpost. now apply trimEnd_In.
Qed.

(** X14. The salvage. A JSON text that starts with "{" and ends with "}",
    with text before it that holds no "{" and text after it that holds no
    "}", and no three backticks in a row anywhere: when the whole is no JSON
    by itself, the value of the part between the braces is returned. *)
Theorem object_between_prose_is_salvaged (pre mid post : jsstring) (v : Json) :
  let object := 123%N :: mid ++ [125%N] in
  let text := pre ++ object ++ post in
  ~ In 123%N pre -> ~ In 125%N post ->
  includes text fence = false ->
  JSON_parse object = Normal v ->
  (forall w, JSON_parse (trim text) <> Normal w) ->
  extractJsonFromString (VStr text) = Normal v.
Proof.
  cbv zeta. intros Hpre Hpost Hin Hparse Hstrict.
  assert (Htext : pre ++ (123%N :: mid ++ [125%N]) ++ post
                  = pre ++ 123%N :: mid ++ 125%N :: post).
  { simpl. now rewrite <- app_assoc. }
  rewrite Htext in *.
  destruct (pre ++ 123%N :: mid ++ 125%N :: post) as [|c r] eqn:E;
    [now destruct pre|].
  unfold extractJsonFromString.
  change (truthy (VStr (c :: r))) with true.
  cbn [negb orb typeof JsType_eqb]. cbv zeta.
  rewrite (clean_no_fence _ Hin).
  destruct (JSON_parse (trim (c :: r))) as [w|e] eqn:Ew;
    [now destruct (Hstrict w)|].
  cbn [try_catch]. rewrite <- E, (match_braces_trim _ _ _ Hpre Hpost).
  now rewrite Hparse.
Qed.

(** An answer that puts its JSON between two sentences. *)
Lemma object_between_prose_is_salvaged_witness :
  extractJsonFromString
    (VStr (js "Here is the summary: " ++ (123%N :: jsq "'summary': 'Ok.'" ++ [125%N])
           ++ js " I hope it helps!"))
  = Normal (JObj [(js "summary", JStr (js "Ok."))]).
Proof.
  apply (object_between_prose_is_salvaged
           (js "Here is the summary: ") (jsq "'summary': 'Ok.'")
           (js " I hope it helps!")).
  - vm_compute. intuition discriminate.
  - vm_compute. intuition discriminate.
  - reflexivity.
  - reflexivity.
  - intros w. vm_compute. discriminate.
Defined.

(** *** What the salvage can give *)

Lemma object_at_bottom_cons (f : frame) (stack : list frame) :
  object_at_bottom stack = true -> object_at_bottom (f :: stack) = true.
Proof. destruct stack; [discriminate | trivial]. Qed.

Lemma parse_value_reads_object (stack : list frame) (t : token) (st : parse_state) :
  object_at_bottom stack = true -> parse_value stack t = Some st -> reads_object st.
Proof.
  intros Hs H. destruct t; simpl in H; try discriminate;
    injection H as <-; simpl; auto.
Qed.

Lemma parse_step_reads_object (st st' : parse_state) (t : token) :
  reads_object st -> parse_step st t = Some st' -> reads_object st'.
Proof.
  intros Hst H. destruct st as [stack|stack|stack|stack done|stack done k|stack v];
    simpl in Hst, H.
  - eapply parse_value_reads_object; eassumption.
  - destruct t; try (eapply parse_value_reads_object;
                     [apply object_at_bottom_cons|]; eassumption).
    injection H as <-. cbn [reads_object]. auto.
  - destruct t; try discriminate; injection H as <-; cbn [reads_object]; [|assumption].
    destruct Hst as [->|Hst]; [right; eauto | now left].
  - destruct t; try discriminate. injection H as <-. exact Hst.
  - destruct t; try discriminate. injection H as <-. cbn [reads_object].
    destruct Hst as [->|Hst]; [reflexivity | now apply object_at_bottom_cons].
  - destruct stack as [|[done|done k] stack]; [discriminate| |].
    + destruct Hst as [Hst|[Hnil _]]; [|discriminate].
      assert (Hrest : object_at_bottom stack = true)
        by (destruct stack; [discriminate | exact Hst]).
      destruct t; try discriminate; injection H as <-; cbn [reads_object].
      * now left.
      * now apply object_at_bottom_cons.
    + destruct Hst as [Hst|[Hnil _]]; [|discriminate].
      assert (Hrest : stack = [] \/ object_at_bottom stack = true)
        by (destruct stack; [now left | now right]).
      destruct t; try discriminate; injection H as <-; cbn [reads_object].
      * destruct Hrest as [->|Hrest]; [right; eauto | now left].
      * exact Hrest.
Qed.

Lemma parse_from_reads_object (ts : list token) :
  forall st v, reads_object st -> parse_from st ts = Some v ->
               exists members, v = JObj members.
Proof.
  induction ts as [|t ts IH]; intros st v Hst H; simpl in H.
  - destruct st as [| | | | |[|f stack] w]; try discriminate.
    injection H as <-. destruct Hst as [Hst|[_ Hw]]; [discriminate | exact Hw].
  - destruct (parse_step st t) as [st'|] eqn:E; [|discriminate].
    eapply IH; [|exact H]. eapply parse_step_reads_object; eassumption.
Qed.

(** A JSON text that starts with "{" is an object. *)
Lemma JSON_parse_object (r : jsstring) (v : Json) :
  JSON_parse (123%N :: r) = Normal v -> exists members, v = JObj members.
Proof.
  unfold JSON_parse, lex. simpl lex_from.
  change (lex_step LStart 123%N) with (Some (LStart, [TLBrace])).
  destruct (lex_from LStart r) as [more|]; [|discriminate].
  simpl app. unfold parse_tokens. simpl parse_from.
  destruct (parse_from (PObjectStart []) more) as [w|] eqn:E; [|discriminate].
  intros H. injection H as <-.
  eapply parse_from_reads_object; [|exact E]. now left.
Qed.

(** An object holds a name once, with its last value, and its array
    indices come first. *)
Lemma JSON_parse_members :
  JSON_parse (jsq "{'b': 1, '1': 2, 'b': 3, '0': 4}")
  = Normal (JObj [(js "0", JNum (Dec false 4 0)); (js "1", JNum (Dec false 2 0));
                  (js "b", JNum (Dec false 3 0))]).
Proof. reflexivity. Qed.

Lemma match_braces_head (s m : jsstring) :
  match_braces s = Some m -> exists r, m = 123%N :: r.
Proof.
  induction s as [|x s IH]; [discriminate|]. simpl.
  destruct (N.eqb_spec x 123) as [->|_]; [|exact IH].
  destruct (through_last 125%N s) as [p|]; [|discriminate].
  intros H. injection H as <-. eauto.
Qed.

(** X16. What [extractJsonFromString] returns is the strict parse of the
    cleaned text, or [null], or an object: the salvage from the first "{"
    to the last "}" never gives an array, a string, a number or a boolean. *)
Theorem salvage_gives_an_object_or_null (s : JsVal) :
  extractJsonFromString s = Normal JNull
  \/ (exists str, s = VStr str
        /\ extractJsonFromString s = JSON_parse (clean str))
  \/ (exists members, extractJsonFromString s = Normal (JObj members)).
Proof.
  destruct s as [| |b|n|str|items|props|call];
    try (left; apply extractJsonFromString_not_string; intros ? ?; discriminate).
  destruct str as [|c r]; [now left|].
  unfold extractJsonFromString.
  change (truthy (VStr (c :: r))) with true.
  cbn [negb orb typeof JsType_eqb]. cbv zeta.
  destruct (JSON_parse (clean (c :: r))) as [v|e] eqn:E.
  - right. left. exists (c :: r). now rewrite E.
  - cbn [try_catch].
    destruct (match_braces (clean (c :: r))) as [m|] eqn:Em; [|now left].
    destruct (JSON_parse m) as [v|e'] eqn:Ev; [|now left].
    right. right. apply match_braces_head in Em as [r' ->].
    apply JSON_parse_object in Ev as [members ->]. now exists members.
Qed.

(** ** [promiseTextFromResponse] *)

Section TextOfResponse.
Variable JSON_stringify : JsVal -> Completion JsVal.

Local Abbreviation text_of := (promiseTextFromResponse JSON_stringify).

(** X12. Where the text of a response comes from, in this order: [null]
    for a falsy response; the outcome of [text()] when the response has
    such a function, whatever else it holds; else the first truthy one of
    [candidates[0].content.parts[0].text], [candidates[0].content.text] and
    [output_text]; else the response itself when it is a string, and what
    [JSON.stringify] makes of it when it is not. So an object without
    [text()] gives the text on the candidate path when there is one, the
    text of the content when the content has no parts, [output_text] when
    there are no candidates, and is handed to [JSON.stringify] when it has
    none of these names. Only [text()] and [JSON.stringify] can make the
    function throw. *)
Theorem promiseTextFromResponse_sources (response : JsVal) :
  let content :=
    opt_get (opt_first (opt_get response (js "candidates"))) (js "content") in
  let found :=
    find truthy [opt_get (opt_first (opt_get content (js "parts"))) (js "text");
                 opt_get content (js "text");
                 opt_get response (js "output_text")] in
  (truthy response = false -> text_of response = Normal VNull)
  /\ (forall call, truthy response = true ->
        get response (js "text") = VFun call -> text_of response = call)
  /\ (truthy response = true ->
      (forall call, get response (js "text") <> VFun call) ->
      text_of response =
      match found with
      | Some v => Normal v
      | None => match response with
                | VStr _ => Normal response
                | _ => JSON_stringify response
                end
      end)
  /\ (forall s, response = VStr s -> s <> [] -> text_of response = Normal response)
  /\ (forall props, response = VObj props ->
      (forall call, lookup (js "text") props <> Some (VFun call)) ->
      (forall cprops ctprops pprops more_candidates more_parts v,
          lookup (js "candidates") props
            = Some (VArr (VObj cprops :: more_candidates)) ->
          lookup (js "content") cprops = Some (VObj ctprops) ->
          lookup (js "parts") ctprops = Some (VArr (VObj pprops :: more_parts)) ->
          lookup (js "text") pprops = Some v -> truthy v = true ->
          text_of response = Normal v)
      /\ (forall cprops ctprops more_candidates v,
            lookup (js "candidates") props
              = Some (VArr (VObj cprops :: more_candidates)) ->
            lookup (js "content") cprops = Some (VObj ctprops) ->
            lookup (js "parts") ctprops = None ->
            lookup (js "text") ctprops = Some v -> truthy v = true ->
            text_of response = Normal v)
      /\ (forall v,
            lookup (js "candidates") props = None ->
            lookup (js "output_text") props = Some v -> truthy v = true ->
            text_of response = Normal v)
      /\ (lookup (js "candidates") props = None ->
          lookup (js "output_text") props = None ->
          text_of response = JSON_stringify response))
  /\ (forall e, text_of response = Throw e ->
        get response (js "text") = VFun (Throw e)
        \/ JSON_stringify response = Throw e).
Proof.
  intros content found.
  assert (Hfound : truthy response = true ->
            (forall call, get response (js "text") <> VFun call) ->
            text_of response =
            match found with
            | Some v => Normal v
            | None => match response with
                      | VStr _ => Normal response
                      | _ => JSON_stringify response
                      end
            end).
  { intros Ht Hnofun. unfold promiseTextFromResponse. rewrite Ht. cbn [negb].
    subst found content. cbn [find].
    destruct (get response (js "text")) as [| |b|n|s|items|props|call];
      try (now destruct (Hnofun call));
      cbv zeta;
      (destruct (truthy (opt_get (opt_first (opt_get
          (opt_get (opt_first (opt_get response (js "candidates"))) (js "content"))
          (js "parts"))) (js "text"))); [reflexivity|]);
      (destruct (truthy (opt_get
          (opt_get (opt_first (opt_get response (js "candidates"))) (js "content"))
          (js "text"))); [reflexivity|]);
      (destruct (truthy (opt_get response (js "output_text"))); reflexivity). }
  assert (Hobject : forall props, response = VObj props ->
            (forall call, lookup (js "text") props <> Some (VFun call)) ->
            truthy response = true
            /\ forall call, get response (js "text") <> VFun call).
  { intros props -> Hnofun. split; [reflexivity|]. intros call. simpl.
    destruct (lookup (js "text") props) as [x|] eqn:E; [|discriminate].
    intros ->. now destruct (Hnofun call). }
  split; [|split; [|split; [|split; [|split]]]].
  - intros Ht. unfold promiseTextFromResponse. now rewrite Ht.
  - intros call Ht Hcall. unfold promiseTextFromResponse. now rewrite Ht, Hcall.
  - exact Hfound.
  - intros s -> Hs. destruct s as [|c r]; [congruence | reflexivity].
  - intros props Hresponse Hnofun.
    destruct (Hobject props Hresponse Hnofun) as [Ht Hget].
    rewrite (Hfound Ht Hget). subst found content response.
    split; [|split; [|split]].
    + intros cprops ctprops pprops more_candidates more_parts v Hc Hct Hp Hv Htv.
      cbn [find opt_get opt_first get]. rewrite Hc. cbn [opt_first opt_get get].
      rewrite Hct. cbn [opt_first opt_get get]. rewrite Hp.
      cbn [opt_first opt_get get]. rewrite Hv. now rewrite Htv.
    + intros cprops ctprops more_candidates v Hc Hct Hp Hv Htv.
      cbn [find opt_get opt_first get]. rewrite Hc. cbn [opt_first opt_get get].
      rewrite Hct. cbn [opt_first opt_get get]. rewrite Hp, Hv.
      cbn [opt_first opt_get get truthy]. rewrite Htv. reflexivity.
    + intros v Hc Ho Htv.
      cbn [find opt_get opt_first get]. rewrite Hc, Ho.
      cbn [opt_first opt_get get truthy]. rewrite Htv. reflexivity.
    + intros Hc Ho.
      cbn [find opt_get opt_first get]. rewrite Hc, Ho. reflexivity.
  - intros e. destruct (truthy response) eqn:Ht;
      [|unfold promiseTextFromResponse; rewrite Ht; discriminate].
    destruct (get response (js "text")) as [| |b|n|s|items|props|call] eqn:Eget;
      try (unfold promiseTextFromResponse; rewrite Ht, Eget; cbn [negb];
           intros ->; now left);
      (rewrite Hfound
         by first [reflexivity | intros call; discriminate]);
      (destruct found; [discriminate|]);
      (destruct response; intros H; try (now right); discriminate).
Qed.

End TextOfResponse.

(** ** The page and the server *)

Lemma validateFile_message (f : option Page.File) (e : jsstring) :
  Page.validateFile f = Some e -> is_empty e = false.
Proof.
  unfold Page.validateFile. destruct f as [f|].
  - destruct (negb _ && negb _); [intros H; injection H as <-; reflexivity|].
    destruct (Page.size f >? Page.MAX_FILE_SIZE)%Z; [|discriminate].
    intros H. injection H as <-. reflexivity.
  - intros H. injection H as <-. reflexivity.
Qed.

Lemma handleFileSelect_file (selectedFile : Page.File) (st : Page.State) :
  Page.file (Page.handleFileSelect selectedFile st) = Page.file st
  \/ (Page.file (Page.handleFileSelect selectedFile st) = Some selectedFile
      /\ Page.validateFile (Some selectedFile) = None).
Proof.
  unfold Page.handleFileSelect.
  destruct (Page.validateFile (Some selectedFile)) as [e|] eqn:E.
  - rewrite (validateFile_message _ _ E). now left.
  - right. split; [|reflexivity].
    now destruct (startsWith (Page.type selectedFile) (js "image/")).
Qed.

(** No handler puts a file into the state that [validateFile] refuses. *)
Lemma step_keeps_file_valid (toString : JsVal -> jsstring)
  (st : Page.State) (ev : Page.Event) :
  (forall f, Page.file st = Some f -> Page.validateFile (Some f) = None) ->
  forall f, Page.file (Page.step toString st ev) = Some f ->
            Page.validateFile (Some f) = None.
Proof.
  intros Hst f.
  assert (Hselect : forall g st', Page.file st' = Page.file st ->
            Page.file (Page.handleFileSelect g st') = Some f ->
            Page.validateFile (Some f) = None).
  { intros g st' Hsame H.
    destruct (handleFileSelect_file g st') as [Hkeep|[Hnew Hvalid]].
    - apply Hst. congruence.
    - rewrite Hnew in H. now injection H as <-. }
  destruct ev as [| |[g|]|[g|]|url| |fetched|written| |]; simpl.
  - apply Hst.
  - apply Hst.
  - now apply Hselect.
  - apply Hst.
  - now apply Hselect.
  - apply Hst.
  - apply Hst.
  - assert (Hsame : Page.file (Page.processFile st) = Page.file st)
      by (clear; destruct st as [[held|] ? ? ? ? ? ?]; reflexivity).
    rewrite Hsame. apply Hst.
  - unfold Page.processFile_settled.
    destruct fetched as [response|e]; [destruct (negb (Page.ok response));
      [|destruct (Page.json response)]|]; simpl; apply Hst.
  - apply Hst.
  - apply Hst.
  - discriminate.
Qed.

Lemma run_keeps_file_valid (toString : JsVal -> jsstring) (events : list Page.Event) :
  forall st,
    (forall f, Page.file st = Some f -> Page.validateFile (Some f) = None) ->
    forall f, Page.file (Page.run toString events st) = Some f ->
              Page.validateFile (Some f) = None.
Proof.
  induction events as [|ev events IH]; intros st Hst; [exact Hst|].
  apply (IH (Page.step toString st ev)). now apply step_keeps_file_valid.
Qed.

Lemma processImage_log
  (JSON_stringify : JsVal -> Completion JsVal) (base64 : Buffer -> jsstring)
  (generateContent : Log -> ModelInput -> Completion JsVal)
  (req : Request) (f : File) (mime : jsstring) (log : Log) :
  file req = Some f -> mimetype f = Some mime ->
  startsWith mime (js "image/") = true -> (size f <= 10 * 1024 * 1024)%Z ->
  snd (processImage JSON_stringify base64 generateContent req log)
  = log ++ [EvGenerate (imageInput base64 (buffer f) mime)].
Proof.
  intros Hfile Hmime Himage Hsize.
  rewrite (processImage_accepted JSON_stringify base64 generateContent
             req f mime log Hfile Hmime Himage Hsize).
  unfold catch, bind, await_generateContent, lift.
  destruct (generateContent log (imageInput base64 (buffer f) mime))
    as [response|e]; [|reflexivity].
  destruct (promiseTextFromResponse JSON_stringify response) as [textOut|e];
    [|reflexivity].
  destruct (extractJsonFromString textOut) as [parsed|e]; [|reflexivity].
  destruct (negb (json_truthy parsed)
            || negb (JsType_eqb (json_typeof parsed) TyObject)); [reflexivity|].
  destruct (is_blank (trimmed_field parsed "title")
            || is_blank (trimmed_field parsed "description")); [reflexivity|].
  destruct (trimmed_field parsed "title"),
           (trimmed_field parsed "description"); reflexivity.
Qed.

Lemma processPdf_log
  (JSON_stringify : JsVal -> Completion JsVal) (toLowerCase : jsstring -> jsstring)
  (pdf : Buffer -> Completion (option PdfData))
  (generateContent : Log -> ModelInput -> Completion JsVal)
  (req : Request) (f : File) (log : Log) :
  file req = Some f -> mimetype f = Some (js "application/pdf") ->
  (size f <= 10 * 1024 * 1024)%Z ->
  exists rest,
    snd (processPdf JSON_stringify toLowerCase pdf generateContent req log)
    = log ++ EvPdf (buffer f) :: rest.
Proof.
  intros Hfile Hmime Hsize.
  rewrite (processPdf_accepted JSON_stringify toLowerCase pdf generateContent
             req f log Hfile (or_introl Hmime) Hsize).
  apply extraction_logged.
  - intros data. destruct (is_empty (trim (text_or_empty data)));
      [apply appends_ret | apply appends_summarizeText].
  - intros e. apply appends_ret.
Qed.

(** X17. Whatever happens on the page, the file it holds is one that
    [validateFile] lets through, so what [processFile] sends is not turned
    away by the handler it is sent to. With the type and the size of the
    file arriving as the browser has them, an image goes to /process-image,
    where the model is called, and anything else is a PDF by its type and
    goes to /process-pdf, where its text is extracted. *)
Theorem page_sends_only_what_the_server_accepts
  (JSON_stringify : JsVal -> Completion JsVal) (toLowerCase : jsstring -> jsstring)
  (base64 : Buffer -> jsstring) (pdf : Buffer -> Completion (option PdfData))
  (generateContent : Log -> ModelInput -> Completion JsVal)
  (toString : JsVal -> jsstring) (events : list Page.Event)
  (f : Page.File) (req : Request) (upload : File) (log : Log) :
  Page.file (Page.run toString events Page.initial) = Some f ->
  file req = Some upload ->
  mimetype upload = Some (Page.type f) ->
  size upload = Page.size f ->
  Page.validateFile (Some f) = None
  /\ ((Page.endpoint f = Page.server ++ js "/process-image"
       /\ snd (processImage JSON_stringify base64 generateContent req log)
          = log ++ [EvGenerate (imageInput base64 (buffer upload) (Page.type f))])
      \/ (Page.endpoint f = Page.server ++ js "/process-pdf"
          /\ exists rest,
               snd (processPdf JSON_stringify toLowerCase pdf generateContent req log)
               = log ++ EvPdf (buffer upload) :: rest)).
Proof.
  intros Hheld Hfile Hmime Hsize.
  assert (Hvalid : Page.validateFile (Some f) = None).
  { apply (run_keeps_file_valid toString events Page.initial); [|exact Hheld].
    discriminate. }
  split; [exact Hvalid|].
  unfold Page.validateFile in Hvalid. unfold Page.endpoint.
  destruct (startsWith (Page.type f) (js "image/")) eqn:Himage.
  - left. split; [reflexivity|].
    simpl in Hvalid.
    destruct (Z.gtb_spec (Page.size f) Page.MAX_FILE_SIZE) as [|Hle];
      [discriminate|]. unfold Page.MAX_FILE_SIZE in Hle.
    apply processImage_log; [assumption | assumption | assumption | lia].
  - right. split; [reflexivity|].
    unfold str_eqb in Hvalid.
    destruct (list_eq_dec N.eq_dec (Page.type f) (js "application/pdf"))
      as [Hpdf|_]; [|discriminate].
    simpl in Hvalid.
    destruct (Z.gtb_spec (Page.size f) Page.MAX_FILE_SIZE) as [|Hle];
      [discriminate|]. unfold Page.MAX_FILE_SIZE in Hle.
    apply processPdf_log; [assumption | congruence | lia].
Qed.

(** A PNG image is picked, nothing else happens, and it is sent. *)
Lemma page_sends_only_what_the_server_accepts_witness :
  let upload := {| buffer := [137; 80; 78; 71]%N;
                   mimetype := Some (js "image/png");
                   originalname := Some (js "photo.png");
                   size := 2 * 1024 * 1024 |} in
  Page.endpoint example_browser_image = js "http://localhost:4000/process-image"
  /\ snd (processImage example_stringify example_base64 (example_model [])
            {| file := Some upload |} [])
     = [EvGenerate (imageInput example_base64 (buffer upload) (js "image/png"))].
Proof.
  cbv zeta.
  destruct (proj2 (page_sends_only_what_the_server_accepts
              example_stringify example_toLowerCase example_base64
              (example_pdf []) (example_model []) example_toString
              [Page.OnFileInputChange (Some example_browser_image)]
              example_browser_image
              {| file := Some {| buffer := [137; 80; 78; 71]%N;
                                 mimetype := Some (js "image/png");
                                 originalname := Some (js "photo.png");
                                 size := 2 * 1024 * 1024 |} |}
              _ [] eq_refl eq_refl eq_refl eq_refl)) as [H|[H _]].
  - exact H.
  - vm_compute in H. discriminate H.
Defined.

(** The names in the bodies the two handlers answer with. *)
Lemma processPdf_names
  (JSON_stringify : JsVal -> Completion JsVal) (toLowerCase : jsstring -> jsstring)
  (pdf : Buffer -> Completion (option PdfData))
  (generateContent : Log -> ModelInput -> Completion JsVal)
  (req : Request) (log : Log) :
  exists r,
    fst (processPdf JSON_stringify toLowerCase pdf generateContent req log) = Normal r
    /\ ((status r = 200%Z /\ response_names r = [js "summary"])
        \/ (status r <> 200%Z
            /\ In (response_names r)
                  [[js "error"]; [js "error"; js "details"];
                   [js "error"; js "geminiRawResponse"]])).
Proof.
  unfold processPdf, catch, processPdf_try.
  destruct (file req) as [f|];
    [|eexists; split; [reflexivity|right; split; [discriminate|simpl; auto]]].
  destruct (negb _);
    [eexists; split; [reflexivity|right; split; [discriminate|simpl; auto]]|].
  destruct (size f >? 10 * 1024 * 1024)%Z;
    [eexists; split; [reflexivity|right; split; [discriminate|simpl; auto]]|].
  unfold bind at 1. unfold await_pdf.
  destruct (pdf (buffer f)) as [data|e];
    [|eexists; split; [reflexivity|right; split; [discriminate|simpl; auto]]].
  destruct (is_empty (trim (text_or_empty data)));
    [eexists; split; [reflexivity|right; split; [discriminate|simpl; auto]]|].
  unfold summarizeText, bind.
  destruct (loop_shape JSON_stringify generateContent
              (chunkText (trim (text_or_empty data))) []
              (log ++ [EvPdf (buffer f)])) as [k [_ Hres]].
  destruct (summarizeChunks JSON_stringify generateContent
              (chunkText (trim (text_or_empty data))) []
              (log ++ [EvPdf (buffer f)])) as [[[r|sums]|e] log1]; simpl in Hres.
  - destruct Hres as [t ->].
    eexists; split; [reflexivity|right; split; [discriminate|simpl; auto]].
  - destruct (combine_shape JSON_stringify generateContent sums log1) as [_ Hcomb].
    destruct (combineSummaries JSON_stringify generateContent sums log1)
      as [[r|e] log2]; simpl in Hcomb.
    + destruct Hcomb as [[t ->]|[x ->]].
      * eexists; split; [reflexivity|right; split; [discriminate|simpl; auto]].
      * eexists; split; [reflexivity|left; split; reflexivity].
    + eexists; split; [reflexivity|right; split; [discriminate|simpl; auto]].
  - eexists; split; [reflexivity|right; split; [discriminate|simpl; auto]].
Qed.

Lemma processImage_names
  (JSON_stringify : JsVal -> Completion JsVal) (base64 : Buffer -> jsstring)
  (generateContent : Log -> ModelInput -> Completion JsVal)
  (req : Request) (log : Log) :
  exists r,
    fst (processImage JSON_stringify base64 generateContent req log) = Normal r
    /\ ((status r = 200%Z /\ response_names r = [js "title"; js "description"])
        \/ (status r <> 200%Z
            /\ In (response_names r)
                  [[js "error"]; [js "error"; js "details"];
                   [js "error"; js "geminiRawResponse"];
                   [js "error"; js "geminiJson"]])).
Proof.
  unfold processImage, catch, processImage_try.
  destruct (file req) as [f|];
    [|eexists; split; [reflexivity|right; split; [discriminate|simpl; auto]]].
  destruct (mimetype f) as [mime|];
    [|eexists; split; [reflexivity|right; split; [discriminate|simpl; auto]]].
  destruct (negb _);
    [eexists; split; [reflexivity|right; split; [discriminate|simpl; auto]]|].
  destruct (size f >? MAX_BYTES)%Z;
    [eexists; split; [reflexivity|right; split; [discriminate|simpl; auto]]|].
  unfold bind, await_generateContent, lift.
  destruct (generateContent log (imageInput base64 (buffer f) mime))
    as [response|e];
    [|eexists; split; [reflexivity|right; split; [discriminate|simpl; auto]]].
  destruct (promiseTextFromResponse JSON_stringify response) as [textOut|e];
    [|eexists; split; [reflexivity|right; split; [discriminate|simpl; auto]]].
  destruct (extractJsonFromString textOut) as [parsed|e];
    [|eexists; split; [reflexivity|right; split; [discriminate|simpl; auto]]].
  destruct (negb (json_truthy parsed)
            || negb (JsType_eqb (json_typeof parsed) TyObject));
    [eexists; split; [reflexivity|right; split; [discriminate|simpl; auto]]|].
  destruct (is_blank (trimmed_field parsed "title")
            || is_blank (trimmed_field parsed "description"));
    [eexists; split; [reflexivity|right; split; [discriminate|simpl; auto 6]]|].
  destruct (trimmed_field parsed "title"), (trimmed_field parsed "description");
    eexists; (split; [reflexivity|]);
    try (left; split; reflexivity);
    right; (split; [discriminate|simpl; auto 6]).
Qed.

Lemma lookup_absent {A} (k : jsstring) (ps : list (jsstring * A)) :
  ~ In k (map fst ps) -> lookup k ps = None.
Proof.
  induction ps as [|[k' v] ps IH]; intros H; [reflexivity|]. simpl.
  rewrite IH by (intros Hin; apply H; now right).
  unfold str_eqb. destruct (list_eq_dec N.eq_dec k' k) as [->|_]; [|reflexivity].
  destruct H. now left.
Qed.

(** X18. The text the server gives for a failure never reaches the user.
    Both handlers put it under [error], and the page reads [message]: for
    every answer of [processPdf] or [processImage] that is not a 200, a
    response that is not ok and carries an object with no other names than
    the answer's makes the page show "Server error: " and the status. *)
Theorem server_error_text_is_not_shown
  (JSON_stringify : JsVal -> Completion JsVal) (toLowerCase : jsstring -> jsstring)
  (base64 : Buffer -> jsstring) (pdf : Buffer -> Completion (option PdfData))
  (generateContent : Log -> ModelInput -> Completion JsVal)
  (toString : JsVal -> jsstring)
  (req : Request) (log : Log) (r : HttpResponse)
  (response : Page.Response) (props : list (jsstring * JsVal)) (st : Page.State) :
  fst (processPdf JSON_stringify toLowerCase pdf generateContent req log) = Normal r
  \/ fst (processImage JSON_stringify base64 generateContent req log) = Normal r ->
  status r <> 200%Z ->
  Page.ok response = false ->
  Page.status response = status r ->
  Page.json response = Normal (VObj props) ->
  incl (map fst props) (response_names r) ->
  Page.error (Page.processFile_settled toString (Normal response) st)
  = js "Server error: " ++ decimal (status r).
Proof.
  intros Hrun Hfail Hok Hstatus Hjson Hnames.
  assert (Habsent : ~ In (js "message") (response_names r)).
  { destruct Hrun as [Hrun|Hrun].
    - destruct (processPdf_names JSON_stringify toLowerCase pdf generateContent
                  req log) as [r' [Hr' Hforms]].
      rewrite Hrun in Hr'. injection Hr' as <-.
      destruct Hforms as [[H200 _]|[_ Hin]]; [contradiction|].
      simpl in Hin. intros Hm.
      destruct Hin as [E|[E|[E|[]]]]; rewrite <- E in Hm;
        vm_compute in Hm; intuition discriminate.
    - destruct (processImage_names JSON_stringify base64 generateContent
                  req log) as [r' [Hr' Hforms]].
      rewrite Hrun in Hr'. injection Hr' as <-.
      destruct Hforms as [[H200 _]|[_ Hin]]; [contradiction|].
      simpl in Hin. intros Hm.
      destruct Hin as [E|[E|[E|[E|[]]]]]; rewrite <- E in Hm;
        vm_compute in Hm; intuition discriminate. }
  assert (Hlookup : lookup (js "message") props = None).
  { apply lookup_absent. intros Hin. apply Habsent. now apply Hnames. }
  unfold Page.processFile_settled, Page.serverError.
  rewrite Hok, Hjson, Hstatus. cbn [negb read_property get].
  rewrite Hlookup. reflexivity.
Qed.

(** A scanned PDF: the server explains what is wrong with it, and the page
    shows "Server error: 422". *)
Lemma server_error_text_is_not_shown_witness :
  fst (example_processPdf (js "   ") []) = Normal no_text_failure
  /\ Page.error
       (Page.processFile_settled example_toString
          (Normal {| Page.ok := false;
                     Page.status := 422;
                     Page.statusText := js "Unprocessable Entity";
                     Page.json := Normal (VObj [(js "error", VStr (js
    "No selectable text found in PDF. If the PDF is scanned, Kindly upload a text-based PDF."))]) |})
          Page.initial)
     = js "Server error: 422".
Proof.
  split; [reflexivity|].
  refine (server_error_text_is_not_shown
            example_stringify example_toLowerCase example_base64
            (example_pdf (js "   ")) (example_model []) example_toString
            {| file := Some example_pdf_file |} [] no_text_failure
            {| Page.ok := false; Page.status := 422;
               Page.statusText := js "Unprocessable Entity";
               Page.json := Normal (VObj [(js "error", VStr _)]) |}
            [(js "error", VStr _)] Page.initial _ _ _ _ _ _).
  - left. reflexivity.
  - discriminate.
  - reflexivity.
  - reflexivity.
  - reflexivity.
  - intros k Hk. exact Hk.
Defined.

(** X19. Every 200 answer is shown, and in one panel only: with the names
    of the answer arriving as they were sent, an answer of [processImage]
    passes [isImageResult] and not [isPDFResult], and an answer of
    [processPdf] passes [isPDFResult] and not [isImageResult]. *)
Theorem answers_are_shown_in_their_panel
  (JSON_stringify : JsVal -> Completion JsVal) (toLowerCase : jsstring -> jsstring)
  (base64 : Buffer -> jsstring) (pdf : Buffer -> Completion (option PdfData))
  (generateContent : Log -> ModelInput -> Completion JsVal)
  (toString : JsVal -> jsstring)
  (req : Request) (log : Log) (r : HttpResponse)
  (props : list (jsstring * JsVal)) :
  status r = 200%Z ->
  map fst props = response_names r ->
  (fst (processImage JSON_stringify base64 generateContent req log) = Normal r ->
   Page.isImageResult toString (VObj props) = Normal true
   /\ Page.isPDFResult toString (VObj props) = Normal false)
  /\ (fst (processPdf JSON_stringify toLowerCase pdf generateContent req log)
      = Normal r ->
      Page.isImageResult toString (VObj props) = Normal false
      /\ Page.isPDFResult toString (VObj props) = Normal true).
Proof.
  intros H200 Hprops. split; intros Hrun.
  - destruct (processImage_names JSON_stringify base64 generateContent req log)
      as [r' [Hr' Hforms]].
    rewrite Hrun in Hr'. injection Hr' as <-.
    destruct Hforms as [[_ Hnames]|[Hfail _]]; [|contradiction].
    rewrite Hnames in Hprops.
    destruct props as [|[k1 v1] [|[k2 v2] [|]]]; try discriminate.
    simpl in Hprops. injection Hprops as -> ->. split; reflexivity.
  - destruct (processPdf_names JSON_stringify toLowerCase pdf generateContent
                req log) as [r' [Hr' Hforms]].
    rewrite Hrun in Hr'. injection Hr' as <-.
    destruct Hforms as [[_ Hnames]|[Hfail _]]; [|contradiction].
    rewrite Hnames in Hprops.
    destruct props as [|[k1 v1] [|]]; try discriminate.
    simpl in Hprops. injection Hprops as ->. split; reflexivity.
Qed.

(** The answer to a photograph, as the page receives it. *)
Lemma answers_are_shown_in_their_panel_witness :
  let data := VObj [(js "title", VStr (js "A cat"));
                    (js "description", VStr (js "A cat on a sofa."))] in
  Page.isImageResult example_toString data = Normal true
  /\ Page.isPDFResult example_toString data = Normal false.
Proof.
  cbv zeta.
  refine (proj1 (answers_are_shown_in_their_panel
            example_stringify example_toLowerCase example_base64
            (example_pdf []) (example_model
               [jsq "{'title': 'A cat', 'description': 'A cat on a sofa.'}"])
            example_toString
            {| file := Some example_image_file |} []
            (image_response (js "A cat") (js "A cat on a sofa."))
            [(js "title", VStr (js "A cat"));
             (js "description", VStr (js "A cat on a sofa."))] _ _) _).
  - reflexivity.
  - reflexivity.
  - reflexivity.
Defined.
